(** * MT4 report converter: trade extraction, classification and Pine Script
      generation ([src/services/tradeProcessor.ts], [src/constants.ts])

    A shallow embedding of the TypeScript sources, followed by the properties
    of the specification.  The embedding keeps the shapes of the source:

    - a JavaScript string is a [string], read as a sequence of 8-bit code
      units (the Latin-1 range of UTF-16); upper-casing leaves that range,
      so the generated script is the list of its code units;
    - a JavaScript number is an IEEE-754 binary64 value, a [spec_float] of
      [SpecFloat] with [prec = 53] and [emax = 1024]; [NaN], the infinities
      and the two zeros are values of the type;
    - a [Date] is its time value, [None] for the invalid date (time value
      NaN); the wall clock read by [new Date()] is an explicit argument
      [now], one reading for a whole call: the code reads the clock again
      at every call of [parseMT4DateToUTC] on a string without a timestamp,
      so the statements about the order of trades are made for trades
      whose open time holds one ([byOpenTimeAt] has a reading for each
      call);
    - the object used as a dictionary and the [Map] are insertion-ordered
      association lists of their own entries; the names the dictionary
      inherits from [Object.prototype] are those of [inheritedNames], and
      [classifyAndGroupTradesOrThrow] is the call on any items, which
      throws on an inherited one;
    - the HTML document is given by the rows and cell texts that the
      parser reads from it;
    - [Array.prototype.sort] is the stable sort, and it sorts in place: the
      function that calls it returns the new content of its argument next
      to its result. *)

From Stdlib Require Import ZArith List String Ascii Bool Lia Permutation Sorted.
From Stdlib Require Import Decimal DecimalString SpecFloat.
Import ListNotations.
Open Scope string_scope.
Open Scope Z_scope.

(** ** JavaScript strings *)

Module JSString.

Definition code (c : ascii) : Z := Z.of_N (N_of_ascii c).

Definition isDigit (c : ascii) : bool := (48 <=? code c) && (code c <=? 57).

Definition digitValue (c : ascii) : Z := code c - 48.

(** WhiteSpace and LineTerminator code units below 256: TAB, LF, VT, FF, CR,
    SP and NBSP. *)
Definition isWhiteSpace (c : ascii) : bool :=
  let n := code c in
  ((9 <=? n) && (n <=? 13)) || (n =? 32) || (n =? 160).

Fixpoint trimStart (s : string) : string :=
  match s with
  | String c s' => if isWhiteSpace c then trimStart s' else s
  | EmptyString => EmptyString
  end.

Fixpoint trimEnd (s : string) : string :=
  match s with
  | EmptyString => EmptyString
  | String c s' =>
      match trimEnd s' with
      | EmptyString => if isWhiteSpace c then EmptyString else String c EmptyString
      | r => String c r
      end
  end.

(** [String.prototype.trim] *)
Definition trim (s : string) : string := trimEnd (trimStart s).

Definition lowerChar (c : ascii) : ascii :=
  let n := code c in
  if ((65 <=? n) && (n <=? 90)) || ((192 <=? n) && (n <=? 222) && negb (n =? 215))
  then ascii_of_N (Z.to_N (n + 32)) else c.

(** [String.prototype.toLowerCase] *)
Fixpoint toLowerCase (s : string) : string :=
  match s with
  | EmptyString => EmptyString
  | String c s' => String (lowerChar c) (toLowerCase s')
  end.

(** The code units of a string. *)
Definition codeUnits (s : string) : list Z := map code (list_ascii_of_string s).

(** [String.prototype.toUpperCase], as code units.  Sharp s becomes two
    letters; the upper-case forms of the micro sign (U+039C) and of y with
    diaeresis (U+0178) lie above code unit 255. *)
Fixpoint toUpperCase (s : string) : list Z :=
  match s with
  | EmptyString => []
  | String c s' =>
      let n := code c in
      let upper :=
        if n =? 223 then [83; 83]
        else if n =? 181 then [924]
        else if n =? 255 then [376]
        else if ((97 <=? n) && (n <=? 122)) || ((224 <=? n) && (n <=? 254) && negb (n =? 247))
        then [n - 32]
        else [n] in
      List.app upper (toUpperCase s')
  end.

(** [String.prototype.includes] *)
Fixpoint includes (s sub : string) : bool :=
  prefix sub s ||
  match s with
  | EmptyString => false
  | String _ s' => includes s' sub
  end.

(** Decimal digits of a non-negative integer, ["0"] for zero. *)
Definition ofNat (n : Z) : string := NilEmpty.string_of_uint (N.to_uint (Z.to_N n)).


Fixpoint zeros (n : nat) : string :=
  match n with
  | O => EmptyString
  | S n' => String "0" (zeros n')
  end.

Definition substring_from (n : nat) (s : string) : string :=
  substring n (length s - n) s.

End JSString.

(** ** JavaScript numbers: IEEE-754 binary64 *)

Module JSNumber.
Import JSString.

Definition number : Type := spec_float.

Definition prec : Z := 53.
Definition emax : Z := 1024.

Definition NaN : number := S754_nan.
Definition zero : number := S754_zero false.

(** [x > y], [x >= y], [x <= y] and unary minus *)
Definition gt (x y : number) : bool := SFltb y x.
Definition ge (x y : number) : bool := SFleb y x.
Definition le (x y : number) : bool := SFleb x y.
Definition neg (x : number) : number := SFopp x.

Definition isNaN (x : number) : bool :=
  match x with S754_nan => true | _ => false end.

(** The binary64 value nearest to [m * 10^e] (ties to even), for [m >= 0]:
    the rounding of StringNumericValue. *)
Definition roundDecimal (sign : bool) (m e : Z) : number :=
  match m with
  | Zpos _ =>
      if 0 <=? e
      then binary_normalize prec emax (if sign then - (m * 10 ^ e) else m * 10 ^ e) 0 sign
      else let '(q, e', l) := SFdiv_core_binary prec emax m 0 (10 ^ (- e)) 0 in
           binary_round_aux prec emax sign q e' l
  | _ => S754_zero sign
  end.

(** Longest run of decimal digits at the head of [s]: its value as an
    integer, its length, and what follows. *)
Fixpoint digitsPrefix (acc : Z) (n : Z) (s : string) : Z * Z * string :=
  match s with
  | String c s' =>
      if isDigit c then digitsPrefix (10 * acc + digitValue c) (n + 1) s'
      else (acc, n, s)
  | EmptyString => (acc, n, s)
  end.

(** ExponentPart at the head of [s], when there is one: its value. *)
Definition exponentPart (s : string) : Z :=
  match s with
  | String c s' =>
      if (code c =? 101) || (code c =? 69) then
        let '(neg_e, s'') :=
          match s' with
          | String "-" r => (true, r)
          | String "+" r => (false, r)
          | _ => (false, s')
          end in
        let '(v, n, _) := digitsPrefix 0 0 s'' in
        if n =? 0 then 0 else if neg_e then - v else v
      else 0
  | EmptyString => 0
  end.

(** [parseFloat]: the longest prefix of the trimmed input that is a
    StrDecimalLiteral, [NaN] when there is none. *)
Definition parseFloat (input : string) : number :=
  let s := trimStart input in
  let '(sign, s1) :=
    match s with
    | String "-" r => (true, r)
    | String "+" r => (false, r)
    | _ => (false, s)
    end in
  if prefix "Infinity" s1 then S754_infinity sign
  else
    let '(ip, ni, s2) := digitsPrefix 0 0 s1 in
    let '(m, nf, s3) :=
      match s2 with
      | String "." r => digitsPrefix ip 0 r
      | _ => (ip, 0, s2)
      end in
    if (ni =? 0) && (nf =? 0) then NaN
    else roundDecimal sign m (exponentPart s3 - nf).

(** *** Decimal renderings *)

(** A positive finite number [m * 2^e] against decimals: every quantity is
    an integer over the common denominator [2^k], [k = max 0 (2 - e)]. *)
Definition denomExp (e : Z) : Z := Z.max 0 (2 - e).

Definition scaledValue (m : positive) (e : Z) : Z := Zpos m * 2 ^ (e + denomExp e).

(** Half the distance to the next number above, and to the next below
    (which is closer at the bottom of a binade). *)
Definition halfGapUp (e : Z) : Z := 2 ^ (e + denomExp e - 1).

Definition halfGapDown (m : positive) (e : Z) : Z :=
  if (Zpos m =? 2 ^ (prec - 1)) && (3 - emax - prec <? e)
  then 2 ^ (e + denomExp e - 2) else 2 ^ (e + denomExp e - 1).

(** [s * 10^p] compared with [v / 2^k], as [s * decA] against [v * decB]. *)
Definition decA (e p : Z) : Z := 2 ^ denomExp e * 10 ^ Z.max 0 p.
Definition decB (p : Z) : Z := 10 ^ Z.max 0 (- p).

(** Does the decimal [s * 10^p] round to [m * 2^e]? *)
Definition roundsTo (m : positive) (e s p : Z) : bool :=
  let x := s * decA e p in
  let lo := (scaledValue m e - halfGapDown m e) * decB p in
  let hi := (scaledValue m e + halfGapUp e) * decB p in
  if Z.even (Zpos m) then (lo <=? x) && (x <=? hi) else (lo <? x) && (x <? hi).

(** The [n] with [10^(n-1) <= m * 2^e < 10^n], searched from an estimate. *)
Fixpoint decimalExponent (fuel : nat) (m : positive) (e n : Z) : Z :=
  match fuel with
  | O => n
  | S fuel' =>
      if scaledValue m e * decB (n - 1) <? decA e (n - 1)
      then decimalExponent fuel' m e (n - 1)
      else if decA e n <=? scaledValue m e * decB n
      then decimalExponent fuel' m e (n + 1)
      else n
  end.

Definition estimateExponent (m : positive) (e : Z) : Z :=
  ((Zpos (digits2_pos m) + e - 1) * 30103) / 100000 + 1.

(** The shortest decimal [s * 10^p] that rounds to [m * 2^e], the closest
    to it among those of that length, with [k] digits tried from [k]. *)
Fixpoint shortestFrom (fuel : nat) (m : positive) (e n k : Z) : Z * Z :=
  let p := n - k in
  let v := scaledValue m e * decB p in
  let sl := v / decA e p in
  let sh := sl + 1 in
  let okl := roundsTo m e sl p in
  let okh := roundsTo m e sh p in
  let dl := v - sl * decA e p in
  let dh := sh * decA e p - v in
  if okl && okh then
    if dl <? dh then (sl, p)
    else if dh <? dl then (sh, p)
    else if Z.even sl then (sl, p) else (sh, p)
  else if okl then (sl, p)
  else if okh then (sh, p)
  else
    match fuel with
    | O => (sl, p)
    | S fuel' => shortestFrom fuel' m e n (k + 1)
    end.

Fixpoint stripZeros (fuel : nat) (s p : Z) : Z * Z :=
  match fuel with
  | O => (s, p)
  | S fuel' =>
      if (s mod 10 =? 0) && negb (s =? 0) then stripZeros fuel' (s / 10) (p + 1)
      else (s, p)
  end.

(** The digits [s] and the exponent [n] of Number::toString: the number is
    [0.s * 10^n]. *)
Definition shortestDigits (m : positive) (e : Z) : string * Z :=
  let n := decimalExponent 400 m e (estimateExponent m e) in
  let '(s, p) := shortestFrom 20 m e n 1 in
  let '(s', p') := stripZeros 25 s p in
  let ds := ofNat s' in
  (ds, p' + Z.of_nat (length ds)).

(** [Number::toString] in radix 10 *)
Definition toString (x : number) : string :=
  match x with
  | S754_nan => "NaN"
  | S754_zero _ => "0"
  | S754_infinity s => if s then "-Infinity" else "Infinity"
  | S754_finite sg m e =>
      let '(ds, n) := shortestDigits m e in
      let k := Z.of_nat (length ds) in
      let body :=
        if (-5 <=? n) && (n <=? 21) then
          if k <=? n then ds ++ zeros (Z.to_nat (n - k))
          else if 0 <? n then
            substring 0 (Z.to_nat n) ds ++ "." ++ substring_from (Z.to_nat n) ds
          else "0." ++ zeros (Z.to_nat (- n)) ++ ds
        else
          let ex := n - 1 in
          let exs := (if ex <? 0 then "-" else "+") ++ ofNat (Z.abs ex) in
          if k =? 1 then ds ++ "e" ++ exs
          else substring 0 1 ds ++ "." ++ substring_from 1 ds ++ "e" ++ exs in
      if sg then "-" ++ body else body
  end.

(** The integer [n] for which [n / 100] is nearest to [m * 2^e], the larger
    one of two. *)
Definition nearestHundredth (m : positive) (e : Z) : Z :=
  if 0 <=? e then Zpos m * 2 ^ e * 100
  else (2 * Zpos m * 100 + 2 ^ (- e)) / 2 ^ (- e + 1).

Definition atLeast1e21 (m : positive) (e : Z) : bool :=
  if 0 <=? e then 10 ^ 21 <=? Zpos m * 2 ^ e
  else 10 ^ 21 * 2 ^ (- e) <=? Zpos m.

(** [Number.prototype.toFixed(2)] *)
Definition toFixed2 (x : number) : string :=
  match x with
  | S754_finite sg m e =>
      if atLeast1e21 m e then toString x
      else
        let ds := ofNat (nearestHundredth m e) in
        let ds' := zeros (3 - length ds) ++ ds in
        let k := length ds' in
        (if sg then "-" else "") ++
        substring 0 (k - 2) ds' ++ "." ++ substring_from (k - 2) ds'
  | S754_zero _ => "0.00"
  | _ => toString x
  end.

End JSNumber.

(** ** The time functions of [Date] (ECMAScript, Date objects) *)

Module JSDate.

Definition msPerDay : Z := 86400000.
Definition msPerHour : Z := 3600000.
Definition msPerMinute : Z := 60000.
Definition msPerSecond : Z := 1000.

Definition Day (t : Z) : Z := t / msPerDay.
Definition TimeWithinDay (t : Z) : Z := t mod msPerDay.

Definition DaysInYear (y : Z) : Z :=
  if negb (y mod 4 =? 0) then 365
  else if negb (y mod 100 =? 0) then 366
  else if negb (y mod 400 =? 0) then 365
  else 366.

Definition DayFromYear (y : Z) : Z :=
  365 * (y - 1970) + (y - 1969) / 4 - (y - 1901) / 100 + (y - 1601) / 400.

(** The largest [y] with [DayFromYear y <= Day t]: one step around the
    estimate by the mean length of a year (lemma [YearFromTime_spec]). *)
Definition YearFromTime (t : Z) : Z :=
  let d := Day t in
  let y := 1970 + (400 * d) / 146097 in
  if DayFromYear (y + 1) <=? d then y + 1
  else if d <? DayFromYear y then y - 1
  else y.

Definition InLeapYear (t : Z) : Z :=
  if DaysInYear (YearFromTime t) =? 366 then 1 else 0.

Definition DayWithinYear (t : Z) : Z := Day t - DayFromYear (YearFromTime t).

(** Day number within the year of the first day of month [m] (0 to 11). *)
Definition monthStart (m leap : Z) : Z :=
  if m =? 0 then 0
  else if m =? 1 then 31
  else if m =? 2 then 59 + leap
  else if m =? 3 then 90 + leap
  else if m =? 4 then 120 + leap
  else if m =? 5 then 151 + leap
  else if m =? 6 then 181 + leap
  else if m =? 7 then 212 + leap
  else if m =? 8 then 243 + leap
  else if m =? 9 then 273 + leap
  else if m =? 10 then 304 + leap
  else 334 + leap.

Definition MonthFromTime (t : Z) : Z :=
  let d := DayWithinYear t in
  let leap := InLeapYear t in
  if d <? 31 then 0
  else if d <? 59 + leap then 1
  else if d <? 90 + leap then 2
  else if d <? 120 + leap then 3
  else if d <? 151 + leap then 4
  else if d <? 181 + leap then 5
  else if d <? 212 + leap then 6
  else if d <? 243 + leap then 7
  else if d <? 273 + leap then 8
  else if d <? 304 + leap then 9
  else if d <? 334 + leap then 10
  else 11.

Definition DateFromTime (t : Z) : Z :=
  DayWithinYear t - monthStart (MonthFromTime t) (InLeapYear t) + 1.

Definition HourFromTime (t : Z) : Z := (t / msPerHour) mod 24.
Definition MinFromTime (t : Z) : Z := (t / msPerMinute) mod 60.
Definition SecFromTime (t : Z) : Z := (t / msPerSecond) mod 60.
Definition msFromTime (t : Z) : Z := t mod msPerSecond.

Definition MakeTime (hour min sec ms : Z) : Z :=
  hour * msPerHour + min * msPerMinute + sec * msPerSecond + ms.

Definition MakeDay (year month date : Z) : Z :=
  let ym := year + month / 12 in
  let mn := month mod 12 in
  DayFromYear ym + monthStart mn (if DaysInYear ym =? 366 then 1 else 0) + date - 1.

Definition MakeDate (day time : Z) : Z := day * msPerDay + time.

(** [None] is the time value NaN. *)
Definition TimeClip (t : Z) : option Z :=
  if Z.abs t <=? 8640000000000000 then Some t else None.

(** A [Date] object is its time value. *)
Definition Date : Type := option Z.

(** [Date.UTC(year, month, day, hours, minutes, seconds)] on integers; a
    year from 0 to 99 stands for 1900 + year. *)
Definition UTC (year month day hours minutes seconds : Z) : option Z :=
  let yr := if (0 <=? year) && (year <=? 99) then 1900 + year else year in
  TimeClip (MakeDate (MakeDay yr month day) (MakeTime hours minutes seconds 0)).

Definition getTime (d : Date) : option Z := d.
Definition getUTCFullYear (d : Date) : option Z := option_map YearFromTime d.
Definition getUTCMonth (d : Date) : option Z := option_map MonthFromTime d.
Definition getUTCDate (d : Date) : option Z := option_map DateFromTime d.
Definition getUTCHours (d : Date) : option Z := option_map HourFromTime d.
Definition getUTCMinutes (d : Date) : option Z := option_map MinFromTime d.

(** [d.setUTCHours(hour)]: the date after the call. *)
Definition setUTCHours (d : Date) (hour : option Z) : Date :=
  match d, hour with
  | Some t, Some h =>
      TimeClip (MakeDate (Day t) (MakeTime h (MinFromTime t) (SecFromTime t) (msFromTime t)))
  | _, _ => None
  end.

(** Arithmetic of numbers that are integers or NaN. *)
Definition addInt (x : option Z) (k : Z) : option Z := option_map (fun v => v + k) x.

Definition subNum (x y : option Z) : option Z :=
  match x, y with
  | Some a, Some b => Some (a - b)
  | _, _ => None
  end.


End JSDate.

(** ** [src/constants.ts] *)

Record Offsets : Type := mkOffsets {
  MT4_UTC_OFFSET : Z;
  TV_UTC_OFFSET : Z;
  TV_TIMESTAMP_CORRECTION_HOURS : Z
}.

(** The values of the three exported constants. *)
Definition constants : Offsets :=
  {| MT4_UTC_OFFSET := 3; TV_UTC_OFFSET := -6; TV_TIMESTAMP_CORRECTION_HOURS := 2 |}.

(** ** [Array.prototype.sort] and the insertion-ordered maps *)

Module JSArray.
Section Sort.
Context {A : Type}.
(** The comparator's result, [None] for NaN, which the sort reads as 0. *)
Variable comparefn : A -> A -> option Z.

Definition sortsAfter (x y : A) : bool :=
  match comparefn x y with
  | Some v => 0 <? v
  | None => false
  end.

Fixpoint insert (x : A) (l : list A) : list A :=
  match l with
  | [] => [x]
  | y :: l' => if sortsAfter x y then y :: insert x l' else x :: l
  end.

(** The stable sort: the order ECMAScript fixes for a consistent
    comparator. *)
Fixpoint sort (l : list A) : list A :=
  match l with
  | [] => []
  | x :: l' => insert x (sort l')
  end.
End Sort.
End JSArray.

Module OrderedMap.
Section Map.
Context {V : Type}.

Definition t : Type := list (string * V).

Fixpoint get (k : string) (m : t) : option V :=
  match m with
  | [] => None
  | (k', v) :: m' => if String.eqb k k' then Some v else get k m'
  end.

(** An existing key keeps its place, a new key goes last. *)
Fixpoint set (k : string) (v : V) (m : t) : t :=
  match m with
  | [] => [(k, v)]
  | (k', v') :: m' => if String.eqb k k' then (k, v) :: m' else (k', v') :: set k v m'
  end.

Definition values (m : t) : list V := map snd m.
Definition keys (m : t) : list string := map fst m.
End Map.
Arguments t : clear implicits.
End OrderedMap.

(** ** [src/services/tradeProcessor.ts] *)

Module TradeProcessor.
Import JSString JSNumber JSDate.

(** *** The types of [../types] as the functions use them *)

Inductive TradeType : Type := buy | sell.

Record Trade : Type := mkTrade {
  ticket : string;
  openTimeRaw : string;
  type : TradeType;
  size : number;
  item : string;
  openPrice : number;
  closeTimeRaw : string;
  closePrice : number;
  profit : number
}.

Record Group : Type := mkGroup {
  winners : list Trade;
  breakeven : list Trade;
  losers : list Trade
}.

Definition GroupedTrades : Type := OrderedMap.t Group.

Record PineScriptTimestamp : Type := mkTimestamp {
  year : option Z;
  month : option Z;
  day : option Z;
  hours : option Z;
  minutes : option Z
}.

(** *** The regular expression of [parseMT4DateToUTC] *)

Inductive atom : Type := Digit | Lit (c : ascii).

(** [(\d{4})\.(\d{2})\.(\d{2}) (\d{2}):(\d{2}):(\d{2})] *)
Definition datePattern : list atom :=
  [Digit; Digit; Digit; Digit; Lit "."; Digit; Digit; Lit "."; Digit; Digit; Lit " ";
   Digit; Digit; Lit ":"; Digit; Digit; Lit ":"; Digit; Digit].

Definition atomMatches (a : atom) (c : ascii) : bool :=
  match a with
  | Digit => isDigit c
  | Lit c' => Ascii.eqb c c'
  end.

(** The text matched by the atoms [p] at the head of [s]. *)
Fixpoint matchAtoms (p : list atom) (s : string) : option string :=
  match p with
  | [] => Some EmptyString
  | a :: p' =>
      match s with
      | String c s' =>
          if atomMatches a c then option_map (String c) (matchAtoms p' s') else None
      | EmptyString => None
      end
  end.

(** [dateStr.match(...)]: the leftmost match. *)
Fixpoint regexMatch (s : string) : option string :=
  match matchAtoms datePattern s with
  | Some m => Some m
  | None =>
      match s with
      | String _ s' => regexMatch s'
      | EmptyString => None
      end
  end.

(** [Number] of a string of decimal digits. *)
Definition digitsToNumber (s : string) : Z := fst (fst (digitsPrefix 0 0 s)).

(** *** [parseMT4DateToUTC] (lines 9 to 19); [now] is the time value that
    [new Date()] reads from the clock. *)
Definition parseMT4DateToUTC (cfg : Offsets) (now : Z) (dateStr : string) : Date :=
  match regexMatch dateStr with
  | None => Some now
  | Some parts =>
      let year := digitsToNumber (substring 0 4 parts) in
      let month := digitsToNumber (substring 5 2 parts) in
      let day := digitsToNumber (substring 8 2 parts) in
      let hours := digitsToNumber (substring 11 2 parts) in
      let minutes := digitsToNumber (substring 14 2 parts) in
      let seconds := digitsToNumber (substring 17 2 parts) in
      let pseudoUTCDate := UTC year (month - 1) day hours minutes seconds in
      setUTCHours pseudoUTCDate (addInt (getUTCHours pseudoUTCDate) (- MT4_UTC_OFFSET cfg))
  end.

(** *** [convertToPineScriptTimestamp] (lines 27 to 40) *)
Definition convertToPineScriptTimestamp (cfg : Offsets) (utcDate : Date) : PineScriptTimestamp :=
  let adjustedDate : Date := getTime utcDate in
  let hourAdjustment := TV_UTC_OFFSET cfg + TV_TIMESTAMP_CORRECTION_HOURS cfg in
  let adjustedDate := setUTCHours adjustedDate (addInt (getUTCHours adjustedDate) hourAdjustment) in
  {| year := getUTCFullYear adjustedDate;
     month := addInt (getUTCMonth adjustedDate) 1;
     day := getUTCDate adjustedDate;
     hours := getUTCHours adjustedDate;
     minutes := getUTCMinutes adjustedDate |}.

(** *** [parseMT4Report] (lines 47 to 92)

    The document is given by what the function reads of it: the rows of
    [doc.querySelectorAll('tr')] in document order, each row by the text
    contents of its [row.querySelectorAll('td')]. *)

Definition Row : Type := list string.

Definition cellText (cells : Row) (i : nat) : string := nth i cells "".

(** [s || d] on strings *)
Definition orElse (s d : string) : string :=
  match s with
  | EmptyString => d
  | _ => s
  end.

Definition isEmpty (s : string) : bool :=
  match s with
  | EmptyString => true
  | _ => false
  end.

Definition firstCellIncludes (cells : Row) (marker : string) : bool :=
  (0 <? Z.of_nat (List.length cells)) && includes (cellText cells 0) marker.

(** Lines 68 to 85: the trade of a row of 14 cells, when the row gives one. *)
Definition rowToTrade (cells : Row) : option Trade :=
  let ty := toLowerCase (trim (cellText cells 2)) in
  let side :=
    if String.eqb ty "buy" then Some buy
    else if String.eqb ty "sell" then Some sell
    else None in
  match side with
  | None => None
  | Some ty =>
      let trade :=
        {| ticket := orElse (trim (cellText cells 0)) "";
           openTimeRaw := orElse (trim (cellText cells 1)) "";
           type := ty;
           size := parseFloat (orElse (trim (cellText cells 3)) "0");
           item := orElse (toLowerCase (trim (cellText cells 4))) "";
           openPrice := parseFloat (orElse (trim (cellText cells 5)) "0");
           closeTimeRaw := orElse (trim (cellText cells 8)) "";
           closePrice := parseFloat (orElse (trim (cellText cells 9)) "0");
           profit := parseFloat (orElse (trim (cellText cells 13)) "0") |} in
      if isEmpty (item trade) then None else Some trade
  end.

(** The loop of lines 55 to 90 from the state [(inClosedTransactions,
    trades)]: [continue] goes to the next row, [break] returns. *)
Fixpoint scanRows (inClosedTransactions : bool) (trades : list Trade) (rows : list Row)
  : list Trade :=
  match rows with
  | [] => trades
  | cells :: rest =>
      if firstCellIncludes cells "Closed Transactions:" then scanRows true trades rest
      else if firstCellIncludes cells "Open Trades:" || firstCellIncludes cells "Working Orders:"
      then trades
      else if inClosedTransactions && (Z.of_nat (List.length cells) =? 14) then
        match rowToTrade cells with
        | Some trade => scanRows inClosedTransactions (trades ++ [trade])%list rest
        | None => scanRows inClosedTransactions trades rest
        end
      else scanRows inClosedTransactions trades rest
  end.

Definition parseMT4Report (allRows : list Row) : list Trade := scanRows false [] allRows.

(** *** [classifyAndGroupTrades] (lines 100 to 139) *)

Section Classify.
Variable cfg : Offsets.
Variable now : Z.
Variable beTolerance : number.

(** The comparator of both sorts (lines 104 and 133). *)
Definition byOpenTime (a b : Trade) : option Z :=
  subNum (getTime (parseMT4DateToUTC cfg now (openTimeRaw a)))
         (getTime (parseMT4DateToUTC cfg now (openTimeRaw b))).

(** The comparator as one call of it runs: each of its two calls of
    [parseMT4DateToUTC] reads the clock, [nowA] for [a] and then [nowB] for
    [b].  [byOpenTime] is the comparator while the clock shows one value,
    and on trades whose open time holds a timestamp, where no reading is
    used. *)
Definition byOpenTimeAt (nowA nowB : Z) (a b : Trade) : option Z :=
  subNum (getTime (parseMT4DateToUTC cfg nowA (openTimeRaw a)))
         (getTime (parseMT4DateToUTC cfg nowB (openTimeRaw b))).

Definition emptyGroup : Group := {| winners := []; breakeven := []; losers := [] |}.

(** One turn of the loop of lines 108 to 119. *)
Definition bucketTrade (grouped : GroupedTrades) (trade : Trade) : GroupedTrades :=
  let grouped :=
    match OrderedMap.get (item trade) grouped with
    | None => OrderedMap.set (item trade) emptyGroup grouped
    | Some _ => grouped
    end in
  let g :=
    match OrderedMap.get (item trade) grouped with
    | Some g => g
    | None => emptyGroup
    end in
  if gt (profit trade) beTolerance then
    OrderedMap.set (item trade)
      {| winners := (winners g ++ [trade])%list; breakeven := breakeven g; losers := losers g |}
      grouped
  else if ge (profit trade) (neg beTolerance) && le (profit trade) beTolerance then
    OrderedMap.set (item trade)
      {| winners := winners g; breakeven := (breakeven g ++ [trade])%list; losers := losers g |}
      grouped
  else
    OrderedMap.set (item trade)
      {| winners := winners g; breakeven := breakeven g; losers := (losers g ++ [trade])%list |}
      grouped.

(** Lines 108 to 119. *)
Definition bucketTrades (sortedTrades : list Trade) : GroupedTrades :=
  fold_left bucketTrade sortedTrades [].

(** The key of the [Map] (line 127). *)
Definition winnerKey (winner : Trade) : string :=
  openTimeRaw winner ++ "_" ++ toString (openPrice winner).

(** One turn of the loop of lines 126 to 132. *)
Definition keepBest (uniqueWinnersMap : OrderedMap.t Trade) (winner : Trade)
  : OrderedMap.t Trade :=
  let key := winnerKey winner in
  match OrderedMap.get key uniqueWinnersMap with
  | None => OrderedMap.set key winner uniqueWinnersMap
  | Some existing =>
      if gt (profit winner) (profit existing)
      then OrderedMap.set key winner uniqueWinnersMap
      else uniqueWinnersMap
  end.

(** Lines 123 to 135 for one item. *)
Definition dedupWinners (winners : list Trade) : list Trade :=
  let uniqueWinnersMap := fold_left keepBest winners [] in
  JSArray.sort byOpenTime (OrderedMap.values uniqueWinnersMap).

(** Lines 122 to 136: every group gets its winners list replaced. *)
Definition dedupGroups (grouped : GroupedTrades) : GroupedTrades :=
  map (fun entry : string * Group =>
         (fst entry,
          {| winners := dedupWinners (winners (snd entry));
             breakeven := breakeven (snd entry);
             losers := losers (snd entry) |})) grouped.

(** The call: the content of [allTrades] after it (the array is sorted
    in place, [sortedTrades] is the same array) and the returned
    mapping. *)
Definition classifyAndGroupTrades (allTrades : list Trade) : list Trade * GroupedTrades :=
  let sortedTrades := JSArray.sort byOpenTime allTrades in
  let allTrades := sortedTrades in
  let grouped := bucketTrades sortedTrades in
  (allTrades, dedupGroups grouped).
End Classify.

(** *** [generatePineScriptForItem] (lines 147 to 202) *)

Definition nl : string := String (ascii_of_nat 10) EmptyString.
Definition quote : string := String (ascii_of_nat 34) EmptyString.

Definition header (item : string) : list Z :=
  List.app
    (codeUnits ("//@version=5" ++ nl ++ "indicator(" ++ quote))
    (List.app
       (toUpperCase item)
       (codeUnits
          (" Trades from Report" ++ quote ++ ", overlay=true, scale=scale.price)" ++ nl ++
           nl ++
           "// --- INPUTS ---" ++ nl ++
           "var string size_tiny = " ++ quote ++ "tiny" ++ quote ++ nl ++
           "var string size_small = " ++ quote ++ "small" ++ quote ++ nl ++
           "var string size_normal = " ++ quote ++ "normal" ++ quote ++ nl ++
           "var string size_large = " ++ quote ++ "large" ++ quote ++ nl ++
           "var string size_huge = " ++ quote ++ "huge" ++ quote ++ nl ++
           "var iconSize = input.string(size_normal, " ++ quote ++ "Icon Size" ++ quote ++
             ", options=[size_tiny, size_small, size_normal, size_large, size_huge])" ++ nl ++
           nl ++
           "if barstate.islast" ++ nl))).

Definition showType (t : TradeType) : string :=
  match t with
  | buy => "buy"
  | sell => "sell"
  end.



Section Generate.
Variable cfg : Offsets.
Variable now : Z.






End Generate.

End TradeProcessor.

(** * Vocabulary of the properties *)

Module Spec.
Import JSString JSNumber JSDate TradeProcessor.

(** The anchored pattern [^\d{4}\.\d{2}\.\d{2} \d{2}:\d{2}:\d{2}$] of the
    specification: the characters of the string are, one for one, those
    the pattern asks for. *)
Definition wellFormedTimestamp (s : string) : Prop :=
  Forall2 (fun a c => atomMatches a c = true) datePattern (list_ascii_of_string s).

(** Some substring of [s] is a well-formed timestamp. *)
Definition containsTimestamp (s : string) : Prop :=
  exists pre m post, s = pre ++ m ++ post /\ wellFormedTimestamp m.

(** The value the parser gives a numeric cell. *)
Definition numericCell (cells : Row) (i : nat) : number :=
  if isEmpty (trim (cellText cells i)) then zero else parseFloat (trim (cellText cells i)).

(** A row that ends the closed-transactions section. *)
Definition endMarker (cells : Row) : Prop :=
  firstCellIncludes cells "Open Trades:" = true \/
  firstCellIncludes cells "Working Orders:" = true.

Definition closedMarker (cells : Row) : Prop :=
  firstCellIncludes cells "Closed Transactions:" = true.

(** The scan of [rows] meets no row that ends it, and leaves the
    closed-transactions section open. *)
Definition insideClosedSection (rows : list Row) : Prop :=
  Forall (fun r => closedMarker r \/ ~ endMarker r) rows /\ Exists closedMarker rows.

(** A candidate trade row: 14 cells, no marker in its first cell. *)
Definition candidateRow (cells : Row) : Prop :=
  List.length cells = 14%nat /\ ~ closedMarker cells /\ ~ endMarker cells.

End Spec.

Module TimeSpec.
Import JSString JSNumber JSDate TradeProcessor.

(** The six fields of a matched timestamp read as a UTC calendar time: the
    argument of [TimeClip] in [Date.UTC]. *)
Definition fieldsTime (parts : string) : Z :=
  let year := digitsToNumber (substring 0 4 parts) in
  let month := digitsToNumber (substring 5 2 parts) in
  let day := digitsToNumber (substring 8 2 parts) in
  let hours := digitsToNumber (substring 11 2 parts) in
  let minutes := digitsToNumber (substring 14 2 parts) in
  let seconds := digitsToNumber (substring 17 2 parts) in
  let yr := if (0 <=? year) && (year <=? 99) then 1900 + year else year in
  MakeDate (MakeDay yr (month - 1) day) (MakeTime hours minutes seconds 0).

(** The display timestamp of a raw timestamp string. *)
Definition display (cfg : Offsets) (now : Z) (dateStr : string) : PineScriptTimestamp :=
  convertToPineScriptTimestamp cfg (parseMT4DateToUTC cfg now dateStr).

(** The minute a display timestamp denotes, counted from 1970-01-01 00:00:
    the calendar reading of its five fields. *)
Definition displayMinutes (ts : PineScriptTimestamp) : option Z :=
  match year ts, month ts, day ts, hours ts, minutes ts with
  | Some y, Some mo, Some d, Some h, Some mi =>
      Some (MakeDay y (mo - 1) d * 1440 + h * 60 + mi)
  | _, _, _, _, _ => None
  end.

Definition offsetsInRange (cfg : Offsets) : Prop :=
  Z.abs (MT4_UTC_OFFSET cfg) <= 1000000 /\
  Z.abs (TV_UTC_OFFSET cfg) <= 1000000 /\
  Z.abs (TV_TIMESTAMP_CORRECTION_HOURS cfg) <= 1000000.

(** The server offset, or the target offset, increased by [k] hours. *)
Definition shiftServer (cfg : Offsets) (k : Z) : Offsets :=
  {| MT4_UTC_OFFSET := MT4_UTC_OFFSET cfg + k;
     TV_UTC_OFFSET := TV_UTC_OFFSET cfg;
     TV_TIMESTAMP_CORRECTION_HOURS := TV_TIMESTAMP_CORRECTION_HOURS cfg |}.

Definition shiftTarget (cfg : Offsets) (k : Z) : Offsets :=
  {| MT4_UTC_OFFSET := MT4_UTC_OFFSET cfg;
     TV_UTC_OFFSET := TV_UTC_OFFSET cfg + k;
     TV_TIMESTAMP_CORRECTION_HOURS := TV_TIMESTAMP_CORRECTION_HOURS cfg |}.

(** The open instant of a trade: the time value of
    [parseMT4DateToUTC(trade.openTimeRaw)]. *)
Definition openInstant (cfg : Offsets) (now : Z) (trade : Trade) : Z :=
  match parseMT4DateToUTC cfg now (openTimeRaw trade) with
  | Some t => t
  | None => 0
  end.

End TimeSpec.

Module ClassifySpec.
Import JSString JSNumber JSDate TradeProcessor TimeSpec.

(** [x < y] on numbers *)
Definition lt (x y : number) : bool := SFltb x y.

(** [x == y] on numbers *)
Definition numEq (x y : number) : bool := SFeqb x y.

(** A number that is not NaN as a point of a lexicographic order: the sign
    class, then the exponent, then the mantissa. *)
Definition rank (x : number) : Z * Z * Z :=
  match x with
  | S754_zero _ => (0, 0, 0)
  | S754_nan => (0, 0, 0)
  | S754_infinity false => (2, 0, 0)
  | S754_infinity true => (-2, 0, 0)
  | S754_finite false m e => (1, e, Zpos m)
  | S754_finite true m e => (-1, - e, Zneg m)
  end.

Definition lexLt (p q : Z * Z * Z) : Prop :=
  fst (fst p) < fst (fst q) \/
  (fst (fst p) = fst (fst q) /\
   (snd (fst p) < snd (fst q) \/ (snd (fst p) = snd (fst q) /\ snd p < snd q))).

Definition lexLe (p q : Z * Z * Z) : Prop :=
  lexLt p q \/
  (fst (fst p) = fst (fst q) /\ snd (fst p) = snd (fst q) /\ snd p = snd q).

(** The tolerance is a non-negative number: [0 <= beTolerance]. *)
Definition nonNegative (tol : number) : Prop := le zero tol = true.

(** The three tests of lines 112 to 118, as the loop takes them. *)
Definition isWinner (tol : number) (t : Trade) : bool := gt (profit t) tol.

Definition isBreakeven (tol : number) (t : Trade) : bool :=
  negb (gt (profit t) tol) && (ge (profit t) (neg tol) && le (profit t) tol).

Definition isLoser (tol : number) (t : Trade) : bool :=
  negb (gt (profit t) tol) && negb (ge (profit t) (neg tol) && le (profit t) tol).

Definition hasItem (i : string) (t : Trade) : bool := String.eqb (item t) i.

(** The trades of item [i] in [l] that pass a test, in the order of [l]. *)
Definition bucket (test : Trade -> bool) (i : string) (l : list Trade) : list Trade :=
  filter (fun t => hasItem i t && test t) l.

(** The group of item [i] after the loop of lines 108 to 119 has run over [l]. *)
Definition bucketsOf (tol : number) (i : string) (l : list Trade) : Group :=
  {| winners := bucket (isWinner tol) i l;
     breakeven := bucket (isBreakeven tol) i l;
     losers := bucket (isLoser tol) i l |}.

(** The mapping after the loop has run over [l]: a group for each item met,
    holding the trades of the item by test, in the order of [l]. *)
Definition bucketed (tol : number) (m : GroupedTrades) (l : list Trade) : Prop :=
  forall i, OrderedMap.get i m
            = if existsb (hasItem i) l then Some (bucketsOf tol i l) else None.

(** The trade is in exactly one of the three lists of the group. *)
Definition inOneBucket (t : Trade) (g : Group) : Prop :=
  (In t (winners g) /\ ~ In t (breakeven g) /\ ~ In t (losers g)) \/
  (~ In t (winners g) /\ In t (breakeven g) /\ ~ In t (losers g)) \/
  (~ In t (winners g) /\ ~ In t (breakeven g) /\ In t (losers g)).

(** The deduplication key as a pair: the exact open-time string, and the
    open price as a value, which the key holds in the rendering of
    Number::toString (one rendering for one value, "0" for both zeros). *)
Definition sameKey (t u : Trade) : Prop :=
  openTimeRaw t = openTimeRaw u /\ toString (openPrice t) = toString (openPrice u).

(** [u] is the first of the trades of [l] with its key that have the highest
    profit among them: those before it earn less, those after it no more. *)
Definition firstBest (u : Trade) (l : list Trade) : Prop :=
  exists before after,
    l = (before ++ u :: after)%list /\
    (forall x, In x before -> sameKey x u -> lt (profit x) (profit u) = true) /\
    (forall x, In x after -> sameKey x u -> le (profit x) (profit u) = true).

(** The map of the deduplication loop after it has run over [done]: one
    entry for each key met, holding the first best trade of the key. *)
Definition deduped (m : OrderedMap.t Trade) (done : list Trade) : Prop :=
  NoDup (OrderedMap.keys m) /\
  (forall x, In x done -> OrderedMap.get (winnerKey x) m <> None) /\
  (forall k u, OrderedMap.get k m = Some u -> winnerKey u = k /\ firstBest u done).

Definition ascendingBy {A : Type} (key : A -> Z) (l : list A) : Prop :=
  StronglySorted (fun a b => key a <= key b) l.

(** Ascending open instants. *)
Definition ascending (cfg : Offsets) (now : Z) (l : list Trade) : Prop :=
  ascendingBy (openInstant cfg now) l.

Definition atInstant (cfg : Offsets) (now : Z) (T : Z) (t : Trade) : bool :=
  openInstant cfg now t =? T.

(** The trades of [out] with one open instant are those of [input], in the
    order of [input]. *)
Definition keepsInputOrder (cfg : Offsets) (now : Z) (input out : list Trade) : Prop :=
  forall T, filter (atInstant cfg now T) out = filter (atInstant cfg now T) input.

(** The array after the sort of line 104. *)
Definition sortedTrades (cfg : Offsets) (now : Z) (allTrades : list Trade) : list Trade :=
  JSArray.sort (byOpenTime cfg now) allTrades.

(** The group that [classifyAndGroupTrades] returns for item [i]. *)
Definition groupOf (cfg : Offsets) (now : Z) (tol : number) (i : string) (allTrades : list Trade)
  : Group :=
  {| winners := dedupWinners cfg now (bucket (isWinner tol) i (sortedTrades cfg now allTrades));
     breakeven := bucket (isBreakeven tol) i (sortedTrades cfg now allTrades);
     losers := bucket (isLoser tol) i (sortedTrades cfg now allTrades) |}.

(** [x] comes before [y] in [l]. *)
Definition precedes (x y : Trade) (l : list Trade) : Prop :=
  exists l1 l2 l3, l = (l1 ++ x :: l2 ++ y :: l3)%list.

(** The entry a new key gets in the deduplication map. *)
Definition keyed (w : Trade) : string * Trade := (winnerKey w, w).

Definition noUnderscore (c : ascii) : bool := negb (Ascii.eqb c "_").

Fixpoint allChars (P : ascii -> bool) (s : string) : bool :=
  match s with
  | EmptyString => true
  | String c s' => P c && allChars P s'
  end.

End ClassifySpec.

Module ScriptSpec.
Import JSString JSNumber JSDate TradeProcessor ClassifySpec.

















End ScriptSpec.

(** * Sample data *)

Module Samples.
Import JSNumber TradeProcessor.

(** A row of the closed-transactions table. *)
Definition sampleRow (ticket profit : string) : Row :=
  [ticket; "2024.01.10 10:00:00"; "buy"; "0.10"; "EURUSD"; "1.1000"; "0"; "0";
   "2024.01.10 11:00:00"; "1.1050"; "0"; "0"; "0"; profit].

(** A buy of eurusd, by ticket, open time, open price and profit. *)
Definition sampleTrade (ticket openTime openPrice profit : string) : Trade :=
  {| ticket := ticket; openTimeRaw := openTime; type := buy; size := parseFloat "0.10";
     item := "eurusd"; openPrice := parseFloat openPrice;
     closeTimeRaw := "2024.01.10 11:00:00"; closePrice := parseFloat "1.1050";
     profit := parseFloat profit |}.

Definition tradeEarly : Trade := sampleTrade "1" "2024.01.10 09:00:00" "1.1000" "50.00".
Definition tradeLate : Trade := sampleTrade "2" "2024.01.10 10:00:00" "1.1000" "50.00".

(** Three winners opened at the same time, the first and the third at the
    same price. *)
Definition tradeA : Trade := sampleTrade "A" "2024.01.10 10:00:00" "1.1000" "5.00".
Definition tradeB : Trade := sampleTrade "B" "2024.01.10 10:00:00" "1.2000" "5.00".
Definition tradeC : Trade := sampleTrade "C" "2024.01.10 10:00:00" "1.1000" "10.00".

(** A trade whose item is a name every object inherits. *)
Definition tradeInherited : Trade :=
  {| ticket := "9"; openTimeRaw := "2024.01.10 10:00:00"; type := buy;
     size := parseFloat "0.10"; item := "constructor"; openPrice := parseFloat "1.1000";
     closeTimeRaw := "2024.01.10 11:00:00"; closePrice := parseFloat "1.1050";
     profit := parseFloat "50.00" |}.

(** Two trades whose open-time cell is empty. *)
Definition tradeP : Trade := sampleTrade "P" "" "1.1000" "50.00".
Definition tradeQ : Trade := sampleTrade "Q" "" "1.2000" "50.00".

(** The trade of a row whose profit cell reads "n/a". *)
Definition tradeNaN : Trade :=
  {| ticket := "1"; openTimeRaw := "2024.01.10 10:00:00"; type := buy;
     size := parseFloat "0.10"; item := "eurusd"; openPrice := parseFloat "1.1000";
     closeTimeRaw := "2024.01.10 11:00:00"; closePrice := parseFloat "1.1050";
     profit := NaN |}.

End Samples.

(** * [src/components/CollapsibleSection.tsx]: the computed parts *)

Module Components.
Import JSString JSNumber TradeProcessor.

(** Line 48: the count shown beside the item. *)
Definition totalTrades (trades : Group) : nat :=
  (List.length (winners trades) + List.length (breakeven trades)
   + List.length (losers trades))%nat.

(** Line 25: the colour class of the profit of a listed trade. *)
Definition profitColorClass (trade : Trade) : string :=
  if gt (profit trade) zero then "text-green-400" else "text-red-400".

End Components.

(** * Vocabulary of the further properties *)

Module PipelineSpec.
Import JSString JSNumber JSDate TradeProcessor Spec TimeSpec ClassifySpec.

Definition isClosedMarker (cells : Row) : bool :=
  firstCellIncludes cells "Closed Transactions:".

(** A row at which the scan stops. *)
Definition isEndMarker (cells : Row) : bool :=
  negb (isClosedMarker cells) &&
  (firstCellIncludes cells "Open Trades:" || firstCellIncludes cells "Working Orders:").

(** The rows before the first row at which the scan stops. *)
Fixpoint scannedRows (rows : list Row) : list Row :=
  match rows with
  | [] => []
  | cells :: rest => if isEndMarker cells then [] else cells :: scannedRows rest
  end.

(** The rows after the first "Closed Transactions:" row. *)
Fixpoint closedSection (rows : list Row) : list Row :=
  match rows with
  | [] => []
  | cells :: rest => if isClosedMarker cells then rest else closedSection rest
  end.

(** The trade of a row inside the section, if the row gives one. *)
Definition candidateTrade (cells : Row) : list Trade :=
  if isClosedMarker cells then []
  else if Z.of_nat (List.length cells) =? 14 then
    match rowToTrade cells with
    | Some trade => [trade]
    | None => []
    end
  else [].

(** The trades of the rows of a section, in row order. *)
Definition candidateTrades (rows : list Row) : list Trade := flat_map candidateTrade rows.

(** A row that gives no trade: it has not 14 cells, or its side is neither
    buy nor sell, or it has no symbol. *)
Definition notTradeRow (cells : Row) : Prop :=
  List.length cells <> 14%nat \/
  (toLowerCase (trim (cellText cells 2)) <> "buy" /\
   toLowerCase (trim (cellText cells 2)) <> "sell") \/
  toLowerCase (trim (cellText cells 4)) = "".

(** The days of month [m] (0 to 11) of year [y]. *)
Definition daysInMonth (y m : Z) : Z :=
  let leap := if DaysInYear y =? 366 then 1 else 0 in
  (if m =? 11 then 365 + leap else monthStart (m + 1) leap) - monthStart m leap.

(** The six numbers of a timestamp string. *)
Definition yearOf (s : string) : Z := digitsToNumber (substring 0 4 s).
Definition monthOf (s : string) : Z := digitsToNumber (substring 5 2 s).
Definition dayOf (s : string) : Z := digitsToNumber (substring 8 2 s).
Definition hoursOf (s : string) : Z := digitsToNumber (substring 11 2 s).
Definition minutesOf (s : string) : Z := digitsToNumber (substring 14 2 s).
Definition secondsOf (s : string) : Z := digitsToNumber (substring 17 2 s).

(** The year [Date.UTC] takes a year number for: 0 to 99 stand for 1900 to
    1999. *)
Definition fullYear (y : Z) : Z := if (0 <=? y) && (y <=? 99) then 1900 + y else y.

(** The timestamp names a moment of the calendar, its year read by
    [fullYear]. *)
Definition calendarTimestamp (s : string) : Prop :=
  1 <= monthOf s <= 12 /\
  1 <= dayOf s <= daysInMonth (fullYear (yearOf s)) (monthOf s - 1) /\
  hoursOf s <= 23 /\ minutesOf s <= 59 /\ secondsOf s <= 59.

(** The hours by which the display clock runs behind the server clock. *)
Definition hoursBehind (cfg : Offsets) : Z :=
  MT4_UTC_OFFSET cfg - (TV_UTC_OFFSET cfg + TV_TIMESTAMP_CORRECTION_HOURS cfg).

(** The fields of a display timestamp are those of a calendar date. *)
Definition calendarFields (ts : PineScriptTimestamp) : Prop :=
  exists y mo d h mi,
    ts = {| year := Some y; month := Some mo; day := Some d;
            hours := Some h; minutes := Some mi |} /\
    1 <= mo <= 12 /\ 1 <= d <= 31 /\ 0 <= h <= 23 /\ 0 <= mi <= 59.

(** The keys of the winners, each once, in the order of first occurrence. *)
Definition distinctKeys (l : list Trade) : list string :=
  nodup string_dec (map winnerKey l).

(** The trades of item [i] in [l]. *)
Definition tradesOf (i : string) (l : list Trade) : list Trade := filter (hasItem i) l.

(** The property names every object inherits from [Object.prototype].  The
    dictionary of the classifier, read with one of them, answers with the
    inherited value and not with a group of its own; the association list
    of the embedding stands for the dictionary on all other items. *)
Definition inheritedNames : list string :=
  ["constructor"; "__proto__"; "hasOwnProperty"; "isPrototypeOf"; "propertyIsEnumerable";
   "toLocaleString"; "toString"; "valueOf"; "__defineGetter__"; "__defineSetter__";
   "__lookupGetter__"; "__lookupSetter__"].

Definition ownItem (t : Trade) : bool := negb (existsb (String.eqb (item t)) inheritedNames).

(** No item of [l] is an inherited name. *)
Definition ownItems (l : list Trade) : Prop := Forall (fun t => ownItem t = true) l.

(** The map of the deduplication loop after it has run over [done]: one
    entry for each key met, holding a trade of [done] with that key. *)
Definition keyedBy (m : OrderedMap.t Trade) (done : list Trade) : Prop :=
  NoDup (OrderedMap.keys m) /\
  (forall x, In x done -> In (winnerKey x) (OrderedMap.keys m)) /\
  (forall k u, OrderedMap.get k m = Some u -> winnerKey u = k /\ In u done).

(** A row of the closed-transactions section that the parser accepts: 14
    cells, no marker in the first, a side that reads buy or sell, and a
    symbol. *)
Definition acceptedRow (cells : Row) : Prop :=
  candidateRow cells /\
  (toLowerCase (trim (cellText cells 2)) = "buy" \/
   toLowerCase (trim (cellText cells 2)) = "sell") /\
  toLowerCase (trim (cellText cells 4)) <> "".

(** Every open time of [l] holds a timestamp: no call of
    [parseMT4DateToUTC] on it reads the clock. *)
Definition timestamped (l : list Trade) : Prop :=
  Forall (fun t => containsTimestamp (openTimeRaw t)) l.

(** The trades of [l] that are the first of their key, in the order of [l]. *)
Fixpoint firstOccurrences (l : list Trade) : list Trade :=
  match l with
  | [] => []
  | t :: l' =>
      t :: filter (fun x => negb (String.eqb (winnerKey x) (winnerKey t))) (firstOccurrences l')
  end.

(** The winner [trade] is listed, or dropped for a listed winner with its
    key that earns no less. *)
Definition keptOrReplaced (trade : Trade) (g : Group) : Prop :=
  exists u, In u (winners g) /\ sameKey u trade /\ le (profit trade) (profit u) = true.

(** No list of the group holds the trade. *)
Definition inNoBucket (t : Trade) (g : Group) : Prop :=
  ~ In t (winners g) /\ ~ In t (breakeven g) /\ ~ In t (losers g).

End PipelineSpec.

(** ** The dictionary as an object

    [grouped] is an object literal: read with a key it has not, it answers
    with what [Object.prototype] holds under the key. *)

Module ObjectSemantics.
Import JSString JSNumber JSDate TradeProcessor ClassifySpec PipelineSpec.

(** The value of [grouped[k]]. *)
Inductive Property : Type :=
| Own (g : Group)
| Inherited
| Undefined.

Definition getProperty (k : string) (grouped : GroupedTrades) : Property :=
  match OrderedMap.get k grouped with
  | Some g => Own g
  | None => if existsb (String.eqb k) inheritedNames then Inherited else Undefined
  end.

(** One turn of the loop of lines 108 to 119 on the object.  An inherited
    value is truthy, so line 110 makes no group; it has no [winners],
    [breakeven] or [losers], so the [push] of line 113, 115 or 117 throws a
    TypeError: [None]. *)
Definition bucketTradeOrThrow (beTolerance : number) (grouped : GroupedTrades) (trade : Trade)
  : option GroupedTrades :=
  match getProperty (item trade) grouped with
  | Inherited => None
  | Own _ => Some (bucketTrade beTolerance grouped trade)
  | Undefined => Some (bucketTrade beTolerance grouped trade)
  end.

Fixpoint bucketTradesOrThrow (beTolerance : number) (grouped : GroupedTrades)
    (sortedTrades : list Trade) : option GroupedTrades :=
  match sortedTrades with
  | [] => Some grouped
  | trade :: rest =>
      match bucketTradeOrThrow beTolerance grouped trade with
      | Some grouped' => bucketTradesOrThrow beTolerance grouped' rest
      | None => None
      end
  end.

(** The call on any items: the content of [allTrades] after it, sorted
    before the loop starts, and the returned mapping, [None] when the call
    throws. *)
Definition classifyAndGroupTradesOrThrow (cfg : Offsets) (now : Z) (beTolerance : number)
    (allTrades : list Trade) : list Trade * option GroupedTrades :=
  let sortedTrades := JSArray.sort (byOpenTime cfg now) allTrades in
  (sortedTrades,
   option_map (dedupGroups cfg now) (bucketTradesOrThrow beTolerance [] sortedTrades)).

End ObjectSemantics.

(** * Proofs *)

Import JSString JSNumber JSDate TradeProcessor Spec TimeSpec ClassifySpec ScriptSpec Samples.

(** ** The report parser *)

Section Parser.

Lemma scanRows_acc (rows : list Row) : forall b acc,
  scanRows b acc rows = (acc ++ scanRows b [] rows)%list.
Proof.
  induction rows as [|cells rest IH]; intros b acc; simpl.
  - now rewrite app_nil_r.
  - destruct (firstCellIncludes cells "Closed Transactions:"); [apply IH|].
    destruct (firstCellIncludes cells "Open Trades:" || firstCellIncludes cells "Working Orders:").
    + now rewrite app_nil_r.
    + destruct (b && (Z.of_nat (List.length cells) =? 14)); [|apply IH].
      destruct (rowToTrade cells) as [trade|]; [|apply IH].
      rewrite (IH b (acc ++ [trade])%list), (IH b [trade]).
      now rewrite <- app_assoc.
Qed.

Lemma scanRows_stops (pre post : list Row) (m : Row) : forall b acc,
  firstCellIncludes m "Closed Transactions:" = false ->
  endMarker m ->
  scanRows b acc (pre ++ m :: post) = scanRows b acc pre.
Proof.
  intros b acc Hc Hm. revert b acc.
  induction pre as [|cells rest IH]; intros b acc; simpl.
  - rewrite Hc. destruct Hm as [-> | ->]; [reflexivity | now rewrite orb_true_r].
  - destruct (firstCellIncludes cells "Closed Transactions:"); [apply IH|].
    destruct (firstCellIncludes cells "Open Trades:" || firstCellIncludes cells "Working Orders:");
      [reflexivity|].
    destruct (b && (Z.of_nat (List.length cells) =? 14)); [|apply IH].
    destruct (rowToTrade cells); apply IH.
Qed.

End Parser.

(** C6, as amended.  A row whose first cell contains "Open Trades:" or
    "Working Orders:" and does not contain "Closed Transactions:" ends the
    scan: the output is that of the rows before it, whatever rows follow,
    even rows of 14 cells with a buy or sell type cell. *)
Theorem rows_after_end_marker_ignored (pre post : list Row) (m : Row) :
  firstCellIncludes m "Closed Transactions:" = false ->
  endMarker m ->
  parseMT4Report (pre ++ m :: post) = parseMT4Report pre /\
  parseMT4Report (pre ++ m :: post) = parseMT4Report (pre ++ [m]).
Proof.
  intros Hc Hm. unfold parseMT4Report.
  rewrite !scanRows_stops by assumption. split; reflexivity.
Qed.

(** The amended C6 on a report with an open-trades section. *)
Lemma rows_after_end_marker_ignored_witness :
  parseMT4Report ([["Closed Transactions:"]; sampleRow "1" "50.00"]
                    ++ ["Open Trades:"] :: [sampleRow "2" "7.00"])
  = parseMT4Report [["Closed Transactions:"]; sampleRow "1" "50.00"] /\
  parseMT4Report ([["Closed Transactions:"]; sampleRow "1" "50.00"]
                    ++ ["Open Trades:"] :: [sampleRow "2" "7.00"])
  = parseMT4Report ([["Closed Transactions:"]; sampleRow "1" "50.00"] ++ [["Open Trades:"]]).
Proof.
  apply (rows_after_end_marker_ignored
           [["Closed Transactions:"]; sampleRow "1" "50.00"] [sampleRow "2" "7.00"] ["Open Trades:"]).
  - reflexivity.
  - left. reflexivity.
Defined.

(** C6, as stated, fails: the first cell of the first row contains
    "Open Trades:" (and "Closed Transactions:" too, which is tested first),
    and the row after it still gives a trade. *)
Lemma row_after_open_trades_marker_kept :
  endMarker ["Open Trades: none; Closed Transactions:"] /\
  parseMT4Report [["Open Trades: none; Closed Transactions:"]] = [] /\
  List.length (parseMT4Report
    [["Open Trades: none; Closed Transactions:"]; sampleRow "2" "7.00"]) = 1%nat /\
  map ticket (parseMT4Report
    [["Open Trades: none; Closed Transactions:"]; sampleRow "2" "7.00"]) = ["2"].
Proof.
  split; [left; reflexivity|]. repeat split; vm_compute; reflexivity.
Qed.

Section ParserRows.

Lemma scanRows_continues (pre rows : list Row) : forall b acc,
  Forall (fun r => closedMarker r \/ ~ endMarker r) pre ->
  scanRows b acc (pre ++ rows)
  = scanRows (b || existsb (fun r => firstCellIncludes r "Closed Transactions:") pre)
             (scanRows b acc pre) rows.
Proof.
  induction pre as [|cells pre IH]; intros b acc Hpre; simpl.
  - now rewrite orb_false_r.
  - inversion Hpre as [|? ? Hc Hrest]; subst.
    destruct (firstCellIncludes cells "Closed Transactions:") eqn:Ec; simpl.
    + rewrite IH by assumption. now rewrite orb_true_r.
    + destruct Hc as [Hc | Hc]; [unfold closedMarker in Hc; congruence|].
      destruct (firstCellIncludes cells "Open Trades:") eqn:Eo;
        [exfalso; apply Hc; now left|].
      destruct (firstCellIncludes cells "Working Orders:") eqn:Ew;
        [exfalso; apply Hc; now right|].
      simpl.
      destruct (b && (Z.of_nat (List.length cells) =? 14)).
      * destruct (rowToTrade cells); now rewrite IH.
      * now rewrite IH.
Qed.

Lemma scanRows_candidate (cells : Row) (trade : Trade) (rest : list Row) (acc : list Trade) :
  candidateRow cells ->
  rowToTrade cells = Some trade ->
  scanRows true acc (cells :: rest) = (acc ++ trade :: scanRows true [] rest)%list.
Proof.
  intros (Hlen & Hc & He) Ht. simpl.
  destruct (firstCellIncludes cells "Closed Transactions:") eqn:Ec;
    [exfalso; now apply Hc|].
  destruct (firstCellIncludes cells "Open Trades:") eqn:Eo;
    [exfalso; apply He; now left|].
  destruct (firstCellIncludes cells "Working Orders:") eqn:Ew;
    [exfalso; apply He; now right|].
  simpl. rewrite Hlen, Ht. simpl.
  rewrite scanRows_acc, <- app_assoc. reflexivity.
Qed.

Lemma rowToTrade_fields (cells : Row) (trade : Trade) :
  rowToTrade cells = Some trade ->
  size trade = numericCell cells 3 /\
  openPrice trade = numericCell cells 5 /\
  closePrice trade = numericCell cells 9 /\
  profit trade = numericCell cells 13.
Proof.
  unfold rowToTrade, numericCell.
  destruct (String.eqb _ "buy"); [|destruct (String.eqb _ "sell"); [|discriminate]];
    cbn [item];
    (destruct (isEmpty (orElse (toLowerCase (trim (cellText cells 4))) "")); [discriminate|]);
    intros [= <-]; cbn [size openPrice closePrice profit];
    repeat split;
    match goal with
    | |- context [trim (cellText cells ?i)] => destruct (trim (cellText cells i)); reflexivity
    end.
Qed.

End ParserRows.

(** C5, as stated, fails: the profit cell "n/a" does not parse as a number,
    the row is kept, and its profit is NaN, not 0. *)
Lemma unparsed_profit_is_NaN :
  parseFloat (trim "n/a") = NaN /\
  map profit (parseMT4Report [["Closed Transactions:"]; sampleRow "1" "n/a"]) = [NaN] /\
  NaN <> zero.
Proof.
  split; [reflexivity|]. split; [vm_compute; reflexivity | discriminate].
Qed.

(** ** The timestamp pattern *)

Section TimestampPattern.

Lemma matchAtoms_sound (p : list atom) : forall s m,
  matchAtoms p s = Some m ->
  exists post, s = m ++ post /\
               Forall2 (fun a c => atomMatches a c = true) p (list_ascii_of_string m).
Proof.
  induction p as [|a p IH]; intros s m H; simpl in H.
  - injection H as <-. exists s. split; [reflexivity | constructor].
  - destruct s as [|c s]; [discriminate|].
    destruct (atomMatches a c) eqn:Ea; [|discriminate].
    destruct (matchAtoms p s) as [m'|] eqn:Em; [|discriminate].
    injection H as <-. destruct (IH _ _ Em) as (post & -> & HF).
    exists post. split; [reflexivity | now constructor].
Qed.

Lemma matchAtoms_complete (p : list atom) : forall m post,
  Forall2 (fun a c => atomMatches a c = true) p (list_ascii_of_string m) ->
  matchAtoms p (m ++ post) = Some m.
Proof.
  induction p as [|a p IH]; intros m post H.
  - destruct m; [reflexivity | inversion H].
  - destruct m as [|c m]; [inversion H|].
    simpl in H. inversion H as [|? ? ? ? Hc Hrest]; subst.
    simpl. rewrite Hc, (IH m post Hrest). reflexivity.
Qed.

Lemma wellFormed_iff (s : string) :
  wellFormedTimestamp s <-> matchAtoms datePattern s = Some s.
Proof.
  split.
  - intros H. pose proof (matchAtoms_complete datePattern s "" H) as M.
    assert (E : s ++ "" = s) by (clear; induction s; simpl; congruence).
    now rewrite E in M.
  - intros H. destruct (matchAtoms_sound _ _ _ H) as (_ & _ & HF). exact HF.
Qed.

Lemma regexMatch_sound (s : string) : forall m,
  regexMatch s = Some m ->
  exists pre post, s = pre ++ m ++ post /\ wellFormedTimestamp m.
Proof.
  induction s as [|c s IH]; intros m H.
  - simpl in H. discriminate.
  - cbn [regexMatch] in H.
    destruct (matchAtoms datePattern (String c s)) as [m'|] eqn:Em.
    + injection H as <-. destruct (matchAtoms_sound _ _ _ Em) as (post & E & HF).
      exists "", post. split; [exact E | exact HF].
    + destruct (IH _ H) as (pre & post & -> & HF).
      exists (String c pre), post. split; [reflexivity | exact HF].
Qed.

Lemma regexMatch_complete (pre m post : string) :
  wellFormedTimestamp m -> regexMatch (pre ++ m ++ post) <> None.
Proof.
  intros HF. induction pre as [|c pre IH].
  - change ("" ++ m ++ post) with (m ++ post).
    assert (E := matchAtoms_complete datePattern m post HF).
    destruct m as [|c m]; [inversion HF|].
    cbn [append regexMatch] in *. rewrite E. discriminate.
  - change (String c pre ++ m ++ post) with (String c (pre ++ m ++ post)).
    cbn [regexMatch].
    destruct (matchAtoms datePattern (String c (pre ++ m ++ post))); [discriminate | exact IH].
Qed.

Lemma regexMatch_None_iff (s : string) :
  regexMatch s = None <-> ~ containsTimestamp s.
Proof.
  split.
  - intros H (pre & m & post & -> & HF). now apply (regexMatch_complete pre m post).
  - intros H. destruct (regexMatch s) as [m|] eqn:E; [|reflexivity].
    exfalso. apply H. destruct (regexMatch_sound _ _ E) as (pre & post & Es & HF).
    now exists pre, m, post.
Qed.

Lemma regexMatch_wellFormed (s : string) :
  wellFormedTimestamp s -> regexMatch s = Some s.
Proof.
  intros H. apply wellFormed_iff in H as E.
  destruct s as [|c s]; [inversion H|].
  cbn [regexMatch]. now rewrite E.
Qed.

End TimestampPattern.

(** C1, as amended.  For every input string in which no substring matches
    the pattern, [parseMT4DateToUTC] raises no error: it returns a date whose
    time value is the current reading of the wall clock. *)
Theorem malformed_timestamp_reads_clock (cfg : Offsets) (now : Z) (dateStr : string) :
  ~ containsTimestamp dateStr ->
  parseMT4DateToUTC cfg now dateStr = Some now.
Proof.
  intros H. apply regexMatch_None_iff in H.
  unfold parseMT4DateToUTC. now rewrite H.
Qed.

(** The amended C1 on a date in another format. *)
Lemma malformed_timestamp_reads_clock_witness :
  parseMT4DateToUTC constants 1700000000000 "10/01/2024 10:00" = Some 1700000000000.
Proof.
  apply (malformed_timestamp_reads_clock constants 1700000000000 "10/01/2024 10:00").
  apply regexMatch_None_iff. reflexivity.
Defined.

(** C1, as stated, fails: a string that does not match the anchored pattern
    gives no error but the clock's reading, whatever it is; and a string
    that only contains a match is parsed from the match. *)
Lemma malformed_timestamp_no_error :
  (wellFormedTimestamp "10/01/2024 10:00" -> False) /\
  parseMT4DateToUTC constants 1700000000000 "10/01/2024 10:00" = Some 1700000000000 /\
  parseMT4DateToUTC constants 1800000000000 "10/01/2024 10:00" = Some 1800000000000 /\
  (wellFormedTimestamp "at 2024.01.10 10:00:00 sharp" -> False) /\
  parseMT4DateToUTC constants 1700000000000 "at 2024.01.10 10:00:00 sharp"
  = parseMT4DateToUTC constants 1700000000000 "2024.01.10 10:00:00".
Proof.
  split; [intros H; apply wellFormed_iff in H; discriminate|].
  split; [reflexivity|]. split; [reflexivity|].
  split; [intros H; apply wellFormed_iff in H; discriminate|].
  vm_compute. reflexivity.
Qed.

(** ** Calendar arithmetic *)

Section Calendar.

Lemma DayFromYear_succ (y : Z) : DayFromYear (y + 1) = DayFromYear y + DaysInYear y.
Proof.
  unfold DayFromYear, DaysInYear.
  destruct (Z.eqb_spec (y mod 4) 0), (Z.eqb_spec (y mod 100) 0), (Z.eqb_spec (y mod 400) 0);
    cbn [negb]; Z.div_mod_to_equations; lia.
Qed.

(** [YearFromTime t] is the year of ECMAScript: the largest [y] whose first
    day is not after [t]. *)
Lemma YearFromTime_spec (t : Z) :
  DayFromYear (YearFromTime t) <= Day t < DayFromYear (YearFromTime t + 1).
Proof.
  unfold YearFromTime. set (d := Day t). set (y := 1970 + 400 * d / 146097).
  assert (Hlo : DayFromYear (y - 1) <= d).
  { unfold DayFromYear, y. Z.div_mod_to_equations. lia. }
  assert (Hhi : d < DayFromYear (y + 2)).
  { unfold DayFromYear, y. Z.div_mod_to_equations. lia. }
  destruct (Z.leb_spec (DayFromYear (y + 1)) d).
  - replace (y + 1 + 1) with (y + 2) by lia. lia.
  - destruct (Z.ltb_spec d (DayFromYear y)).
    + replace (y - 1 + 1) with y by lia. lia.
    + lia.
Qed.

Lemma DayWithinYear_range (t : Z) :
  0 <= DayWithinYear t < DaysInYear (YearFromTime t).
Proof.
  unfold DayWithinYear. pose proof (YearFromTime_spec t) as H.
  rewrite DayFromYear_succ in H. lia.
Qed.

Lemma MonthFromTime_range (t : Z) : 0 <= MonthFromTime t <= 11.
Proof.
  unfold MonthFromTime.
  repeat match goal with |- context [if ?b then _ else _] => destruct b end; lia.
Qed.

(** Reading a time value into year, month and date and back gives its day. *)
Lemma MakeDay_fields (t : Z) :
  MakeDay (YearFromTime t) (MonthFromTime t) (DateFromTime t) = Day t.
Proof.
  pose proof (MonthFromTime_range t) as Hm.
  unfold MakeDay, DateFromTime, DayWithinYear, InLeapYear.
  rewrite (Z.div_small (MonthFromTime t) 12), (Z.mod_small (MonthFromTime t) 12) by lia.
  rewrite Z.add_0_r. ring.
Qed.

Lemma time_fields (t : Z) :
  MakeDate (Day t) (MakeTime (HourFromTime t) (MinFromTime t) (SecFromTime t) (msFromTime t)) = t.
Proof.
  unfold MakeDate, MakeTime, Day, HourFromTime, MinFromTime, SecFromTime, msFromTime,
    msPerDay, msPerHour, msPerMinute, msPerSecond.
  Z.div_mod_to_equations. lia.
Qed.

Lemma minutes_of_fields (t : Z) :
  Day t * 1440 + HourFromTime t * 60 + MinFromTime t = t / msPerMinute.
Proof.
  unfold Day, HourFromTime, MinFromTime, msPerDay, msPerHour, msPerMinute.
  Z.div_mod_to_equations. lia.
Qed.

(** Setting the hours to the current hours plus [k] moves the time value
    by [k] hours. *)
Lemma setUTCHours_shift (t k : Z) :
  setUTCHours (Some t) (addInt (getUTCHours (Some t)) k) = TimeClip (t + k * msPerHour).
Proof.
  cbn [setUTCHours addInt getUTCHours option_map]. f_equal.
  pose proof (time_fields t) as E.
  unfold MakeDate, MakeTime, msPerDay, msPerHour, msPerMinute, msPerSecond in *. lia.
Qed.

Lemma TimeClip_in_range (t : Z) :
  Z.abs t <= 8640000000000000 -> TimeClip t = Some t.
Proof.
  intros H. unfold TimeClip. destruct (Z.leb_spec (Z.abs t) 8640000000000000); [reflexivity | lia].
Qed.

End Calendar.

(** ** The time reconciler *)

Section Reconciler.

Lemma digitValue_range (c : ascii) : isDigit c = true -> 0 <= digitValue c <= 9.
Proof.
  unfold isDigit, digitValue. intros H. apply andb_true_iff in H as [H1 H2]. lia.
Qed.

Lemma digitsPrefix_bound (s : string) : forall acc n,
  0 <= acc ->
  0 <= fst (fst (digitsPrefix acc n s)) < (acc + 1) * 10 ^ Z.of_nat (length s).
Proof.
  induction s as [|c s IH]; intros acc n Hacc.
  - simpl. lia.
  - cbn [digitsPrefix]. change (length (String c s)) with (S (length s)).
    rewrite Nat2Z.inj_succ, Z.pow_succ_r by lia.
    assert (Hp : 0 < 10 ^ Z.of_nat (length s)) by (apply Z.pow_pos_nonneg; lia).
    destruct (isDigit c) eqn:Ed.
    + pose proof (digitValue_range c Ed) as Hd.
      specialize (IH (10 * acc + digitValue c) (n + 1) ltac:(lia)).
      set (P := 10 ^ Z.of_nat (length s)) in *. nia.
    + cbn [fst]. set (P := 10 ^ Z.of_nat (length s)) in *. nia.
Qed.

Lemma substring_length (s : string) : forall n m, (length (substring n m s) <= m)%nat.
Proof.
  induction s as [|c s IH]; intros [|n] [|m]; simpl; try lia.
  - specialize (IH 0%nat m). lia.
  - apply IH.
  - apply IH.
Qed.

Lemma digitsToNumber_bound (s : string) (n m : nat) :
  0 <= digitsToNumber (substring n m s) < 10 ^ Z.of_nat m.
Proof.
  unfold digitsToNumber.
  pose proof (digitsPrefix_bound (substring n m s) 0 0 ltac:(lia)) as H.
  pose proof (substring_length s n m) as Hl.
  assert (10 ^ Z.of_nat (length (substring n m s)) <= 10 ^ Z.of_nat m)
    by (apply Z.pow_le_mono_r; lia).
  lia.
Qed.

Lemma monthStart_range (m leap : Z) : 0 <= leap <= 1 -> 0 <= monthStart m leap <= 335.
Proof.
  intros H. unfold monthStart.
  repeat match goal with |- context [if ?b then _ else _] => destruct b end; lia.
Qed.

Lemma fieldsTime_bound (parts : string) : Z.abs (fieldsTime parts) <= 300000000000000.
Proof.
  unfold fieldsTime.
  pose proof (digitsToNumber_bound parts 0 4) as Hy.
  pose proof (digitsToNumber_bound parts 5 2) as Hm.
  pose proof (digitsToNumber_bound parts 8 2) as Hd.
  pose proof (digitsToNumber_bound parts 11 2) as Hh.
  pose proof (digitsToNumber_bound parts 14 2) as Hi.
  pose proof (digitsToNumber_bound parts 17 2) as Hs.
  set (year := digitsToNumber (substring 0 4 parts)) in *.
  set (month := digitsToNumber (substring 5 2 parts)) in *.
  set (day := digitsToNumber (substring 8 2 parts)) in *.
  set (hours := digitsToNumber (substring 11 2 parts)) in *.
  set (minutes := digitsToNumber (substring 14 2 parts)) in *.
  set (seconds := digitsToNumber (substring 17 2 parts)) in *.
  change (10 ^ Z.of_nat 4) with 10000 in Hy.
  change (10 ^ Z.of_nat 2) with 100 in Hm, Hd, Hh, Hi, Hs.
  set (yr := if (0 <=? year) && (year <=? 99) then 1900 + year else year).
  assert (Hyr : 100 <= yr <= 9999).
  { unfold yr. destruct (Z.leb_spec 0 year), (Z.leb_spec year 99); cbn [andb]; lia. }
  unfold MakeDate, MakeDay, MakeTime, msPerDay, msPerHour, msPerMinute, msPerSecond.
  set (ym := yr + (month - 1) / 12).
  assert (Hym : 99 <= ym <= 10007) by (unfold ym; Z.div_mod_to_equations; lia).
  pose proof (monthStart_range ((month - 1) mod 12) (if DaysInYear ym =? 366 then 1 else 0)
                ltac:(destruct (DaysInYear ym =? 366); lia)) as Hms.
  set (ms := monthStart _ _) in *.
  assert (Hdy : -700000 <= DayFromYear ym <= 3000000)
    by (unfold DayFromYear; Z.div_mod_to_equations; lia).
  lia.
Qed.

(** A timestamp found in the string gives its fields, read as UTC, moved
    back by the server offset; the clock is not read. *)
Lemma parse_matched (cfg : Offsets) (now : Z) (dateStr parts : string) :
  regexMatch dateStr = Some parts ->
  Z.abs (MT4_UTC_OFFSET cfg) <= 1000001 ->
  parseMT4DateToUTC cfg now dateStr
  = Some (fieldsTime parts - MT4_UTC_OFFSET cfg * msPerHour).
Proof.
  intros Hm Hoff. unfold parseMT4DateToUTC. rewrite Hm.
  pose proof (fieldsTime_bound parts) as Hb.
  unfold UTC. fold (fieldsTime parts).
  rewrite (TimeClip_in_range (fieldsTime parts)) by lia.
  rewrite setUTCHours_shift. rewrite TimeClip_in_range; [f_equal; lia|].
  unfold msPerHour. lia.
Qed.

(** With a server offset in range the date of a trade is never invalid. *)
Lemma parse_defined (cfg : Offsets) (now : Z) (trade : Trade) :
  Z.abs (MT4_UTC_OFFSET cfg) <= 1000001 ->
  parseMT4DateToUTC cfg now (openTimeRaw trade) = Some (openInstant cfg now trade).
Proof.
  intros Hoff. unfold openInstant.
  destruct (regexMatch (openTimeRaw trade)) as [parts|] eqn:Em.
  - now rewrite (parse_matched cfg now _ parts Em Hoff).
  - unfold parseMT4DateToUTC. now rewrite Em.
Qed.

Lemma convert_minutes (cfg : Offsets) (t : Z) :
  Z.abs (t + (TV_UTC_OFFSET cfg + TV_TIMESTAMP_CORRECTION_HOURS cfg) * msPerHour)
    <= 8640000000000000 ->
  displayMinutes (convertToPineScriptTimestamp cfg (Some t))
  = Some ((t + (TV_UTC_OFFSET cfg + TV_TIMESTAMP_CORRECTION_HOURS cfg) * msPerHour)
          / msPerMinute).
Proof.
  intros Hb. cbv beta zeta delta [convertToPineScriptTimestamp getTime].
  rewrite setUTCHours_shift, TimeClip_in_range by exact Hb.
  set (T := t + _) in *.
  unfold displayMinutes.
  cbn [year month day hours minutes getUTCFullYear getUTCMonth getUTCDate getUTCHours
       getUTCMinutes option_map addInt].
  replace (MonthFromTime T + 1 - 1) with (MonthFromTime T) by lia.
  rewrite MakeDay_fields, minutes_of_fields. reflexivity.
Qed.

(** The display minute of a well-formed timestamp, in closed form. *)
Lemma display_minutes (cfg : Offsets) (now : Z) (dateStr : string) :
  Z.abs (MT4_UTC_OFFSET cfg) <= 1000001 ->
  Z.abs (TV_UTC_OFFSET cfg + TV_TIMESTAMP_CORRECTION_HOURS cfg) <= 2000001 ->
  wellFormedTimestamp dateStr ->
  displayMinutes (display cfg now dateStr)
  = Some (fieldsTime dateStr / msPerMinute
          - 60 * MT4_UTC_OFFSET cfg
          + 60 * (TV_UTC_OFFSET cfg + TV_TIMESTAMP_CORRECTION_HOURS cfg)).
Proof.
  intros H1 H2 Hw. unfold display.
  rewrite (parse_matched cfg now dateStr dateStr (regexMatch_wellFormed _ Hw) H1).
  pose proof (fieldsTime_bound dateStr) as Hb.
  rewrite convert_minutes by (unfold msPerHour; lia).
  f_equal. unfold msPerHour, msPerMinute. Z.div_mod_to_equations. lia.
Qed.

End Reconciler.

(** C4.  For a well-formed timestamp string the display timestamp does not
    depend on the clock, and it is linear in the offsets: one more hour of
    server offset moves it one hour (60 minutes) earlier, one more hour of
    target offset one hour later. *)
Theorem display_offset_linear (cfg : Offsets) (now : Z) (dateStr : string) :
  offsetsInRange cfg ->
  wellFormedTimestamp dateStr ->
  exists m,
    displayMinutes (display cfg now dateStr) = Some m /\
    displayMinutes (display (shiftServer cfg 1) now dateStr) = Some (m - 60) /\
    displayMinutes (display (shiftTarget cfg 1) now dateStr) = Some (m + 60) /\
    forall now', display cfg now' dateStr = display cfg now dateStr.
Proof.
  intros (H1 & H2 & H3) Hw.
  eexists. split; [apply display_minutes; [lia | lia | exact Hw]|].
  split; [|split].
  - rewrite display_minutes by (cbn [shiftServer MT4_UTC_OFFSET TV_UTC_OFFSET
                                       TV_TIMESTAMP_CORRECTION_HOURS]; solve [lia | exact Hw]).
    cbn [shiftServer MT4_UTC_OFFSET TV_UTC_OFFSET TV_TIMESTAMP_CORRECTION_HOURS].
    f_equal. lia.
  - rewrite display_minutes by (cbn [shiftTarget MT4_UTC_OFFSET TV_UTC_OFFSET
                                       TV_TIMESTAMP_CORRECTION_HOURS]; solve [lia | exact Hw]).
    cbn [shiftTarget MT4_UTC_OFFSET TV_UTC_OFFSET TV_TIMESTAMP_CORRECTION_HOURS].
    f_equal. lia.
  - intros now'. unfold display.
    rewrite !(parse_matched cfg _ dateStr dateStr (regexMatch_wellFormed _ Hw)) by lia.
    reflexivity.
Qed.

(** C4 at the offsets of the repository. *)
Lemma display_offset_linear_witness :
  exists m,
    displayMinutes (display constants 0 "2024.01.10 10:00:00") = Some m /\
    displayMinutes (display (shiftServer constants 1) 0 "2024.01.10 10:00:00") = Some (m - 60) /\
    displayMinutes (display (shiftTarget constants 1) 0 "2024.01.10 10:00:00") = Some (m + 60) /\
    forall now', display constants now' "2024.01.10 10:00:00"
                 = display constants 0 "2024.01.10 10:00:00".
Proof.
  apply (display_offset_linear constants 0 "2024.01.10 10:00:00").
  - unfold offsetsInRange. simpl. lia.
  - apply wellFormed_iff. reflexivity.
Defined.

(** ** The order of numbers *)

Section NumberOrder.

Lemma SFcompare_rank (x y : number) :
  isNaN x = false -> isNaN y = false ->
  SFcompare x y =
  Some (match fst (fst (rank x)) ?= fst (fst (rank y)) with
        | Eq => match snd (fst (rank x)) ?= snd (fst (rank y)) with
                | Eq => snd (rank x) ?= snd (rank y)
                | c => c
                end
        | c => c
        end).
Proof.
  destruct x as [[|]|[|]| |[|] mx ex], y as [[|]|[|]| |[|] my ey];
    try discriminate; intros _ _; try reflexivity;
    cbn [SFcompare rank fst snd Z.compare]; cbn [Pos.compare CompOpp].
  simpl (CompOpp (1 ?= 1)%positive).
  rewrite Z.compare_opp, (Z.compare_antisym ex ey).
  destruct (ex ?= ey); reflexivity.
Qed.

Lemma lt_iff (x y : number) :
  lt x y = true <-> isNaN x = false /\ isNaN y = false /\ lexLt (rank x) (rank y).
Proof.
  unfold lt, SFltb, lexLt.
  destruct (isNaN x) eqn:Ex; [destruct x; try discriminate; simpl; intuition discriminate|].
  destruct (isNaN y) eqn:Ey;
    [destruct y; try discriminate; destruct x; simpl; intuition discriminate|].
  rewrite (SFcompare_rank x y Ex Ey).
  destruct (rank x) as [[a b] c], (rank y) as [[a' b'] c']. cbn [fst snd].
  destruct (Z.compare_spec a a') as [Ha|Ha|Ha], (Z.compare_spec b b') as [Hb|Hb|Hb],
    (Z.compare_spec c c') as [Hc|Hc|Hc];
    (split; [intros E; first [discriminate E | split; [reflexivity | split; [reflexivity | lia]]]
            | intros (_ & _ & E); try reflexivity; exfalso; lia]).
Qed.

Lemma le_iff (x y : number) :
  le x y = true <-> isNaN x = false /\ isNaN y = false /\ lexLe (rank x) (rank y).
Proof.
  unfold le, SFleb, lexLe, lexLt.
  destruct (isNaN x) eqn:Ex; [destruct x; try discriminate; simpl; intuition discriminate|].
  destruct (isNaN y) eqn:Ey;
    [destruct y; try discriminate; destruct x; simpl; intuition discriminate|].
  rewrite (SFcompare_rank x y Ex Ey).
  destruct (rank x) as [[a b] c], (rank y) as [[a' b'] c']. cbn [fst snd].
  destruct (Z.compare_spec a a') as [Ha|Ha|Ha], (Z.compare_spec b b') as [Hb|Hb|Hb],
    (Z.compare_spec c c') as [Hc|Hc|Hc];
    (split; [intros E; first [discriminate E | split; [reflexivity | split; [reflexivity | lia]]]
            | intros (_ & _ & E); try reflexivity; exfalso; lia]).
Qed.

Lemma rank_neg (x : number) :
  rank (neg x) = (- fst (fst (rank x)), - snd (fst (rank x)), - snd (rank x)).
Proof. destruct x as [[|]|[|]| |[|] m e]; cbn; try reflexivity. now rewrite Z.opp_involutive. Qed.

Lemma isNaN_neg (x : number) : isNaN (neg x) = isNaN x.
Proof. destruct x; reflexivity. Qed.

Lemma numEq_iff (x y : number) :
  numEq x y = true <->
  isNaN x = false /\ isNaN y = false /\
  fst (fst (rank x)) = fst (fst (rank y)) /\ snd (fst (rank x)) = snd (fst (rank y)) /\
  snd (rank x) = snd (rank y).
Proof.
  unfold numEq, SFeqb.
  destruct (isNaN x) eqn:Ex; [destruct x; try discriminate; simpl; intuition discriminate|].
  destruct (isNaN y) eqn:Ey;
    [destruct y; try discriminate; destruct x; simpl; intuition discriminate|].
  rewrite (SFcompare_rank x y Ex Ey).
  destruct (rank x) as [[a b] c], (rank y) as [[a' b'] c']. cbn [fst snd].
  destruct (Z.compare_spec a a') as [Ha|Ha|Ha], (Z.compare_spec b b') as [Hb|Hb|Hb],
    (Z.compare_spec c c') as [Hc|Hc|Hc];
    (split; [intros E; first [discriminate E | split; [reflexivity | split; [reflexivity | lia]]]
            | intros (_ & _ & E); try reflexivity; exfalso; lia]).
Qed.

End NumberOrder.

(** Comparisons of numbers as inequalities between ranks, for [lia]. *)
Ltac number_order :=
  unfold nonNegative, gt, ge in *;
  repeat match goal with
  | H : lt _ _ = true |- _ => apply lt_iff in H; destruct H as (? & ? & H)
  | H : le _ _ = true |- _ => apply le_iff in H; destruct H as (? & ? & H)
  | H : numEq _ _ = true |- _ => apply numEq_iff in H; destruct H as (? & ? & H)
  | H : SFltb ?x ?y = true |- _ => change (lt x y = true) in H
  | H : SFleb ?x ?y = true |- _ => change (le x y = true) in H
  end;
  rewrite ?isNaN_neg, ?rank_neg in *;
  unfold lexLe, lexLt in *; cbn [fst snd rank zero isNaN] in *.

Section NumberFacts.

Lemma not_lt_le (x y : number) :
  isNaN x = false -> isNaN y = false -> lt y x = false -> le x y = true.
Proof.
  intros Hx Hy H. apply le_iff. split; [exact Hx | split; [exact Hy|]].
  destruct (lt y x) eqn:E; [discriminate|].
  assert (N : ~ lexLt (rank y) (rank x)).
  { intros L. assert (lt y x = true) by (apply lt_iff; auto). congruence. }
  unfold lexLe, lexLt in *. lia.
Qed.

Lemma le_not_lt (x y : number) : le x y = true -> lt y x = false.
Proof.
  intros H. destruct (lt y x) eqn:E; [|reflexivity]. exfalso. number_order. lia.
Qed.

Lemma lt_not_le (x y : number) : lt x y = true -> le y x = false.
Proof.
  intros H. destruct (le y x) eqn:E; [|reflexivity]. exfalso. number_order. lia.
Qed.

Lemma lt_trans (x y z : number) : lt x y = true -> lt y z = true -> lt x z = true.
Proof.
  intros H1 H2. apply lt_iff. number_order. repeat split; try assumption. lia.
Qed.

Lemma le_lt_trans (x y z : number) : le x y = true -> lt y z = true -> lt x z = true.
Proof.
  intros H1 H2. apply lt_iff. number_order. repeat split; try assumption. lia.
Qed.

Lemma lt_le (x y : number) : lt x y = true -> le x y = true.
Proof.
  intros H. apply le_iff. number_order. repeat split; try assumption. lia.
Qed.

Lemma le_refl (x : number) : isNaN x = false -> le x x = true.
Proof.
  intros H. apply le_iff. unfold lexLe. repeat split; try assumption. lia.
Qed.

Lemma gt_not_NaN (x y : number) : gt x y = true -> isNaN x = false.
Proof. intros H. unfold gt in H. number_order. assumption. Qed.

(** Above the tolerance is not within the band, and below the band is
    neither, for a tolerance that is not negative. *)
Lemma band_excludes_gt (tol p : number) :
  le p tol = true -> gt p tol = false.
Proof. intros H. unfold gt. now apply le_not_lt. Qed.

Lemma below_band (tol p : number) :
  nonNegative tol -> lt p (neg tol) = true ->
  gt p tol = false /\ ge p (neg tol) = false.
Proof.
  intros Ht H. split.
  - destruct (gt p tol) eqn:E; [|reflexivity]. exfalso. number_order. lia.
  - unfold ge. now apply lt_not_le.
Qed.

Lemma equal_in_band (tol p : number) :
  nonNegative tol -> numEq p tol = true ->
  ge p (neg tol) = true /\ le p tol = true.
Proof.
  intros Ht H. split.
  - apply le_iff. number_order. repeat split; try assumption. lia.
  - apply le_iff. number_order. repeat split; try assumption. lia.
Qed.

End NumberFacts.

(** ** The stable sort *)

Section SortByKey.
Context {A : Type}.
Variable comparefn : A -> A -> option Z.
Variable key : A -> Z.

(** The comparator is the difference of a key, as [a.getTime() - b.getTime()]. *)
Hypothesis comparefn_key : forall a b, comparefn a b = Some (key a - key b).

Lemma sortsAfter_key (x y : A) : JSArray.sortsAfter comparefn x y = (key y <? key x).
Proof.
  unfold JSArray.sortsAfter. rewrite comparefn_key.
  destruct (Z.ltb_spec 0 (key x - key y)), (Z.ltb_spec (key y) (key x)); try reflexivity; lia.
Qed.

Lemma insert_perm (x : A) (l : list A) : Permutation (JSArray.insert comparefn x l) (x :: l).
Proof.
  induction l as [|y l IH]; simpl; [reflexivity|].
  destruct (JSArray.sortsAfter comparefn x y); [|reflexivity].
  rewrite IH. apply perm_swap.
Qed.

Lemma sort_perm (l : list A) : Permutation (JSArray.sort comparefn l) l.
Proof.
  induction l as [|x l IH]; simpl; [reflexivity|].
  rewrite insert_perm. now constructor.
Qed.

Lemma insert_head (x : A) (l : list A) :
  Forall (fun z => key x <= key z) l -> JSArray.insert comparefn x l = x :: l.
Proof.
  destruct 1 as [|y l Hy _]; simpl; [reflexivity|].
  rewrite sortsAfter_key. destruct (Z.ltb_spec (key y) (key x)); [lia | reflexivity].
Qed.

Lemma insert_sorted (x : A) (l : list A) :
  ascendingBy key l -> ascendingBy key (JSArray.insert comparefn x l).
Proof.
  unfold ascendingBy. induction 1 as [|y l Hs IH Hy]; simpl.
  - constructor; constructor.
  - rewrite sortsAfter_key. destruct (Z.ltb_spec (key y) (key x)) as [Hlt | Hge].
    + constructor; [exact IH|].
      apply Forall_forall. intros z Hz.
      apply (Permutation_in _ (insert_perm x l)) in Hz. destruct Hz as [<- | Hz].
      * lia.
      * rewrite Forall_forall in Hy. now apply Hy.
    + constructor; [now constructor|].
      constructor; [exact Hge|].
      apply Forall_forall. intros z Hz. rewrite Forall_forall in Hy.
      specialize (Hy z Hz). lia.
Qed.

Lemma sort_sorted (l : list A) : ascendingBy key (JSArray.sort comparefn l).
Proof.
  induction l as [|x l IH]; simpl; [constructor | now apply insert_sorted].
Qed.

Lemma filter_sorted (p : A -> bool) (l : list A) :
  ascendingBy key l -> ascendingBy key (filter p l).
Proof.
  unfold ascendingBy. induction 1 as [|y l Hs IH Hy]; simpl; [constructor|].
  destruct (p y); [|exact IH].
  constructor; [exact IH|].
  apply Forall_forall. intros z Hz. apply filter_In in Hz as [Hz _].
  rewrite Forall_forall in Hy. now apply Hy.
Qed.

Lemma filter_insert (p : A -> bool) (x : A) (l : list A) :
  ascendingBy key l ->
  filter p (JSArray.insert comparefn x l)
  = if p x then JSArray.insert comparefn x (filter p l) else filter p l.
Proof.
  unfold ascendingBy. induction 1 as [|y l Hs IH Hy]; simpl.
  - destruct (p x); reflexivity.
  - rewrite sortsAfter_key. destruct (Z.ltb_spec (key y) (key x)) as [Hlt | Hge]; simpl.
    + rewrite IH. destruct (p y) eqn:Ey, (p x) eqn:Ex; simpl; try reflexivity.
      rewrite sortsAfter_key. destruct (Z.ltb_spec (key y) (key x)); [reflexivity | lia].
    + destruct (p x) eqn:Ex; [|reflexivity].
      symmetry. apply insert_head.
      apply Forall_forall. intros z Hz.
      assert (Hin : In z (y :: l)).
      { change (In z (filter p (y :: l))) in Hz. now apply filter_In in Hz as [Hz _]. }
      destruct Hin as [<- | Hin]; [lia|].
      rewrite Forall_forall in Hy. specialize (Hy z Hin). lia.
Qed.

(** Sorting commutes with taking a sublist by a test: the trades that pass
    the test come out in the order the sort gives them among themselves. *)
Lemma filter_sort (p : A -> bool) (l : list A) :
  filter p (JSArray.sort comparefn l) = JSArray.sort comparefn (filter p l).
Proof.
  induction l as [|x l IH]; simpl; [reflexivity|].
  rewrite filter_insert by apply sort_sorted.
  rewrite IH. destruct (p x); reflexivity.
Qed.

Lemma sort_ascending (l : list A) : ascendingBy key l -> JSArray.sort comparefn l = l.
Proof.
  unfold ascendingBy. induction 1 as [|y l Hs IH Hy]; simpl; [reflexivity|].
  rewrite IH. now apply insert_head.
Qed.

(** Stability: the elements with one key keep the order of the input. *)
Lemma sort_stable (T : Z) (l : list A) :
  filter (fun a => key a =? T) (JSArray.sort comparefn l) = filter (fun a => key a =? T) l.
Proof.
  rewrite filter_sort. apply sort_ascending.
  unfold ascendingBy. induction l as [|x l IH]; simpl; [constructor|].
  destruct (Z.eqb_spec (key x) T) as [E | E]; [|exact IH].
  constructor; [exact IH|].
  apply Forall_forall. intros z Hz. apply filter_In in Hz as [_ Hz].
  apply Z.eqb_eq in Hz. lia.
Qed.

End SortByKey.

(** ** The insertion-ordered map *)

Section OrderedMapFacts.
Context {V : Type}.
Implicit Types (m : OrderedMap.t V) (k : string) (v : V).

Lemma get_set_same k v m : OrderedMap.get k (OrderedMap.set k v m) = Some v.
Proof.
  induction m as [|[k' v'] m IH]; simpl.
  - now rewrite String.eqb_refl.
  - destruct (String.eqb_spec k k'); simpl.
    + now rewrite String.eqb_refl.
    + destruct (String.eqb_spec k k'); [contradiction | exact IH].
Qed.

Lemma get_set_other k k0 v m :
  k0 <> k -> OrderedMap.get k0 (OrderedMap.set k v m) = OrderedMap.get k0 m.
Proof.
  intros Hne. induction m as [|[k' v'] m IH]; simpl.
  - destruct (String.eqb_spec k0 k); [contradiction | reflexivity].
  - destruct (String.eqb_spec k k'); simpl.
    + subst k'. destruct (String.eqb_spec k0 k); [contradiction | reflexivity].
    + now rewrite IH.
Qed.

Lemma keys_set k v m :
  OrderedMap.keys (OrderedMap.set k v m)
  = match OrderedMap.get k m with
    | Some _ => OrderedMap.keys m
    | None => (OrderedMap.keys m ++ [k])%list
    end.
Proof.
  induction m as [|[k' v'] m IH]; simpl; [reflexivity|].
  destruct (String.eqb_spec k k'); simpl; [now subst|].
  rewrite IH. now destruct (OrderedMap.get k m).
Qed.

Lemma get_None_keys k m : OrderedMap.get k m = None <-> ~ In k (OrderedMap.keys m).
Proof.
  induction m as [|[k' v'] m IH]; simpl; [tauto|].
  destruct (String.eqb_spec k k'); [subst; split; [discriminate | tauto]|].
  rewrite IH. split; [intros H [E | E]; [congruence | tauto] | tauto].
Qed.

Lemma NoDup_keys_set k v m :
  NoDup (OrderedMap.keys m) -> NoDup (OrderedMap.keys (OrderedMap.set k v m)).
Proof.
  intros H. rewrite keys_set. destruct (OrderedMap.get k m) eqn:E; [exact H|].
  apply get_None_keys in E.
  apply (Permutation_NoDup (l := k :: OrderedMap.keys m)).
  - apply Permutation_cons_append.
  - now constructor.
Qed.

Lemma In_get k v m :
  NoDup (OrderedMap.keys m) -> In (k, v) m -> OrderedMap.get k m = Some v.
Proof.
  induction m as [|[k' v'] m IH]; simpl; [tauto|].
  intros Hnd [E | Hin].
  - injection E as -> ->. now rewrite String.eqb_refl.
  - inversion Hnd as [|? ? Hk Hnd']; subst.
    destruct (String.eqb_spec k k'); [|now apply IH].
    subst k'. exfalso. apply Hk. change (In (fst (k, v)) (map fst m)). now apply in_map.
Qed.

Lemma get_In k v m : OrderedMap.get k m = Some v -> In (k, v) m.
Proof.
  induction m as [|[k' v'] m IH]; simpl; [discriminate|].
  destruct (String.eqb_spec k k'); [intros [= ->]; subst; now left | intros H; right; now apply IH].
Qed.

End OrderedMapFacts.

(** ** The bucketing loop *)

Section Buckets.
Variable tol : number.

Lemma bucket_snoc (test : Trade -> bool) (i : string) (l : list Trade) (t : Trade) :
  bucket test i (l ++ [t]) = (bucket test i l ++ if hasItem i t && test t then [t] else [])%list.
Proof.
  unfold bucket. rewrite filter_app. simpl. now destruct (hasItem i t && test t).
Qed.

Lemma bucket_absent (test : Trade -> bool) (i : string) (l : list Trade) :
  existsb (hasItem i) l = false -> bucket test i l = [].
Proof.
  unfold bucket. induction l as [|t l IH]; simpl; [reflexivity|].
  intros H. apply orb_false_iff in H as [Ht Hl]. rewrite Ht. simpl. now apply IH.
Qed.

Lemma bucketsOf_snoc_other (i : string) (l : list Trade) (t : Trade) :
  hasItem i t = false -> bucketsOf tol i (l ++ [t]) = bucketsOf tol i l.
Proof.
  intros H. unfold bucketsOf. rewrite !bucket_snoc, H. simpl. now rewrite !app_nil_r.
Qed.

(** What one turn of the loop adds to the group of the trade's item. *)
Lemma bucketsOf_snoc_same (l : list Trade) (t : Trade) :
  bucketsOf tol (item t) (l ++ [t])
  = if gt (profit t) tol then
      {| winners := (winners (bucketsOf tol (item t) l) ++ [t])%list;
         breakeven := breakeven (bucketsOf tol (item t) l);
         losers := losers (bucketsOf tol (item t) l) |}
    else if ge (profit t) (neg tol) && le (profit t) tol then
      {| winners := winners (bucketsOf tol (item t) l);
         breakeven := (breakeven (bucketsOf tol (item t) l) ++ [t])%list;
         losers := losers (bucketsOf tol (item t) l) |}
    else
      {| winners := winners (bucketsOf tol (item t) l);
         breakeven := breakeven (bucketsOf tol (item t) l);
         losers := (losers (bucketsOf tol (item t) l) ++ [t])%list |}.
Proof.
  unfold bucketsOf. rewrite !bucket_snoc. cbn [winners breakeven losers].
  replace (hasItem (item t) t) with true by (unfold hasItem; now rewrite String.eqb_refl).
  cbn [andb].
  unfold isWinner, isBreakeven, isLoser.
  destruct (gt (profit t) tol); cbn [negb andb]; [now rewrite !app_nil_r|].
  destruct (ge (profit t) (neg tol) && le (profit t) tol); cbn [negb];
    now rewrite !app_nil_r.
Qed.

Lemma bucketTrade_bucketed (m : GroupedTrades) (l : list Trade) (t : Trade) :
  bucketed tol m l -> bucketed tol (bucketTrade tol m t) (l ++ [t]).
Proof.
  intros Hm i. unfold bucketTrade.
  set (m' := match OrderedMap.get (item t) m with
             | None => OrderedMap.set (item t) emptyGroup m
             | Some _ => m
             end).
  assert (Hg : OrderedMap.get (item t) m' = Some (bucketsOf tol (item t) l)).
  { unfold m'. rewrite (Hm (item t)).
    destruct (existsb (hasItem (item t)) l) eqn:E; [now rewrite (Hm (item t)), E|].
    rewrite get_set_same. unfold bucketsOf. now rewrite !bucket_absent. }
  assert (Ho : forall j, j <> item t -> OrderedMap.get j m' = OrderedMap.get j m).
  { intros j Hj. unfold m'. destruct (OrderedMap.get (item t) m); [reflexivity|].
    now apply get_set_other. }
  rewrite Hg. rewrite existsb_app. cbn [existsb]. rewrite orb_false_r.
  destruct (String.eqb_spec (item t) i) as [<- | Hne].
  - replace (hasItem (item t) t) with true by (unfold hasItem; now rewrite String.eqb_refl).
    rewrite orb_true_r, bucketsOf_snoc_same.
    destruct (gt (profit t) tol); [now rewrite get_set_same|].
    destruct (ge (profit t) (neg tol) && le (profit t) tol); now rewrite get_set_same.
  - assert (Hi : hasItem i t = false) by (unfold hasItem; now apply String.eqb_neq).
    rewrite Hi, orb_false_r, bucketsOf_snoc_other by exact Hi.
    rewrite <- (Hm i), <- (Ho i) by congruence.
    destruct (gt (profit t) tol); [apply get_set_other; congruence|].
    destruct (ge (profit t) (neg tol) && le (profit t) tol); apply get_set_other; congruence.
Qed.

Lemma bucketTrade_NoDup (m : GroupedTrades) (t : Trade) :
  NoDup (OrderedMap.keys m) -> NoDup (OrderedMap.keys (bucketTrade tol m t)).
Proof.
  intros H. unfold bucketTrade.
  set (m' := match OrderedMap.get (item t) m with
             | None => OrderedMap.set (item t) emptyGroup m
             | Some _ => m
             end).
  assert (H' : NoDup (OrderedMap.keys m')).
  { unfold m'. destruct (OrderedMap.get (item t) m); [exact H | now apply NoDup_keys_set]. }
  destruct (gt (profit t) tol); [now apply NoDup_keys_set|].
  destruct (ge (profit t) (neg tol) && le (profit t) tol); now apply NoDup_keys_set.
Qed.

Lemma fold_bucketed (l : list Trade) : forall (m : GroupedTrades) (done : list Trade),
  bucketed tol m done /\ NoDup (OrderedMap.keys m) ->
  bucketed tol (fold_left (bucketTrade tol) l m) (done ++ l) /\
  NoDup (OrderedMap.keys (fold_left (bucketTrade tol) l m)).
Proof.
  induction l as [|t l IH]; intros m done [Hm Hnd]; simpl.
  - now rewrite app_nil_r.
  - replace (done ++ t :: l)%list with ((done ++ [t]) ++ l)%list by now rewrite <- app_assoc.
    apply IH. split; [now apply bucketTrade_bucketed | now apply bucketTrade_NoDup].
Qed.

Lemma bucketTrades_bucketed (l : list Trade) :
  bucketed tol (bucketTrades tol l) l /\ NoDup (OrderedMap.keys (bucketTrades tol l)).
Proof.
  apply (fold_bucketed l [] []). split; [intros i; reflexivity | constructor].
Qed.

(** Every entry of the mapping is the group of its item. *)
Lemma bucketTrades_entries (l : list Trade) :
  Forall (fun e => snd e = bucketsOf tol (fst e) l) (bucketTrades tol l).
Proof.
  destruct (bucketTrades_bucketed l) as [Hb Hnd].
  apply Forall_forall. intros [i g] Hin. cbn [fst snd].
  apply (In_get _ _ _ Hnd) in Hin. rewrite (Hb i) in Hin.
  destruct (existsb (hasItem i) l); congruence.
Qed.

End Buckets.

(** ** The key of the deduplication map *)

Section DedupKey.

Lemma allChars_app (P : ascii -> bool) (a b : string) :
  allChars P (a ++ b) = allChars P a && allChars P b.
Proof.
  induction a as [|c a IH]; simpl; [reflexivity|]. now rewrite IH, andb_assoc.
Qed.

Lemma allChars_substring (P : ascii -> bool) (s : string) : forall n m,
  allChars P s = true -> allChars P (substring n m s) = true.
Proof.
  induction s as [|c s IH]; intros [|n] [|m] H; simpl in *; try reflexivity;
    apply andb_true_iff in H as [Hc Hs].
  - rewrite Hc. simpl. now apply IH.
  - now apply IH.
  - now apply IH.
Qed.

Lemma allChars_zeros (n : nat) : allChars noUnderscore (zeros n) = true.
Proof. induction n as [|n IH]; simpl; [reflexivity | exact IH]. Qed.

Lemma allChars_uint (d : Decimal.uint) :
  allChars noUnderscore (NilEmpty.string_of_uint d) = true.
Proof. induction d; simpl; try reflexivity; exact IHd. Qed.

Lemma allChars_ofNat (n : Z) : allChars noUnderscore (ofNat n) = true.
Proof. apply allChars_uint. Qed.

Lemma shortestDigits_chars (m : positive) (e : Z) :
  allChars noUnderscore (fst (shortestDigits m e)) = true.
Proof.
  unfold shortestDigits.
  destruct (shortestFrom _ _ _ _ _) as [s p]. destruct (stripZeros _ _ _) as [s' p'].
  apply allChars_ofNat.
Qed.

(** No rendering of a number holds the separator of the key. *)
Lemma toString_chars (x : number) : allChars noUnderscore (toString x) = true.
Proof.
  destruct x as [s|[|]| |sg m e]; try reflexivity.
  unfold toString. pose proof (shortestDigits_chars m e) as Hd.
  destruct (shortestDigits m e) as [ds n]. cbn [fst] in Hd.
  assert (Hsub : forall i j, allChars noUnderscore (substring i j ds) = true)
    by (intros; now apply allChars_substring).
  unfold substring_from.
  destruct sg;
    repeat match goal with
           | |- context [if ?b then _ else _] => destruct b
           end;
    rewrite ?allChars_app, ?Hd, ?Hsub, ?allChars_zeros, ?allChars_ofNat; reflexivity.
Qed.

Lemma key_split (a b r r' : string) :
  allChars noUnderscore r = true -> allChars noUnderscore r' = true ->
  a ++ "_" ++ r = b ++ "_" ++ r' -> a = b /\ r = r'.
Proof.
  intros Hr Hr'. revert b. induction a as [|c a IH]; intros [|c' b] E; simpl in E.
  - injection E as E. now split.
  - injection E as Ec E. subst r.
    rewrite allChars_app in Hr. simpl in Hr. now rewrite andb_false_r in Hr.
  - injection E as Ec E. subst r'.
    rewrite allChars_app in Hr'. simpl in Hr'. now rewrite andb_false_r in Hr'.
  - injection E as Ec E. destruct (IH b E) as [-> ->]. now subst.
Qed.

(** The key of the map is the pair of the open-time string and the rendered
    open price. *)
Lemma winnerKey_sameKey (t u : Trade) : winnerKey t = winnerKey u <-> sameKey t u.
Proof.
  unfold winnerKey, sameKey. split.
  - intros E. apply key_split in E; [exact E | apply toString_chars | apply toString_chars].
  - intros [-> ->]. reflexivity.
Qed.

End DedupKey.

(** ** The deduplication loop *)

Section Dedup.

Lemma firstBest_In (u : Trade) (l : list Trade) : firstBest u l -> In u l.
Proof. intros (before & after & -> & _). apply in_elt. Qed.

(** A later trade that does not beat [u] leaves [u] the first best. *)
Lemma firstBest_snoc (u w : Trade) (l : list Trade) :
  firstBest u l ->
  (sameKey w u -> le (profit w) (profit u) = true) ->
  firstBest u (l ++ [w]).
Proof.
  intros (before & after & -> & Hb & Ha) Hw.
  exists before, (after ++ [w])%list. split; [now rewrite <- app_assoc|].
  split; [exact Hb|]. intros x Hx Hk. apply in_app_or in Hx as [Hx | [<- | []]]; auto.
Qed.

(** A trade that beats the first best of its key becomes the first best. *)
Lemma firstBest_beaten (e w : Trade) (l : list Trade) :
  firstBest e l -> sameKey w e -> gt (profit w) (profit e) = true ->
  firstBest w (l ++ [w]).
Proof.
  intros (before & after & -> & Hb & Ha) Hk Hgt.
  exists (before ++ e :: after)%list, []. split; [reflexivity|].
  split; [|intros x []].
  assert (Hke : forall x, sameKey x w -> sameKey x e).
  { intros x Hx. apply winnerKey_sameKey. apply winnerKey_sameKey in Hx, Hk. congruence. }
  intros x Hx Hxw. apply in_app_or in Hx as [Hx | [<- | Hx]].
  - apply (lt_trans _ (profit e)); [now apply Hb; auto | exact Hgt].
  - exact Hgt.
  - apply (le_lt_trans _ (profit e)); [now apply Ha; auto | exact Hgt].
Qed.

Lemma keepBest_deduped (m : OrderedMap.t Trade) (done : list Trade) (w : Trade) :
  deduped m done ->
  Forall (fun x => isNaN (profit x) = false) (done ++ [w]) ->
  deduped (keepBest m w) (done ++ [w]).
Proof.
  intros (Hnd & Hall & Hent) Hnan.
  assert (Hw : isNaN (profit w) = false).
  { rewrite Forall_forall in Hnan. apply Hnan, in_or_app. right. now left. }
  assert (Hother : forall k u, k <> winnerKey w -> OrderedMap.get k m = Some u ->
                               winnerKey u = k /\ firstBest u (done ++ [w])).
  { intros k u Hk Hg. destruct (Hent k u Hg) as [Hu Hf]. split; [exact Hu|].
    apply firstBest_snoc; [exact Hf|]. intros Hs. apply winnerKey_sameKey in Hs. congruence. }
  assert (Hset : forall best,
             (winnerKey best = winnerKey w /\ firstBest best (done ++ [w])) ->
             deduped (OrderedMap.set (winnerKey w) best m) (done ++ [w])).
  { intros best Hbest. split; [now apply NoDup_keys_set|]. split.
    - intros x Hx. destruct (string_dec (winnerKey x) (winnerKey w)) as [E | E].
      + rewrite E, get_set_same. discriminate.
      + rewrite get_set_other by exact E.
        apply in_app_or in Hx as [Hx | [<- | []]]; [now apply Hall | congruence].
    - intros k u Hg. destruct (string_dec k (winnerKey w)) as [-> | E].
      + rewrite get_set_same in Hg. injection Hg as <-. exact Hbest.
      + rewrite get_set_other in Hg by exact E. now apply Hother. }
  unfold keepBest. destruct (OrderedMap.get (winnerKey w) m) as [e|] eqn:Eg.
  - destruct (Hent _ _ Eg) as [Hke Hfe].
    assert (Hse : sameKey w e) by (now apply winnerKey_sameKey).
    destruct (gt (profit w) (profit e)) eqn:Egt.
    + apply Hset. split; [reflexivity|].
      now apply (firstBest_beaten e).
    + split; [exact Hnd|]. split.
      * intros x Hx. apply in_app_or in Hx as [Hx | [<- | []]]; [now apply Hall|].
        rewrite Eg. discriminate.
      * intros k u Hg. destruct (string_dec k (winnerKey w)) as [-> | E]; [|now apply Hother].
        rewrite Eg in Hg. injection Hg as <-. split; [exact Hke|].
        apply firstBest_snoc; [exact Hfe|]. intros _.
        apply not_lt_le; [exact Hw | | exact Egt].
        rewrite Forall_forall in Hnan. apply Hnan, in_or_app. left. now apply firstBest_In.
  - apply Hset. split; [reflexivity|].
    exists done, []. split; [reflexivity|]. split; [|intros x []].
    intros x Hx Hs. exfalso. apply (Hall x Hx).
    apply winnerKey_sameKey in Hs. now rewrite Hs.
Qed.

Lemma fold_keepBest_deduped (l : list Trade) : forall m done,
  deduped m done ->
  Forall (fun x => isNaN (profit x) = false) (done ++ l) ->
  deduped (fold_left keepBest l m) (done ++ l).
Proof.
  induction l as [|w l IH]; intros m done Hm Hnan; simpl.
  - now rewrite app_nil_r.
  - replace (done ++ w :: l)%list with ((done ++ [w]) ++ l)%list in * by now rewrite <- app_assoc.
    apply IH; [|exact Hnan]. apply keepBest_deduped; [exact Hm|].
    apply Forall_app in Hnan as [Hnan _]. exact Hnan.
Qed.

Lemma values_keys (m : OrderedMap.t Trade) :
  (forall k u, OrderedMap.get k m = Some u -> winnerKey u = k) ->
  NoDup (OrderedMap.keys m) ->
  map winnerKey (OrderedMap.values m) = OrderedMap.keys m.
Proof.
  intros H Hnd. unfold OrderedMap.values, OrderedMap.keys. rewrite map_map.
  apply map_ext_in. intros [k u] Hin. cbn [fst snd]. apply H. now apply In_get.
Qed.

Section Survivors.
Variable cfg : Offsets.
Variable now : Z.
Variable W : list Trade.
Hypothesis W_profits : Forall (fun x => isNaN (profit x) = false) W.

Lemma dedup_map : deduped (fold_left keepBest W []) W.
Proof.
  apply (fold_keepBest_deduped W [] []); [|exact W_profits].
  split; [constructor|]. split; [intros x []|]. intros k u Hg. discriminate.
Qed.

Lemma dedupWinners_perm :
  Permutation (dedupWinners cfg now W) (OrderedMap.values (fold_left keepBest W [])).
Proof. apply sort_perm. Qed.

(** Every survivor is the first best of its key among the winners. *)
Lemma survivor_firstBest (u : Trade) : In u (dedupWinners cfg now W) -> firstBest u W.
Proof.
  intros Hu. apply (Permutation_in _ dedupWinners_perm) in Hu.
  destruct dedup_map as (Hnd & _ & Hent).
  unfold OrderedMap.values in Hu. apply in_map_iff in Hu as ([k u'] & <- & Hin).
  cbn [snd]. apply (In_get _ _ _ Hnd) in Hin. now apply (Hent k).
Qed.

(** Every key of the winners has a survivor. *)
Lemma key_survives (w : Trade) :
  In w W -> exists u, In u (dedupWinners cfg now W) /\ sameKey u w.
Proof.
  intros Hw. destruct dedup_map as (Hnd & Hall & Hent).
  destruct (OrderedMap.get (winnerKey w) (fold_left keepBest W [])) as [u|] eqn:Eg;
    [|now apply Hall in Hw].
  exists u. split.
  - apply (Permutation_in _ (Permutation_sym dedupWinners_perm)).
    unfold OrderedMap.values. apply in_map_iff. exists (winnerKey w, u).
    split; [reflexivity | now apply get_In].
  - apply winnerKey_sameKey. now apply (Hent _ _ Eg).
Qed.

(** No two survivors share a key. *)
Lemma survivors_distinct : NoDup (map winnerKey (dedupWinners cfg now W)).
Proof.
  destruct dedup_map as (Hnd & _ & Hent).
  apply (Permutation_NoDup (l := OrderedMap.keys (fold_left keepBest W []))); [|exact Hnd].
  rewrite <- values_keys; [|intros k u Hg; now apply (Hent k u) | exact Hnd].
  apply Permutation_map, Permutation_sym, dedupWinners_perm.
Qed.

End Survivors.

End Dedup.

(** ** The classifier *)

Section Classifier.
Variable cfg : Offsets.
Variable now : Z.
Variable tol : number.

Lemma get_dedupGroups (i : string) (m : GroupedTrades) :
  OrderedMap.get i (dedupGroups cfg now m)
  = option_map (fun g => {| winners := dedupWinners cfg now (winners g);
                            breakeven := breakeven g;
                            losers := losers g |}) (OrderedMap.get i m).
Proof.
  induction m as [|[k g] m IH]; simpl; [reflexivity|].
  destruct (String.eqb i k); [reflexivity | exact IH].
Qed.

(** The returned mapping: a group for each item of the input, no other. *)
Lemma classify_get (allTrades : list Trade) (i : string) :
  OrderedMap.get i (snd (classifyAndGroupTrades cfg now tol allTrades))
  = if existsb (hasItem i) (sortedTrades cfg now allTrades)
    then Some (groupOf cfg now tol i allTrades) else None.
Proof.
  unfold classifyAndGroupTrades. cbn [snd]. rewrite get_dedupGroups.
  fold (sortedTrades cfg now allTrades).
  destruct (bucketTrades_bucketed tol (sortedTrades cfg now allTrades)) as [Hb _].
  rewrite (Hb i). now destruct (existsb (hasItem i) (sortedTrades cfg now allTrades)).
Qed.

Lemma classify_entries (allTrades : list Trade) :
  Forall (fun e => snd e = groupOf cfg now tol (fst e) allTrades)
         (snd (classifyAndGroupTrades cfg now tol allTrades)).
Proof.
  unfold classifyAndGroupTrades. cbn [snd]. fold (sortedTrades cfg now allTrades).
  unfold dedupGroups. apply Forall_map.
  pose proof (bucketTrades_entries tol (sortedTrades cfg now allTrades)) as H.
  eapply Forall_impl; [|exact H]. intros [i g] E. cbn [fst snd] in *. now subst g.
Qed.

Lemma sortedTrades_perm (allTrades : list Trade) :
  Permutation (sortedTrades cfg now allTrades) allTrades.
Proof. apply sort_perm. Qed.

Lemma winners_not_NaN (i : string) (l : list Trade) :
  Forall (fun x => isNaN (profit x) = false) (bucket (isWinner tol) i l).
Proof.
  apply Forall_forall. intros x Hx. apply filter_In in Hx as [_ Hx].
  apply andb_true_iff in Hx as [_ Hx]. now apply (gt_not_NaN _ tol).
Qed.

Lemma bucket_In (test : Trade -> bool) (i : string) (l : list Trade) (t : Trade) :
  In t (bucket test i l) <-> In t l /\ item t = i /\ test t = true.
Proof.
  unfold bucket. rewrite filter_In, andb_true_iff. unfold hasItem.
  now rewrite String.eqb_eq.
Qed.

Lemma filter_perm {A : Type} (p : A -> bool) (l l' : list A) :
  Permutation l l' -> Permutation (filter p l) (filter p l').
Proof.
  induction 1 as [|x l l' _ IH|x y l|l l' l'' _ IH1 _ IH2]; simpl.
  - constructor.
  - destruct (p x); [now constructor | exact IH].
  - destruct (p x), (p y); try reflexivity. apply perm_swap.
  - now transitivity (filter p l').
Qed.

(** The three lists of a group hold the trades of the item, each once. *)
Lemma buckets_partition (i : string) (l : list Trade) :
  Permutation (bucket (isWinner tol) i l ++ bucket (isBreakeven tol) i l
               ++ bucket (isLoser tol) i l)
              (filter (hasItem i) l).
Proof.
  unfold bucket, isWinner, isBreakeven, isLoser.
  induction l as [|t l IH]; simpl; [constructor|].
  destruct (hasItem i t); cbn [andb]; [|exact IH].
  destruct (gt (profit t) tol); cbn [negb andb].
  - now constructor.
  - destruct (ge (profit t) (neg tol) && le (profit t) tol); cbn [negb].
    + rewrite <- app_comm_cons, <- Permutation_middle. now constructor.
    + rewrite app_assoc, <- Permutation_middle, <- app_assoc. now constructor.
Qed.

End Classifier.

(** After the bucketing loop every trade of the input is in exactly one of
    the three lists of the group of its item, by its profit alone; the
    returned group keeps the breakeven and losers lists, and its winners
    are among the bucketed winners. *)
Lemma trade_bucketed (cfg : Offsets) (now : Z) (tol : number)
    (allTrades : list Trade) (trade : Trade) :
  nonNegative tol ->
  In trade allTrades ->
  exists g g',
    OrderedMap.get (item trade) (bucketTrades tol (sortedTrades cfg now allTrades)) = Some g /\
    (gt (profit trade) tol = true ->
     In trade (winners g) /\ ~ In trade (breakeven g) /\ ~ In trade (losers g)) /\
    (ge (profit trade) (neg tol) = true -> le (profit trade) tol = true ->
     ~ In trade (winners g) /\ In trade (breakeven g) /\ ~ In trade (losers g)) /\
    (lt (profit trade) (neg tol) = true ->
     ~ In trade (winners g) /\ ~ In trade (breakeven g) /\ In trade (losers g)) /\
    (numEq (profit trade) tol = true -> In trade (breakeven g) /\ ~ In trade (winners g)) /\
    inOneBucket trade g /\
    Permutation (winners g ++ breakeven g ++ losers g)
                (filter (hasItem (item trade)) allTrades) /\
    OrderedMap.get (item trade) (snd (classifyAndGroupTrades cfg now tol allTrades)) = Some g' /\
    incl (winners g') (winners g) /\ breakeven g' = breakeven g /\ losers g' = losers g.
Proof.
  intros Htol Hin.
  set (S := sortedTrades cfg now allTrades).
  assert (HinS : In trade S)
    by (apply (Permutation_in _ (Permutation_sym (sortedTrades_perm cfg now allTrades))), Hin).
  assert (Hex : existsb (hasItem (item trade)) S = true).
  { apply existsb_exists. exists trade. split; [exact HinS|].
    unfold hasItem. apply String.eqb_refl. }
  exists (bucketsOf tol (item trade) S), (groupOf cfg now tol (item trade) allTrades).
  assert (Hmem : forall test, In trade (bucket test (item trade) S) <-> test trade = true).
  { intros test. rewrite bucket_In. tauto. }
  assert (Hcases : forall w b,
             isWinner tol trade = w -> isBreakeven tol trade = b ->
             isLoser tol trade = negb w && negb b ->
             (w = true <-> In trade (winners (bucketsOf tol (item trade) S))) /\
             (b = true <-> In trade (breakeven (bucketsOf tol (item trade) S))) /\
             (negb w && negb b = true <-> In trade (losers (bucketsOf tol (item trade) S)))).
  { intros w b Hw Hb Hl. cbn [bucketsOf winners breakeven losers].
    rewrite !Hmem, Hw, Hb, Hl. tauto. }
  assert (Hloser : isLoser tol trade = negb (isWinner tol trade) && negb (isBreakeven tol trade)).
  { unfold isLoser, isBreakeven, isWinner. destruct (gt (profit trade) tol); [reflexivity|].
    now destruct (ge (profit trade) (neg tol) && le (profit trade) tol). }
  assert (Hexcl : isWinner tol trade = true -> isBreakeven tol trade = false).
  { unfold isBreakeven, isWinner. now intros ->. }
  destruct (Hcases _ _ eq_refl eq_refl Hloser) as (Hw & Hb & Hl).
  split.
  { destruct (bucketTrades_bucketed tol S) as [Hbk _]. now rewrite (Hbk (item trade)), Hex. }
  split.
  { intros Hgt. change (isWinner tol trade = true) in Hgt.
    rewrite <- Hw, <- Hb, <- Hl, Hgt, (Hexcl Hgt). cbn. intuition discriminate. }
  split.
  { intros Hge Hle. assert (Hg : isWinner tol trade = false) by now apply band_excludes_gt.
    assert (He : isBreakeven tol trade = true).
    { unfold isBreakeven. fold (isWinner tol trade). now rewrite Hg, Hge, Hle. }
    rewrite <- Hw, <- Hb, <- Hl, Hg, He. cbn. intuition discriminate. }
  split.
  { intros Hlt. destruct (below_band tol _ Htol Hlt) as [Hg Hge].
    change (isWinner tol trade = false) in Hg.
    assert (He : isBreakeven tol trade = false).
    { unfold isBreakeven. now rewrite Hge, andb_false_r. }
    rewrite <- Hw, <- Hb, <- Hl, Hg, He. cbn. intuition discriminate. }
  split.
  { intros Heq. destruct (equal_in_band tol _ Htol Heq) as [Hge Hle].
    assert (Hg : isWinner tol trade = false) by now apply band_excludes_gt.
    assert (He : isBreakeven tol trade = true).
    { unfold isBreakeven. fold (isWinner tol trade). now rewrite Hg, Hge, Hle. }
    rewrite <- Hw, <- Hb, Hg, He. intuition discriminate. }
  split.
  { unfold inOneBucket. rewrite <- Hw, <- Hb, <- Hl.
    destruct (isWinner tol trade) eqn:Ew; [rewrite (Hexcl eq_refl); cbn; intuition discriminate|].
    destruct (isBreakeven tol trade); cbn; intuition discriminate. }
  split.
  { rewrite (buckets_partition tol (item trade) S).
    apply filter_perm, sortedTrades_perm. }
  split.
  { rewrite classify_get. fold S. now rewrite Hex. }
  split; [|split; reflexivity].
  intros u Hu. cbn [groupOf winners] in Hu. fold S in Hu.
  apply (survivor_firstBest cfg now _ (winners_not_NaN tol _ S)) in Hu.
  now apply firstBest_In.
Qed.

(** In every group of the returned mapping the winners list has, for each
    key of a bucketed winner of the item, exactly one trade, a bucketed
    winner with that key and the highest profit of the key; the breakeven
    and losers lists are the bucketed ones, whole. *)
Lemma entries_deduplicated (cfg : Offsets) (now : Z) (tol : number) (allTrades : list Trade) :
  Forall (fun e : string * Group =>
            let W := bucket (isWinner tol) (fst e) (sortedTrades cfg now allTrades) in
            (forall w, In w W -> exists u, In u (winners (snd e)) /\ sameKey u w) /\
            ForallOrdPairs (fun u u' => ~ sameKey u u') (winners (snd e)) /\
            (forall u, In u (winners (snd e)) ->
                       In u W /\
                       forall x, In x W -> sameKey x u -> le (profit x) (profit u) = true) /\
            breakeven (snd e) = bucket (isBreakeven tol) (fst e) (sortedTrades cfg now allTrades) /\
            losers (snd e) = bucket (isLoser tol) (fst e) (sortedTrades cfg now allTrades))
         (snd (classifyAndGroupTrades cfg now tol allTrades)).
Proof.
  eapply Forall_impl; [|apply classify_entries].
  intros [i g] E. cbn [fst snd] in *. subst g. cbn zeta.
  set (W := bucket (isWinner tol) i (sortedTrades cfg now allTrades)).
  pose proof (winners_not_NaN tol i (sortedTrades cfg now allTrades)) as Hnan. fold W in Hnan.
  cbn [groupOf winners breakeven losers]. fold W.
  split; [intros w Hw; now apply key_survives|].
  split.
  { pose proof (survivors_distinct cfg now W Hnan) as Hnd.
    induction (dedupWinners cfg now W) as [|u l IH]; [constructor|].
    cbn [map] in Hnd. inversion Hnd as [|? ? Hu Hl]; subst.
    constructor; [|now apply IH].
    apply Forall_forall. intros u' Hu' Hs. apply Hu.
    apply winnerKey_sameKey in Hs. rewrite Hs. now apply in_map. }
  split; [|split; reflexivity].
  intros u Hu. apply (survivor_firstBest cfg now W Hnan) in Hu.
  split; [now apply firstBest_In|].
  destruct Hu as (before & after & E & Hb & Ha).
  intros x Hx Hs. rewrite E in Hx. apply in_app_or in Hx as [Hx | [<- | Hx]].
  - now apply lt_le, Hb.
  - apply le_refl. rewrite Forall_forall in Hnan. apply Hnan. rewrite E. apply in_elt.
  - now apply Ha.
Qed.

(** In every group of the returned mapping a surviving winner is the first
    best of the bucketed winners of its key. *)
Lemma entries_firstBest (cfg : Offsets) (now : Z) (tol : number) (allTrades : list Trade) :
  Forall (fun e : string * Group =>
            forall u, In u (winners (snd e)) ->
                      firstBest u (bucket (isWinner tol) (fst e) (sortedTrades cfg now allTrades)))
         (snd (classifyAndGroupTrades cfg now tol allTrades)).
Proof.
  eapply Forall_impl; [|apply classify_entries].
  intros [i g] E. cbn [fst snd] in *. subst g.
  intros u Hu. cbn [groupOf winners] in Hu.
  now apply (survivor_firstBest cfg now _ (winners_not_NaN tol i _)) in Hu.
Qed.

(** C9 fails on the code: the call sorts its argument in place.  After the
    call on two trades given in the order late, early, the input array holds
    them in the order early, late. *)
Theorem classify_reorders_argument :
  fst (classifyAndGroupTrades constants 0 zero [tradeLate; tradeEarly]) = [tradeEarly; tradeLate] /\
  [tradeEarly; tradeLate] <> [tradeLate; tradeEarly].
Proof.
  split; [vm_compute; reflexivity | discriminate].
Qed.

(** The argument is left holding the same trades, sorted. *)
Lemma classify_argument (cfg : Offsets) (now : Z) (tol : number) (allTrades : list Trade) :
  fst (classifyAndGroupTrades cfg now tol allTrades) = sortedTrades cfg now allTrades /\
  Permutation (fst (classifyAndGroupTrades cfg now tol allTrades)) allTrades.
Proof.
  split; [reflexivity | apply sortedTrades_perm].
Qed.

(** ** The order of the groups *)

Section GroupOrder.
Variable now : Z.

Lemma byOpenTime_key (a b : Trade) :
  byOpenTime constants now a b = Some (openInstant constants now a - openInstant constants now b).
Proof.
  unfold byOpenTime, getTime.
  rewrite !parse_defined by (cbn; lia). reflexivity.
Qed.

Lemma sortedTrades_ascending (l : list Trade) :
  ascending constants now (sortedTrades constants now l).
Proof. apply (sort_sorted _ _ byOpenTime_key). Qed.

Lemma filter_swap {A : Type} (p q : A -> bool) (l : list A) :
  filter p (filter q l) = filter q (filter p l).
Proof.
  induction l as [|x l IH]; simpl; [reflexivity|].
  destruct (p x) eqn:Ep, (q x) eqn:Eq; simpl; rewrite ?Ep, ?Eq, IH; reflexivity.
Qed.

(** A list taken from the sorted array by a test is ascending, and holds the
    trades of one instant in the order of the input. *)
Lemma bucket_order (test : Trade -> bool) (i : string) (l : list Trade) :
  ascending constants now (bucket test i (sortedTrades constants now l)) /\
  keepsInputOrder constants now (bucket test i l) (bucket test i (sortedTrades constants now l)).
Proof.
  split.
  - apply filter_sorted, sortedTrades_ascending.
  - intros T. unfold bucket.
    rewrite (filter_swap _ _ (sortedTrades constants now l)), (filter_swap _ _ l).
    f_equal. apply (sort_stable _ _ byOpenTime_key).
Qed.

Lemma set_new {V : Type} (k : string) (v : V) (m : OrderedMap.t V) :
  OrderedMap.get k m = None -> OrderedMap.set k v m = (m ++ [(k, v)])%list.
Proof.
  induction m as [|[k' v'] m IH]; simpl; [reflexivity|].
  destruct (String.eqb k k'); [discriminate | intros H; now rewrite IH].
Qed.

(** Winners with pairwise distinct keys all enter the map, in their order. *)
Lemma fold_keepBest_distinct (l : list Trade) : forall m : OrderedMap.t Trade,
  NoDup (OrderedMap.keys m ++ map winnerKey l) ->
  fold_left keepBest l m = (m ++ map keyed l)%list.
Proof.
  induction l as [|w l IH]; intros m Hnd; simpl; [now rewrite app_nil_r|].
  assert (Hg : OrderedMap.get (winnerKey w) m = None).
  { apply get_None_keys. intros Hin. apply NoDup_remove_2 in Hnd.
    apply Hnd, in_or_app. now left. }
  unfold keepBest at 2. rewrite Hg, (set_new _ _ _ Hg), IH.
  - now rewrite <- app_assoc.
  - unfold OrderedMap.keys in *. rewrite map_app, <- app_assoc. exact Hnd.
Qed.

Lemma dedupWinners_distinct (W : list Trade) :
  NoDup (map winnerKey W) -> ascending constants now W ->
  dedupWinners constants now W = W.
Proof.
  intros Hnd Hasc. unfold dedupWinners.
  rewrite (fold_keepBest_distinct W []) by exact Hnd.
  unfold OrderedMap.values. change ([] ++ map keyed W)%list with (map keyed W).
  rewrite map_map. cbn [keyed snd]. rewrite map_id.
  now apply (sort_ascending _ _ byOpenTime_key).
Qed.

End GroupOrder.

(** In every group of the returned mapping the three lists are in ascending
    order of the open instant; the breakeven and losers lists keep trades
    with equal open instants in their input order, and so does the winners
    list when no two bucketed winners of the item share a key. *)
Lemma entries_ascending (now : Z) (tol : number) (allTrades : list Trade) :
  Forall (fun e : string * Group =>
            ascending constants now (winners (snd e)) /\
            ascending constants now (breakeven (snd e)) /\
            ascending constants now (losers (snd e)) /\
            keepsInputOrder constants now
              (bucket (isBreakeven tol) (fst e) allTrades) (breakeven (snd e)) /\
            keepsInputOrder constants now
              (bucket (isLoser tol) (fst e) allTrades) (losers (snd e)) /\
            (NoDup (map winnerKey (bucket (isWinner tol) (fst e) allTrades)) ->
             keepsInputOrder constants now
               (bucket (isWinner tol) (fst e) allTrades) (winners (snd e))))
         (snd (classifyAndGroupTrades constants now tol allTrades)).
Proof.
  eapply Forall_impl; [|apply classify_entries].
  intros [i g] E. cbn [fst snd] in *. subst g. cbn [groupOf winners breakeven losers].
  split; [apply (sort_sorted _ _ (byOpenTime_key now))|].
  split; [apply bucket_order|]. split; [apply bucket_order|].
  split; [apply bucket_order|]. split; [apply bucket_order|].
  intros Hnd.
  rewrite dedupWinners_distinct; [apply bucket_order | | apply bucket_order].
  apply (Permutation_NoDup (l := map winnerKey (bucket (isWinner tol) i allTrades)));
    [|exact Hnd].
  apply Permutation_map, filter_perm, Permutation_sym, sortedTrades_perm.
Qed.

(** ** The script generator *)

Section Script.













End Script.

(** ** The scenarios of the specification, run on the embedding *)

Section Scenarios.

(** The built-in renderings on a few numbers. *)
Example toString_samples :
  map (fun s => toString (parseFloat s))
      ["1.1000"; "50.00"; "0.1"; "1e21"; "1e-7"; "-0"; "abc"; "123456789012345680000"]
  = ["1.1"; "50"; "0.1"; "1e+21"; "1e-7"; "0"; "NaN"; "123456789012345680000"].
Proof. vm_compute. reflexivity. Qed.

Example toFixed2_samples :
  map (fun s => toFixed2 (parseFloat s)) ["50.00"; "1.005"; "-12.345"; "0.005"; "-0"; "1e21"]
  = ["50.00"; "1.00"; "-12.35"; "0.01"; "0.00"; "1e+21"].
Proof. vm_compute. reflexivity. Qed.

(** Server time 10:00 at UTC+3 is 07:00 UTC, shown at 03:00. *)
Example reconcile_sample :
  parseMT4DateToUTC constants 0 "2024.01.10 10:00:00" = Some 1704870000000 /\
  display constants 0 "2024.01.10 10:00:00"
  = {| year := Some 2024; month := Some 1; day := Some 10; hours := Some 3; minutes := Some 0 |}.
Proof. split; vm_compute; reflexivity. Qed.

(** Round trip: one closed buy becomes the only winner of its item. *)
Example round_trip :
  snd (classifyAndGroupTrades constants 0 zero
         (parseMT4Report [["Closed Transactions:"]; sampleRow "100001" "50.00"]))
  = [("eurusd",
      {| winners := [sampleTrade "100001" "2024.01.10 10:00:00" "1.1000" "50.00"];
         breakeven := []; losers := [] |})].
Proof. vm_compute. reflexivity. Qed.

(** Of two winners with one key and profits 10 and 15 the second survives. *)
Example dedup_keeps_most_profitable :
  dedupWinners constants 0
    [sampleTrade "1" "2024.01.10 10:00:00" "1.1000" "10.0";
     sampleTrade "2" "2024.01.10 10:00:00" "1.1000" "15.0"]
  = [sampleTrade "2" "2024.01.10 10:00:00" "1.1000" "15.0"].
Proof. vm_compute. reflexivity. Qed.

(** Of two winners with one key and one profit the first survives. *)
Example dedup_tie_keeps_first :
  dedupWinners constants 0
    [sampleTrade "1" "2024.01.10 10:00:00" "1.1000" "15.0";
     sampleTrade "2" "2024.01.10 10:00:00" "1.1000" "15.0"]
  = [sampleTrade "1" "2024.01.10 10:00:00" "1.1000" "15.0"].
Proof. vm_compute. reflexivity. Qed.

(** A profit equal to the tolerance is breakeven. *)
Example boundary_is_breakeven :
  snd (classifyAndGroupTrades constants 0 (parseFloat "5.0")
         [sampleTrade "1" "2024.01.10 10:00:00" "1.1000" "5.0"])
  = [("eurusd",
      {| winners := [];
         breakeven := [sampleTrade "1" "2024.01.10 10:00:00" "1.1000" "5.0"];
         losers := [] |})].
Proof. vm_compute. reflexivity. Qed.

(** No "Closed Transactions:" marker: no trade, and an empty mapping. *)
Example no_section_no_trades :
  parseMT4Report [["Summary:"]; sampleRow "1" "50.00"] = [] /\
  snd (classifyAndGroupTrades constants 0 zero []) = [].
Proof. split; vm_compute; reflexivity. Qed.

End Scenarios.

(** * Further properties of the code *)

Import Components PipelineSpec.

(** ** The report parser as a pipeline *)

Section ParserPipeline.

Lemma candidateTrades_closed (cells : Row) (rest : list Row) :
  firstCellIncludes cells "Closed Transactions:" = true ->
  candidateTrades (cells :: rest) = candidateTrades rest.
Proof.
  intros E. unfold candidateTrades. cbn [flat_map].
  unfold candidateTrade, isClosedMarker. now rewrite E.
Qed.

Lemma candidateTrades_row (cells : Row) (rest : list Row) :
  firstCellIncludes cells "Closed Transactions:" = false ->
  candidateTrades (cells :: rest)
  = ((if Z.of_nat (List.length cells) =? 14
      then match rowToTrade cells with Some trade => [trade] | None => [] end
      else []) ++ candidateTrades rest)%list.
Proof.
  intros E. unfold candidateTrades. cbn [flat_map].
  unfold candidateTrade, isClosedMarker. now rewrite E.
Qed.

Lemma scanRows_inside (rows : list Row) : forall acc,
  scanRows true acc rows = (acc ++ candidateTrades (scannedRows rows))%list.
Proof.
  induction rows as [|cells rest IH]; intros acc; cbn [scanRows scannedRows].
  - now rewrite app_nil_r.
  - unfold isEndMarker, isClosedMarker.
    destruct (firstCellIncludes cells "Closed Transactions:") eqn:Ec; cbn [negb andb].
    + rewrite candidateTrades_closed by exact Ec. apply IH.
    + destruct (firstCellIncludes cells "Open Trades:" || firstCellIncludes cells "Working Orders:").
      * now rewrite app_nil_r.
      * rewrite candidateTrades_row by exact Ec.
        destruct (Z.of_nat (List.length cells) =? 14); [|apply IH].
        destruct (rowToTrade cells) as [trade|]; [|apply IH].
        rewrite IH, <- app_assoc. reflexivity.
Qed.

Lemma scanRows_outside (rows : list Row) : forall acc,
  scanRows false acc rows = (acc ++ candidateTrades (closedSection (scannedRows rows)))%list.
Proof.
  induction rows as [|cells rest IH]; intros acc; cbn [scanRows scannedRows].
  - now rewrite app_nil_r.
  - unfold isEndMarker, isClosedMarker.
    destruct (firstCellIncludes cells "Closed Transactions:") eqn:Ec; cbn [negb andb].
    + cbn [closedSection]. unfold isClosedMarker. rewrite Ec. apply scanRows_inside.
    + destruct (firstCellIncludes cells "Open Trades:" || firstCellIncludes cells "Working Orders:").
      * now rewrite app_nil_r.
      * cbn [closedSection]. unfold isClosedMarker. rewrite Ec. apply IH.
Qed.

Lemma parse_pipeline (rows : list Row) :
  parseMT4Report rows = candidateTrades (closedSection (scannedRows rows)).
Proof. unfold parseMT4Report. now rewrite scanRows_outside. Qed.

Lemma closedSection_none (rows : list Row) :
  Forall (fun r => ~ closedMarker r) rows -> closedSection rows = [].
Proof.
  induction 1 as [|cells rest Hc _ IH]; simpl; [reflexivity|].
  unfold isClosedMarker. unfold closedMarker in Hc.
  destruct (firstCellIncludes cells "Closed Transactions:"); [now exfalso | exact IH].
Qed.

Lemma scannedRows_Forall (P : Row -> Prop) (rows : list Row) :
  Forall P rows -> Forall P (scannedRows rows).
Proof.
  induction 1 as [|cells rest Hc _ IH]; simpl; [constructor|].
  destruct (isEndMarker cells); [constructor | now constructor].
Qed.

(** A trade of the output is the trade of one of the rows. *)
Lemma parsed_from_row (rows : list Row) (trade : Trade) :
  In trade (parseMT4Report rows) ->
  exists cells, In cells rows /\ List.length cells = 14%nat /\ rowToTrade cells = Some trade.
Proof.
  rewrite parse_pipeline. unfold candidateTrades. intros H.
  apply in_flat_map in H as (cells & Hin & Ht).
  assert (Hrows : In cells rows).
  { clear Ht. revert Hin. induction rows as [|c rest IH]; simpl; [tauto|].
    destruct (isEndMarker c); simpl; [tauto|].
    destruct (isClosedMarker c).
    - intros Hin. right. clear IH. revert Hin.
      induction rest as [|c' rest' IH']; simpl; [tauto|].
      destruct (isEndMarker c'); simpl; [tauto|]. intros [-> | Hin]; auto.
    - intros Hin. right. now apply IH. }
  exists cells. split; [exact Hrows|].
  unfold candidateTrade in Ht. destruct (isClosedMarker cells); [destruct Ht|].
  destruct (Z.eqb_spec (Z.of_nat (List.length cells)) 14) as [E|]; [|destruct Ht].
  destruct (rowToTrade cells) as [t|]; [|destruct Ht].
  destruct Ht as [<- | []]. split; [lia | reflexivity].
Qed.

Lemma scanRows_prefix (pre post : list Row) : forall b acc,
  exists more, scanRows b acc (pre ++ post) = (scanRows b acc pre ++ more)%list.
Proof.
  induction pre as [|cells rest IH]; intros b acc; simpl.
  - exists (scanRows b [] post). apply scanRows_acc.
  - destruct (firstCellIncludes cells "Closed Transactions:"); [apply IH|].
    destruct (firstCellIncludes cells "Open Trades:" || firstCellIncludes cells "Working Orders:").
    + exists []. now rewrite app_nil_r.
    + destruct (b && (Z.of_nat (List.length cells) =? 14)); [|apply IH].
      destruct (rowToTrade cells); apply IH.
Qed.

End ParserPipeline.

(** X1.  The scan of the rows is a pipeline of three steps: keep the rows
    before the first row that stops the scan, drop the rows up to the first
    "Closed Transactions:" row, and take the trades of the rows that are
    left, in row order. *)
Theorem parse_is_pipeline (rows : list Row) :
  parseMT4Report rows = candidateTrades (closedSection (scannedRows rows)).
Proof.
  unfold parseMT4Report. rewrite (scanRows_outside rows []). reflexivity.
Qed.

(** X2.  A document in which no row's first cell contains
    "Closed Transactions:" gives no trade, whatever its rows are. *)
Theorem no_closed_section_no_trades (rows : list Row) :
  Forall (fun r => ~ closedMarker r) rows -> parseMT4Report rows = [].
Proof.
  intros H. rewrite parse_pipeline, closedSection_none; [reflexivity|].
  now apply scannedRows_Forall.
Qed.

(** X2 on a document whose only rows are trade rows. *)
Lemma no_closed_section_no_trades_witness :
  parseMT4Report [sampleRow "1" "50.00"; sampleRow "2" "7.00"] = [].
Proof.
  apply (no_closed_section_no_trades [sampleRow "1" "50.00"; sampleRow "2" "7.00"]).
  repeat constructor; unfold closedMarker; vm_compute; discriminate.
Defined.

(** X3.  The output for a document that is cut short is the beginning of the
    output for the whole document: reading more rows only adds trades after
    those already found. *)
Theorem parse_prefix (pre post : list Row) :
  exists more, parseMT4Report (pre ++ post) = (parseMT4Report pre ++ more)%list.
Proof.
  unfold parseMT4Report. destruct (scanRows_prefix pre post false []) as [more E].
  exists more. exact E.
Qed.
(** ** The fields of a parsed trade *)

Section ParsedFields.

Lemma trimStart_idem (s : string) : trimStart (trimStart s) = trimStart s.
Proof.
  induction s as [|c s IH]; simpl; [reflexivity|].
  destruct (isWhiteSpace c) eqn:E; [exact IH|]. simpl. now rewrite E.
Qed.

Lemma trimEnd_idem (s : string) : trimEnd (trimEnd s) = trimEnd s.
Proof.
  induction s as [|c s IH]; cbn [trimEnd]; [reflexivity|].
  destruct (trimEnd s) as [|c' r] eqn:E.
  - destruct (isWhiteSpace c) eqn:Ec; [reflexivity|]. cbn [trimEnd]. now rewrite Ec.
  - cbn [trimEnd]. cbn [trimEnd] in IH. rewrite IH. reflexivity.
Qed.

(** Trimming the end keeps a first character that is not white space. *)
Lemma trimStart_trimEnd (s : string) :
  trimStart s = s -> trimStart (trimEnd s) = trimEnd s.
Proof.
  destruct s as [|c s]; [reflexivity|]. cbn [trimStart].
  destruct (isWhiteSpace c) eqn:Ec.
  - intros H. exfalso.
    assert (L : (length (trimStart s) <= length s)%nat).
    { clear. induction s as [|x s IH]; simpl; [lia|]. destruct (isWhiteSpace x); simpl; lia. }
    rewrite H in L. simpl in L. lia.
  - intros _. cbn [trimEnd]. destruct (trimEnd s); rewrite ?Ec; cbn [trimStart]; now rewrite Ec.
Qed.

Lemma trim_idem (s : string) : trim (trim s) = trim s.
Proof.
  unfold trim. rewrite (trimStart_trimEnd (trimStart s)) by apply trimStart_idem.
  apply trimEnd_idem.
Qed.

Lemma lowerChar_idem (c : ascii) : lowerChar (lowerChar c) = lowerChar c.
Proof.
  destruct c as [[|] [|] [|] [|] [|] [|] [|] [|]]; vm_compute; reflexivity.
Qed.

Lemma toLowerCase_idem (s : string) : toLowerCase (toLowerCase s) = toLowerCase s.
Proof.
  induction s as [|c s IH]; simpl; [reflexivity|]. now rewrite lowerChar_idem, IH.
Qed.

Lemma orElse_empty (s : string) : orElse s "" = s.
Proof. now destruct s. Qed.

Lemma rowToTrade_cells (cells : Row) (trade : Trade) :
  rowToTrade cells = Some trade ->
  ticket trade = trim (cellText cells 0) /\
  openTimeRaw trade = trim (cellText cells 1) /\
  showType (type trade) = toLowerCase (trim (cellText cells 2)) /\
  item trade = toLowerCase (trim (cellText cells 4)) /\
  closeTimeRaw trade = trim (cellText cells 8) /\
  item trade <> "".
Proof.
  unfold rowToTrade. rewrite !orElse_empty.
  destruct (String.eqb_spec (toLowerCase (trim (cellText cells 2))) "buy") as [Eb | _];
    [|destruct (String.eqb_spec (toLowerCase (trim (cellText cells 2))) "sell") as [Es | _];
      [|discriminate]];
    cbn [item];
    (destruct (toLowerCase (trim (cellText cells 4))) eqn:Ei; cbn [isEmpty]; [discriminate|]);
    intros [= <-]; cbn [item ticket openTimeRaw closeTimeRaw type showType];
    repeat split; try congruence; discriminate.
Qed.

End ParsedFields.

(** X4.  Every trade of the output is read from a row of 14 cells of the
    document: ticket, open time and close time are the trimmed cells 0, 1
    and 8, the side is the trimmed cell 2 in lower case and the symbol the
    trimmed cell 4 in lower case.  So the symbol is not empty and is in lower
    case, and the ticket and the two time strings have no white space around
    them. *)
Theorem parsed_trades_normal (rows : list Row) :
  Forall (fun trade =>
            (exists cells,
                In cells rows /\ List.length cells = 14%nat /\
                ticket trade = trim (cellText cells 0) /\
                openTimeRaw trade = trim (cellText cells 1) /\
                showType (type trade) = toLowerCase (trim (cellText cells 2)) /\
                item trade = toLowerCase (trim (cellText cells 4)) /\
                closeTimeRaw trade = trim (cellText cells 8)) /\
            item trade <> "" /\ toLowerCase (item trade) = item trade /\
            trim (ticket trade) = ticket trade /\
            trim (openTimeRaw trade) = openTimeRaw trade /\
            trim (closeTimeRaw trade) = closeTimeRaw trade)
         (parseMT4Report rows).
Proof.
  apply Forall_forall. intros trade Hin.
  destruct (parsed_from_row rows trade Hin) as (cells & Hc & Hl & Ht).
  destruct (rowToTrade_cells cells trade Ht) as (H0 & H1 & H2 & H4 & H8 & Hne).
  split; [exists cells; repeat split; assumption|].
  split; [exact Hne|].
  rewrite H4, H0, H1, H8, toLowerCase_idem, !trim_idem. repeat split.
Qed.
(** ** The time reconciler: validity and round trip *)

Section ReconcilerMore.

Lemma DaysInYear_cases (y : Z) : DaysInYear y = 365 \/ DaysInYear y = 366.
Proof.
  unfold DaysInYear.
  destruct (y mod 4 =? 0), (y mod 100 =? 0), (y mod 400 =? 0); cbn; auto.
Qed.

Lemma DayWithinYear_leap (t : Z) : 0 <= DayWithinYear t < 365 + InLeapYear t.
Proof.
  pose proof (DayWithinYear_range t) as H. unfold InLeapYear.
  destruct (DaysInYear_cases (YearFromTime t)) as [E | E]; rewrite E in *; cbn; lia.
Qed.

Lemma InLeapYear_cases (t : Z) : InLeapYear t = 0 \/ InLeapYear t = 1.
Proof. unfold InLeapYear. destruct (_ =? _); auto. Qed.

Lemma DateFromTime_range (t : Z) : 1 <= DateFromTime t <= 31.
Proof.
  pose proof (DayWithinYear_leap t) as Hd.
  unfold DateFromTime, MonthFromTime.
  destruct (InLeapYear_cases t) as [E | E]; rewrite E in *;
    repeat match goal with
           | |- context [?a <? ?b] => destruct (Z.ltb_spec a b)
           end; cbn; lia.
Qed.

Lemma HourFromTime_range (t : Z) : 0 <= HourFromTime t <= 23.
Proof. unfold HourFromTime. pose proof (Z.mod_pos_bound (t / msPerHour) 24). lia. Qed.

Lemma MinFromTime_range (t : Z) : 0 <= MinFromTime t <= 59.
Proof. unfold MinFromTime. pose proof (Z.mod_pos_bound (t / msPerMinute) 60). lia. Qed.

Lemma convert_fields (cfg : Offsets) (t : Z) :
  Z.abs (t + (TV_UTC_OFFSET cfg + TV_TIMESTAMP_CORRECTION_HOURS cfg) * msPerHour)
    <= 8640000000000000 ->
  convertToPineScriptTimestamp cfg (Some t)
  = let T := t + (TV_UTC_OFFSET cfg + TV_TIMESTAMP_CORRECTION_HOURS cfg) * msPerHour in
    {| year := Some (YearFromTime T); month := Some (MonthFromTime T + 1);
       day := Some (DateFromTime T); hours := Some (HourFromTime T);
       minutes := Some (MinFromTime T) |}.
Proof.
  intros Hb. cbv beta zeta delta [convertToPineScriptTimestamp getTime].
  rewrite setUTCHours_shift, TimeClip_in_range by exact Hb. reflexivity.
Qed.

Lemma calendarFields_of (T : Z) :
  calendarFields {| year := Some (YearFromTime T); month := Some (MonthFromTime T + 1);
                    day := Some (DateFromTime T); hours := Some (HourFromTime T);
                    minutes := Some (MinFromTime T) |}.
Proof.
  exists (YearFromTime T), (MonthFromTime T + 1), (DateFromTime T), (HourFromTime T),
    (MinFromTime T).
  pose proof (MonthFromTime_range T). pose proof (DateFromTime_range T).
  pose proof (HourFromTime_range T). pose proof (MinFromTime_range T).
  repeat split; lia.
Qed.

End ReconcilerMore.

(** X5.  With a server offset of at most 10^6 hours either way the parsed
    date is never the invalid date.  When the string contains a timestamp
    the clock is not read, the date is the same at any time of the call;
    when it contains none the date is the reading of the clock. *)
Theorem parse_always_valid (cfg : Offsets) (now : Z) (dateStr : string) :
  Z.abs (MT4_UTC_OFFSET cfg) <= 1000000 ->
  exists t,
    parseMT4DateToUTC cfg now dateStr = Some t /\
    (containsTimestamp dateStr -> forall now', parseMT4DateToUTC cfg now' dateStr = Some t) /\
    (~ containsTimestamp dateStr -> t = now).
Proof.
  intros Hoff. destruct (regexMatch dateStr) as [parts|] eqn:Em.
  - exists (fieldsTime parts - MT4_UTC_OFFSET cfg * msPerHour).
    split; [apply (parse_matched cfg now dateStr parts Em); lia|].
    split; [intros _ now'; apply (parse_matched cfg now' dateStr parts Em); lia|].
    intros Hn. apply regexMatch_None_iff in Hn. congruence.
  - exists now. split; [unfold parseMT4DateToUTC; now rewrite Em|].
    split; [|reflexivity].
    intros Hc. exfalso. apply regexMatch_None_iff in Em. contradiction.
Qed.

(** X5 at the offsets of the repository. *)
Lemma parse_always_valid_witness :
  exists t,
    parseMT4DateToUTC constants 0 "2024.01.10 10:00:00" = Some t /\
    (containsTimestamp "2024.01.10 10:00:00" ->
     forall now', parseMT4DateToUTC constants now' "2024.01.10 10:00:00" = Some t) /\
    (~ containsTimestamp "2024.01.10 10:00:00" -> t = 0).
Proof.
  apply (parse_always_valid constants 0 "2024.01.10 10:00:00"). cbn. lia.
Defined.

(** X6.  For offsets in range, the display timestamp of a string that
    contains a timestamp is a calendar date: no field is NaN, the month is
    from 1 to 12, the day from 1 to 31, the hours from 0 to 23 and the
    minutes from 0 to 59, whatever digits the string holds. *)
Theorem display_fields_in_range (cfg : Offsets) (now : Z) (dateStr : string) :
  offsetsInRange cfg ->
  containsTimestamp dateStr ->
  calendarFields (display cfg now dateStr).
Proof.
  intros (H1 & H2 & H3) Hc.
  destruct (regexMatch dateStr) as [parts|] eqn:Em;
    [|apply regexMatch_None_iff in Em; contradiction].
  unfold display. rewrite (parse_matched cfg now dateStr parts Em) by lia.
  pose proof (fieldsTime_bound parts) as Hb.
  rewrite convert_fields by (unfold msPerHour; lia).
  apply calendarFields_of.
Qed.

(** X6 on a timestamp with a month 99 and a day 00. *)
Lemma display_fields_in_range_witness :
  calendarFields (display constants 0 "2024.99.00 99:99:99").
Proof.
  apply (display_fields_in_range constants 0 "2024.99.00 99:99:99").
  - unfold offsetsInRange. cbn. lia.
  - exists "", "2024.99.00 99:99:99", "". split; [reflexivity|].
    apply wellFormed_iff. reflexivity.
Defined.
Section CalendarRoundTrip.

Ltac eval_monthStart :=
  repeat match goal with
         | |- context [monthStart ?a ?b] =>
             let v := eval vm_compute in (monthStart a b) in
             change (monthStart a b) with v
         | H : context [monthStart ?a ?b] |- _ =>
             let v := eval vm_compute in (monthStart a b) in
             change (monthStart a b) with v in H
         | H : context [?a =? 11] |- _ =>
             let v := eval vm_compute in (a =? 11) in
             change (a =? 11) with v in H; cbv iota in H
         end.

Lemma DayFromYear_mono (a b : Z) : a <= b -> DayFromYear a <= DayFromYear b.
Proof. intros H. unfold DayFromYear. Z.div_mod_to_equations. lia. Qed.

Lemma YearFromTime_unique (t y : Z) :
  DayFromYear y <= Day t < DayFromYear (y + 1) -> YearFromTime t = y.
Proof.
  intros H. pose proof (YearFromTime_spec t) as HY.
  destruct (Z.lt_trichotomy (YearFromTime t) y) as [L | [E | G]]; [|exact E|].
  - pose proof (DayFromYear_mono (YearFromTime t + 1) y ltac:(lia)). lia.
  - pose proof (DayFromYear_mono (y + 1) (YearFromTime t) ltac:(lia)). lia.
Qed.

(** The time value built from a calendar date and time reads back as that
    date and time. *)
Lemma fields_round_trip (y m d h mi se : Z) :
  0 <= m <= 11 -> 1 <= d <= daysInMonth y m ->
  0 <= h <= 23 -> 0 <= mi <= 59 -> 0 <= se <= 59 ->
  let T := MakeDate (MakeDay y m d) (MakeTime h mi se 0) in
  YearFromTime T = y /\ MonthFromTime T = m /\ DateFromTime T = d /\
  HourFromTime T = h /\ MinFromTime T = mi.
Proof.
  intros Hm Hd Hh Hmi Hse T.
  set (leap := if DaysInYear y =? 366 then 1 else 0).
  assert (Hleap : DaysInYear y = 365 + leap).
  { unfold leap. destruct (DaysInYear_cases y) as [E | E]; rewrite E; reflexivity. }
  assert (HT : T = (DayFromYear y + monthStart m leap + d - 1) * msPerDay
                   + (h * msPerHour + mi * msPerMinute + se * msPerSecond)).
  { unfold T, MakeDate, MakeDay, MakeTime.
    rewrite (Z.div_small m 12), (Z.mod_small m 12), Z.add_0_r by lia. fold leap. ring. }
  assert (Hday : Day T = DayFromYear y + monthStart m leap + d - 1).
  { rewrite HT. unfold Day, msPerDay, msPerHour, msPerMinute, msPerSecond.
    generalize (DayFromYear y + monthStart m leap + d - 1). intros D.
    Z.div_mod_to_equations. lia. }
  assert (Hdwy : 0 <= monthStart m leap + d - 1 < 365 + leap /\
                 (if m =? 11 then 365 + leap else monthStart (m + 1) leap)
                 = monthStart m leap + daysInMonth y m).
  { unfold daysInMonth in *. fold leap in Hd |- *. split; [|ring].
    assert (Hl : leap = 0 \/ leap = 1) by (unfold leap; destruct (_ =? _); auto).
    assert (Hc : m = 0 \/ m = 1 \/ m = 2 \/ m = 3 \/ m = 4 \/ m = 5 \/ m = 6 \/ m = 7 \/
                 m = 8 \/ m = 9 \/ m = 10 \/ m = 11 \/ False) by lia.
    clear HT Hday. clearbody T leap.
    destruct Hl as [-> | ->];
      repeat (destruct Hc as [-> | Hc]; [eval_monthStart; lia|]); destruct Hc. }
  destruct Hdwy as [Hdwy Hnext].
  assert (HY : YearFromTime T = y).
  { apply YearFromTime_unique. rewrite Hday, DayFromYear_succ, Hleap. lia. }
  assert (Hin : DayWithinYear T = monthStart m leap + d - 1).
  { unfold DayWithinYear. rewrite HY, Hday. ring. }
  assert (Hil : InLeapYear T = leap) by (unfold InLeapYear; now rewrite HY).
  assert (HM : MonthFromTime T = m).
  { unfold MonthFromTime. rewrite Hin, Hil.
    assert (Hl : leap = 0 \/ leap = 1) by (unfold leap; destruct (_ =? _); auto).
    assert (Hc : m = 0 \/ m = 1 \/ m = 2 \/ m = 3 \/ m = 4 \/ m = 5 \/ m = 6 \/ m = 7 \/
                 m = 8 \/ m = 9 \/ m = 10 \/ m = 11 \/ False) by lia.
    clear Hleap HT Hday HY Hin Hil. clearbody T. unfold daysInMonth in Hd. fold leap in Hd, Hnext.
    clearbody leap.
    destruct Hl as [-> | ->];
      repeat (destruct Hc as [-> | Hc];
              [eval_monthStart;
               repeat match goal with
                      | |- context [?a <? ?b] => destruct (Z.ltb_spec a b)
                      end; lia|]);
      destruct Hc. }
  split; [exact HY|]. split; [exact HM|].
  split; [unfold DateFromTime; rewrite Hin, Hil, HM; ring|].
  rewrite HT. unfold HourFromTime, MinFromTime, msPerDay, msPerHour, msPerMinute, msPerSecond.
  generalize (DayFromYear y + monthStart m leap + d - 1). intros D.
  split; Z.div_mod_to_equations; lia.
Qed.

End CalendarRoundTrip.

(** X7.  A timestamp that names a calendar moment, whose hour stays within
    the day once the display clock's lag is taken off, is displayed with
    its own month, day and minute, with its hour less the lag, and with its
    year, a year from 0000 to 0099 as 1900 to 1999.  With the offsets of the
    program the lag is seven hours. *)
Theorem display_same_day (cfg : Offsets) (now : Z) (s : string) :
  offsetsInRange cfg ->
  wellFormedTimestamp s ->
  calendarTimestamp s ->
  hoursBehind cfg <= hoursOf s <= 23 + hoursBehind cfg ->
  display cfg now s
  = {| year := Some (fullYear (yearOf s)); month := Some (monthOf s);
       day := Some (dayOf s);
       hours := Some (hoursOf s - hoursBehind cfg); minutes := Some (minutesOf s) |}.
Proof.
  intros (H1 & H2 & H3) Hw (Hmo & Hd & Hh & Hmi & Hse) Hk.
  unfold display.
  rewrite (parse_matched cfg now s s (regexMatch_wellFormed _ Hw)) by lia.
  pose proof (fieldsTime_bound s) as Hb.
  rewrite convert_fields by (unfold msPerHour; lia).
  cbv zeta.
  pose proof (digitsToNumber_bound s 11 2) as Hh0.
  pose proof (digitsToNumber_bound s 14 2) as Hmi0.
  pose proof (digitsToNumber_bound s 17 2) as Hse0.
  fold (hoursOf s) in Hh0. fold (minutesOf s) in Hmi0. fold (secondsOf s) in Hse0.
  assert (HT : fieldsTime s - MT4_UTC_OFFSET cfg * msPerHour
               + (TV_UTC_OFFSET cfg + TV_TIMESTAMP_CORRECTION_HOURS cfg) * msPerHour
               = MakeDate (MakeDay (fullYear (yearOf s)) (monthOf s - 1) (dayOf s))
                   (MakeTime (hoursOf s - hoursBehind cfg) (minutesOf s) (secondsOf s) 0)).
  { unfold fieldsTime. fold (yearOf s) (monthOf s) (dayOf s) (hoursOf s) (minutesOf s)
      (secondsOf s). cbv zeta.
    unfold MakeDate, MakeTime, hoursBehind, fullYear. ring. }
  rewrite HT.
  destruct (fields_round_trip (fullYear (yearOf s)) (monthOf s - 1) (dayOf s)
              (hoursOf s - hoursBehind cfg) (minutesOf s) (secondsOf s))
    as (EY & EM & ED & EH & EMi); try lia.
  rewrite EY, EM, ED, EH, EMi. f_equal. f_equal. lia.
Qed.

Lemma display_same_day_witness :
  display constants 0 "2024.02.29 09:30:15"
  = {| year := Some 2024; month := Some 2; day := Some 29;
       hours := Some 2; minutes := Some 30 |}.
Proof.
  apply (display_same_day constants 0 "2024.02.29 09:30:15").
  - vm_compute. repeat split; discriminate.
  - repeat constructor.
  - vm_compute. repeat split; discriminate.
  - vm_compute. split; discriminate.
Defined.

Example display_two_digit_year :
  display constants 0 "0024.02.29 09:30:15"
  = {| year := Some 1924; month := Some 2; day := Some 29;
       hours := Some 2; minutes := Some 30 |}.
Proof. vm_compute. reflexivity. Qed.

(** ** The deduplication loop on any list of trades *)

Section DedupKeys.

Lemma get_Some_keys {V : Type} (k : string) (v : V) (m : OrderedMap.t V) :
  OrderedMap.get k m = Some v -> In k (OrderedMap.keys m).
Proof. intros H. apply get_In in H. exact (in_map fst _ _ H). Qed.

Lemma keepBest_keyedBy (m : OrderedMap.t Trade) (done : list Trade) (w : Trade) :
  keyedBy m done -> keyedBy (keepBest m w) (done ++ [w]).
Proof.
  intros (Hnd & Hall & Hget).
  assert (Hset : keyedBy (OrderedMap.set (winnerKey w) w m) (done ++ [w])).
  { split; [now apply NoDup_keys_set|]. split.
    - intros x Hx. apply in_app_iff in Hx.
      assert (Hw : In (winnerKey w) (OrderedMap.keys (OrderedMap.set (winnerKey w) w m)))
        by (apply (get_Some_keys _ w), get_set_same).
      destruct Hx as [Hx | [<- | []]]; [|exact Hw].
      rewrite keys_set. specialize (Hall x Hx).
      destruct (OrderedMap.get (winnerKey w) m); [exact Hall|].
      apply in_app_iff. now left.
    - intros k u Hg. destruct (string_dec k (winnerKey w)) as [-> | Hk].
      + rewrite get_set_same in Hg. injection Hg as <-. split; [reflexivity|].
        apply in_app_iff. right. now left.
      + rewrite get_set_other in Hg by exact Hk. destruct (Hget k u Hg) as [Hu Hin].
        split; [exact Hu|]. apply in_app_iff. now left. }
  unfold keepBest. destruct (OrderedMap.get (winnerKey w) m) as [existing|] eqn:E;
    [destruct (gt (profit w) (profit existing))|]; try exact Hset.
  split; [exact Hnd|]. split.
  - intros x Hx. apply in_app_iff in Hx. destruct Hx as [Hx | [<- | []]]; [now apply Hall|].
    exact (get_Some_keys _ _ _ E).
  - intros k u Hg. destruct (Hget k u Hg) as [Hu Hin]. split; [exact Hu|].
    apply in_app_iff. now left.
Qed.

Lemma fold_keepBest_keyedBy (l : list Trade) : forall m done,
  keyedBy m done -> keyedBy (fold_left keepBest l m) (done ++ l).
Proof.
  induction l as [|w l IH]; intros m done H; cbn [fold_left].
  - now rewrite app_nil_r.
  - replace (done ++ w :: l)%list with ((done ++ [w]) ++ l)%list
      by (rewrite <- app_assoc; reflexivity).
    apply IH, keepBest_keyedBy, H.
Qed.

Lemma dedup_keyedBy (W : list Trade) : keyedBy (fold_left keepBest W []) W.
Proof.
  apply (fold_keepBest_keyedBy W [] []). split; [constructor|]. split.
  - intros x [].
  - intros k u Hg. discriminate Hg.
Qed.

Lemma dedupWinners_keys (cfg : Offsets) (now : Z) (W : list Trade) :
  Permutation (map winnerKey (dedupWinners cfg now W))
              (OrderedMap.keys (fold_left keepBest W [])).
Proof.
  destruct (dedup_keyedBy W) as (Hnd & _ & Hget).
  rewrite <- (values_keys _ (fun k u Hg => proj1 (Hget k u Hg)) Hnd).
  apply Permutation_map, dedupWinners_perm.
Qed.

Lemma dedupWinners_NoDup (cfg : Offsets) (now : Z) (W : list Trade) :
  NoDup (map winnerKey (dedupWinners cfg now W)).
Proof.
  destruct (dedup_keyedBy W) as (Hnd & _).
  eapply Permutation_NoDup; [symmetry; apply dedupWinners_keys|exact Hnd].
Qed.

Lemma dedupWinners_incl (cfg : Offsets) (now : Z) (W : list Trade) (u : Trade) :
  In u (dedupWinners cfg now W) -> In u W.
Proof.
  intros Hu. destruct (dedup_keyedBy W) as (Hnd & _ & Hget).
  apply (Permutation_in _ (dedupWinners_perm cfg now W)) in Hu.
  unfold OrderedMap.values in Hu. apply in_map_iff in Hu. destruct Hu as ([k v] & <- & Hin).
  apply (In_get _ _ _ Hnd) in Hin. exact (proj2 (Hget k v Hin)).
Qed.

Lemma dedupWinners_covers (cfg : Offsets) (now : Z) (W : list Trade) (k : string) :
  In k (map winnerKey (dedupWinners cfg now W)) <-> In k (map winnerKey W).
Proof.
  destruct (dedup_keyedBy W) as (Hnd & Hall & Hget). split.
  - intros Hk. apply in_map_iff in Hk. destruct Hk as (u & <- & Hu).
    apply in_map, (dedupWinners_incl cfg now), Hu.
  - intros Hk. apply in_map_iff in Hk. destruct Hk as (x & <- & Hx).
    apply (Permutation_in _ (Permutation_sym (dedupWinners_keys cfg now W))), Hall, Hx.
Qed.

Lemma dedupWinners_length (cfg : Offsets) (now : Z) (W : list Trade) :
  List.length (dedupWinners cfg now W) = List.length (distinctKeys W).
Proof.
  rewrite <- (length_map winnerKey). apply Permutation_length, NoDup_Permutation.
  - apply dedupWinners_NoDup.
  - apply NoDup_nodup.
  - intros k. unfold distinctKeys. rewrite nodup_In. apply dedupWinners_covers.
Qed.

End DedupKeys.

(** X8.  On any list of trades the deduplication of lines 123 to 135 gives
    trades of the list, one for each time-and-price key of the list: as
    many trades as the list has different keys, no two with one key. *)
Theorem dedup_one_per_key (cfg : Offsets) (now : Z) (W : list Trade) :
  (forall u, In u (dedupWinners cfg now W) -> In u W) /\
  NoDup (map winnerKey (dedupWinners cfg now W)) /\
  (forall w, In w W -> exists u, In u (dedupWinners cfg now W) /\ winnerKey u = winnerKey w) /\
  List.length (dedupWinners cfg now W) = List.length (distinctKeys W).
Proof.
  split; [apply dedupWinners_incl|]. split; [apply dedupWinners_NoDup|]. split.
  - intros w Hw.
    assert (Hk : In (winnerKey w) (map winnerKey (dedupWinners cfg now W)))
      by (apply dedupWinners_covers, in_map, Hw).
    apply in_map_iff in Hk. destruct Hk as (u & Hu & Hin). now exists u.
  - apply dedupWinners_length.
Qed.


(** ** The mapping the classifier returns *)

Section ReturnedMapping.
Variable cfg : Offsets.
Variable now : Z.
Variable tol : number.

Lemma keys_dedupGroups (m : GroupedTrades) :
  OrderedMap.keys (dedupGroups cfg now m) = OrderedMap.keys m.
Proof.
  unfold dedupGroups, OrderedMap.keys. rewrite map_map. apply map_ext. reflexivity.
Qed.

Lemma keys_NoDup_classify (l : list Trade) :
  NoDup (OrderedMap.keys (snd (classifyAndGroupTrades cfg now tol l))).
Proof.
  unfold classifyAndGroupTrades. cbn [snd]. rewrite keys_dedupGroups.
  apply bucketTrades_bucketed.
Qed.

Lemma existsb_hasItem (i : string) (l : list Trade) :
  existsb (hasItem i) l = true <-> exists t, In t l /\ item t = i.
Proof.
  rewrite existsb_exists. unfold hasItem.
  split; intros (t & Hin & Ht); exists t; (split; [exact Hin|]); now apply String.eqb_eq.
Qed.

Lemma sorted_item (i : string) (l : list Trade) :
  existsb (hasItem i) (sortedTrades cfg now l) = true <-> exists t, In t l /\ item t = i.
Proof.
  rewrite existsb_hasItem.
  split; intros (t & Hin & Ht); exists t; (split; [|exact Ht]).
  - exact (Permutation_in _ (sortedTrades_perm cfg now l) Hin).
  - exact (Permutation_in _ (Permutation_sym (sortedTrades_perm cfg now l)) Hin).
Qed.

Lemma classify_key_iff (l : list Trade) (i : string) :
  In i (OrderedMap.keys (snd (classifyAndGroupTrades cfg now tol l)))
  <-> exists t, In t l /\ item t = i.
Proof.
  rewrite <- sorted_item.
  pose proof (classify_get cfg now tol l i) as Hg.
  pose proof (get_None_keys i (snd (classifyAndGroupTrades cfg now tol l))) as Hn.
  destruct (existsb (hasItem i) (sortedTrades cfg now l)).
  - split; [reflexivity|]. intros _.
    destruct (in_dec string_dec i (OrderedMap.keys (snd (classifyAndGroupTrades cfg now tol l))))
      as [Hin | Hout]; [exact Hin|].
    apply Hn in Hout. rewrite Hg in Hout. discriminate.
  - split; [|discriminate]. intros Hin. exfalso. now apply (proj1 Hn Hg).
Qed.

Lemma classify_entry (l : list Trade) (e : string * Group) :
  In e (snd (classifyAndGroupTrades cfg now tol l)) ->
  snd e = groupOf cfg now tol (fst e) l /\ exists t, In t l /\ item t = fst e.
Proof.
  intros He. split.
  - exact (proj1 (Forall_forall _ _) (classify_entries cfg now tol l) e He).
  - apply classify_key_iff. exact (in_map fst _ _ He).
Qed.

Lemma bucket_sorted_perm (test : Trade -> bool) (i : string) (l : list Trade) :
  Permutation (bucket test i (sortedTrades cfg now l)) (bucket test i l).
Proof. apply filter_perm, sortedTrades_perm. Qed.

Lemma distinctKeys_perm (a b : list Trade) :
  Permutation a b -> List.length (distinctKeys a) = List.length (distinctKeys b).
Proof.
  intros H. apply Permutation_length, NoDup_Permutation; try apply NoDup_nodup.
  intros k. unfold distinctKeys. rewrite !nodup_In.
  split; apply Permutation_in; [|symmetry]; apply Permutation_map, H.
Qed.

Lemma group_lengths (i : string) (l : list Trade) :
  (List.length (bucket (isWinner tol) i l) + List.length (bucket (isBreakeven tol) i l)
   + List.length (bucket (isLoser tol) i l) = List.length (tradesOf i l))%nat.
Proof.
  pose proof (Permutation_length (buckets_partition tol i l)) as H.
  rewrite !length_app in H. unfold tradesOf. lia.
Qed.

End ReturnedMapping.

(** X10.  The returned mapping has one key for each item of the input, and
    no other key; it is empty exactly when the input is. *)
Theorem classify_keys (cfg : Offsets) (now : Z) (tol : number) (allTrades : list Trade) :
  ownItems allTrades ->
  NoDup (OrderedMap.keys (snd (classifyAndGroupTrades cfg now tol allTrades))) /\
  (forall i, In i (OrderedMap.keys (snd (classifyAndGroupTrades cfg now tol allTrades)))
             <-> exists t, In t allTrades /\ item t = i) /\
  (snd (classifyAndGroupTrades cfg now tol allTrades) = [] <-> allTrades = []).
Proof.
  intros _. split; [apply keys_NoDup_classify|]. split; [apply classify_key_iff|].
  pose proof (classify_key_iff cfg now tol allTrades) as Hk.
  destruct (snd (classifyAndGroupTrades cfg now tol allTrades)) as [|[k g] m].
  - split; [|reflexivity]. intros _. destruct allTrades as [|t l]; [reflexivity|].
    exfalso. apply (proj2 (Hk (item t))). exists t. split; [now left | reflexivity].
  - split; [discriminate|]. intros ->.
    destruct (proj1 (Hk k) (or_introl eq_refl)) as (t & [] & _).
Qed.

Lemma classify_keys_witness :
  NoDup (OrderedMap.keys (snd (classifyAndGroupTrades constants 0 zero [tradeLate; tradeEarly]))) /\
  (forall i, In i (OrderedMap.keys
                     (snd (classifyAndGroupTrades constants 0 zero [tradeLate; tradeEarly])))
             <-> exists t, In t [tradeLate; tradeEarly] /\ item t = i) /\
  (snd (classifyAndGroupTrades constants 0 zero [tradeLate; tradeEarly]) = []
   <-> [tradeLate; tradeEarly] = []).
Proof.
  apply (classify_keys constants 0 zero [tradeLate; tradeEarly]).
  repeat constructor.
Defined.

(** X11.  Every group of the returned mapping lists only trades of the
    input with the group's item, and at least one.  The count the group's
    header shows is the number of input trades of the item, less the
    winners that the deduplication drops: the winners count once for each
    time-and-price key. *)
Theorem groups_populated (cfg : Offsets) (now : Z) (tol : number) (allTrades : list Trade) :
  ownItems allTrades ->
  Forall (fun e : string * Group =>
            (forall t, In t (winners (snd e)) \/ In t (breakeven (snd e)) \/
                       In t (losers (snd e)) ->
                       In t allTrades /\ item t = fst e) /\
            (0 < Components.totalTrades (snd e))%nat /\
            (Components.totalTrades (snd e) <= List.length (tradesOf (fst e) allTrades))%nat /\
            (Components.totalTrades (snd e)
             + List.length (bucket (isWinner tol) (fst e) allTrades)
             = List.length (tradesOf (fst e) allTrades)
               + List.length (distinctKeys (bucket (isWinner tol) (fst e) allTrades)))%nat)
         (snd (classifyAndGroupTrades cfg now tol allTrades)).
Proof.
  intros _. apply Forall_forall. intros [i g] He.
  destruct (classify_entry cfg now tol allTrades _ He) as (Hg & t0 & Hin0 & Hit0).
  cbn [fst snd] in *. subst g.
  set (S := sortedTrades cfg now allTrades).
  assert (HS : forall t, In t S <-> In t allTrades).
  { intros t. split; apply Permutation_in;
      [|symmetry]; apply sortedTrades_perm. }
  assert (Hin : forall test t, In t (bucket test i S) -> In t allTrades /\ item t = i).
  { intros test t Ht. apply bucket_In in Ht. destruct Ht as (Ht & Hi & _).
    split; [now apply HS | exact Hi]. }
  assert (Hlen : (Components.totalTrades (groupOf cfg now tol i allTrades)
                  + List.length (bucket (isWinner tol) i allTrades)
                  = List.length (tradesOf i allTrades)
                    + List.length (distinctKeys (bucket (isWinner tol) i allTrades)))%nat).
  { clear HS Hin. subst S.
    unfold Components.totalTrades, groupOf. cbn [winners breakeven losers].
    rewrite dedupWinners_length.
    pose proof (distinctKeys_perm _ _ (bucket_sorted_perm cfg now (isWinner tol) i allTrades))
      as Hk.
    pose proof (group_lengths tol i allTrades) as Hl.
    pose proof (Permutation_length (bucket_sorted_perm cfg now (isWinner tol) i allTrades))
      as H1.
    pose proof (Permutation_length (bucket_sorted_perm cfg now (isBreakeven tol) i allTrades))
      as H2.
    pose proof (Permutation_length (bucket_sorted_perm cfg now (isLoser tol) i allTrades))
      as H3.
    lia. }
  assert (Hd : (List.length (distinctKeys (bucket (isWinner tol) i allTrades))
                <= List.length (bucket (isWinner tol) i allTrades))%nat).
  { unfold distinctKeys. rewrite <- (length_map winnerKey (bucket _ _ _)).
    apply NoDup_incl_length; [apply NoDup_nodup|]. intros k Hk. now apply nodup_In in Hk. }
  split; [|split; [|split; [lia | exact Hlen]]].
  - unfold groupOf. cbn [winners breakeven losers]. fold S.
    intros t [Ht | [Ht | Ht]]; [apply dedupWinners_incl in Ht| |]; exact (Hin _ t Ht).
  - unfold Components.totalTrades, groupOf. cbn [winners breakeven losers]. fold S.
    assert (Ht0 : In t0 (bucket (isWinner tol) i S ++ bucket (isBreakeven tol) i S
                         ++ bucket (isLoser tol) i S)).
    { apply (Permutation_in _ (Permutation_sym (buckets_partition tol i S))).
      apply filter_In. split; [now apply HS|]. unfold hasItem. now apply String.eqb_eq. }
    rewrite !in_app_iff in Ht0. destruct Ht0 as [Hw | [Hb | Hl]].
    + rewrite dedupWinners_length.
      assert (Hk : In (winnerKey t0) (distinctKeys (bucket (isWinner tol) i S)))
        by (unfold distinctKeys; apply nodup_In, in_map, Hw).
      destruct (distinctKeys (bucket (isWinner tol) i S)); [destruct Hk | simpl; lia].
    + destruct (bucket (isBreakeven tol) i S); [destruct Hb | simpl; lia].
    + destruct (bucket (isLoser tol) i S); [destruct Hl | simpl; lia].
Qed.

Lemma groups_populated_witness :
  Forall (fun e : string * Group =>
            (forall t, In t (winners (snd e)) \/ In t (breakeven (snd e)) \/
                       In t (losers (snd e)) ->
                       In t [tradeA; tradeB; tradeC] /\ item t = fst e) /\
            (0 < Components.totalTrades (snd e))%nat /\
            (Components.totalTrades (snd e)
             <= List.length (tradesOf (fst e) [tradeA; tradeB; tradeC]))%nat /\
            (Components.totalTrades (snd e)
             + List.length (bucket (isWinner zero) (fst e) [tradeA; tradeB; tradeC])
             = List.length (tradesOf (fst e) [tradeA; tradeB; tradeC])
               + List.length (distinctKeys
                                (bucket (isWinner zero) (fst e) [tradeA; tradeB; tradeC])))%nat)
         (snd (classifyAndGroupTrades constants 0 zero [tradeA; tradeB; tradeC])).
Proof.
  apply (groups_populated constants 0 zero [tradeA; tradeB; tradeC]).
  repeat constructor.
Defined.

(** ** The tolerance *)

Section Tolerance.

Lemma gt_NaN (p tol : number) : isNaN tol = true -> gt p tol = false.
Proof. destruct tol; try discriminate. intros _. now destruct p as [| [] | |]. Qed.

Lemma band_NaN (p tol : number) :
  isNaN tol = true -> ge p (neg tol) && le p tol = false.
Proof.
  destruct tol; try discriminate. intros _. apply andb_false_iff. right.
  now destruct p as [[] | [] | | [] ? ?].
Qed.

Lemma bucket_none (test : Trade -> bool) (i : string) (l : list Trade) :
  (forall t, test t = false) -> bucket test i l = [].
Proof.
  intros H. unfold bucket. induction l as [|t l IH]; [reflexivity|].
  cbn [filter]. now rewrite H, andb_false_r.
Qed.

Lemma bucket_all (test : Trade -> bool) (i : string) (l : list Trade) :
  (forall t, test t = true) -> bucket test i l = tradesOf i l.
Proof.
  intros H. unfold bucket, tradesOf. apply filter_ext. intros t. now rewrite H, andb_true_r.
Qed.

Lemma band_negative (p tol : number) :
  lt tol zero = true -> ge p (neg tol) && le p tol = false.
Proof.
  intros Hneg.
  destruct (ge p (neg tol)) eqn:Hge; [|reflexivity].
  destruct (le p tol) eqn:Hle; [|reflexivity]. exfalso.
  number_order. destruct (rank p) as [[a b] c], (rank tol) as [[a' b'] c'].
  cbn [fst snd] in *. lia.
Qed.

Lemma le_trans (x y z : number) : le x y = true -> le y z = true -> le x z = true.
Proof.
  intros H1 H2. apply le_iff. number_order.
  destruct (rank x) as [[a b] c], (rank y) as [[a' b'] c'], (rank z) as [[a'' b''] c''].
  cbn [fst snd] in *. repeat split; try assumption. lia.
Qed.

Lemma le_neg (x y : number) : le x y = true -> le (neg y) (neg x) = true.
Proof.
  intros H. apply le_iff. number_order.
  destruct (rank x) as [[a b] c], (rank y) as [[a' b'] c'].
  cbn [fst snd] in *. repeat split; try assumption. lia.
Qed.

Lemma lt_le_trans (x y z : number) : lt x y = true -> le y z = true -> lt x z = true.
Proof.
  intros H1 H2. apply lt_iff. number_order.
  destruct (rank x) as [[a b] c], (rank y) as [[a' b'] c'], (rank z) as [[a'' b''] c''].
  cbn [fst snd] in *. repeat split; try assumption. lia.
Qed.

Lemma le_NaN_l (x y : number) : le x y = true -> isNaN x = false.
Proof. intros H. now apply le_iff in H. Qed.

Lemma le_NaN_r (x y : number) : le x y = true -> isNaN y = false.
Proof. intros H. now apply le_iff in H. Qed.

Lemma lt_neg_nonNegative (p tol : number) :
  nonNegative tol -> lt p (neg tol) = true -> lt p tol = true.
Proof.
  intros H0 H. apply lt_iff. number_order.
  destruct (rank p) as [[a b] c], (rank tol) as [[a' b'] c'].
  cbn [fst snd] in *. repeat split; try assumption. lia.
Qed.

Variables tol tol' : number.
Hypothesis tol_nonNegative : nonNegative tol.
Hypothesis tol_le : le tol tol' = true.

Lemma winner_lower (t : Trade) : isWinner tol' t = true -> isWinner tol t = true.
Proof. unfold isWinner, gt. intros H. exact (le_lt_trans _ _ _ tol_le H). Qed.

Lemma breakeven_higher (t : Trade) : isBreakeven tol t = true -> isBreakeven tol' t = true.
Proof.
  unfold isBreakeven. intros H. apply andb_prop in H. destruct H as [_ H].
  apply andb_prop in H. destruct H as [Hge Hle].
  pose proof (le_trans _ _ _ Hle tol_le) as Hle'.
  rewrite (band_excludes_gt _ _ Hle'), Hle'. cbn [negb andb]. rewrite andb_true_r.
  unfold ge in *. exact (le_trans _ _ _ (le_neg _ _ tol_le) Hge).
Qed.

Lemma loser_lower (t : Trade) : isLoser tol' t = true -> isLoser tol t = true.
Proof.
  unfold isLoser. intros H. apply andb_prop in H. destruct H as [Hgt Hband].
  apply negb_true_iff in Hgt. apply negb_true_iff in Hband.
  destruct (isNaN (profit t)) eqn:Hn.
  - destruct (profit t); try discriminate. destruct tol as [[] | [] | | [] ? ?]; reflexivity.
  - assert (Hle : le (profit t) tol' = true)
      by (apply not_lt_le; [exact Hn | exact (le_NaN_r _ _ tol_le) | exact Hgt]).
    rewrite Hle, andb_true_r in Hband. unfold ge in Hband.
    assert (Hlt : lt (profit t) (neg tol') = true).
    { destruct (lt (profit t) (neg tol')) eqn:E; [reflexivity|].
      assert (Hn' : isNaN (neg tol') = false)
        by (rewrite isNaN_neg; exact (le_NaN_r _ _ tol_le)).
      pose proof (not_lt_le _ _ Hn' Hn E) as Hc. unfold le in Hc. congruence. }
    assert (Hlt' : lt (profit t) (neg tol) = true)
      by exact (lt_le_trans _ _ _ Hlt (le_neg _ _ tol_le)).
    destruct (below_band tol (profit t) tol_nonNegative Hlt') as [-> ->]. reflexivity.
Qed.

End Tolerance.

(** ** The first best trade of a key *)

Section FirstBest.

Lemma sameKey_sym (t u : Trade) : sameKey t u -> sameKey u t.
Proof. intros [H1 H2]. split; congruence. Qed.

Lemma firstBest_unique (u u' : Trade) (l : list Trade) :
  firstBest u l -> firstBest u' l -> sameKey u u' -> u = u'.
Proof.
  intros (b & a & E & Hb & Ha) (b' & a' & E' & Hb' & Ha') Hk.
  rewrite E in E'. apply app_eq_app in E'. destruct E' as (m & [[Eb Ea] | [Eb Ea]]).
  - destruct m as [|x m]; [now injection Ea|].
    injection Ea as <- Ea. exfalso.
    assert (H1 : lt (profit u') (profit u) = true).
    { apply Hb; [|exact (sameKey_sym _ _ Hk)]. rewrite Eb. apply in_app_iff. right. now left. }
    assert (H2 : le (profit u) (profit u') = true).
    { apply Ha'; [|exact Hk]. rewrite Ea. apply in_app_iff. right. now left. }
    rewrite (lt_not_le _ _ H1) in H2. discriminate.
  - destruct m as [|x m]; [now injection Ea|].
    injection Ea as <- Ea. exfalso.
    assert (H1 : lt (profit u) (profit u') = true).
    { apply Hb'; [|exact Hk]. rewrite Eb. apply in_app_iff. right. now left. }
    assert (H2 : le (profit u') (profit u) = true).
    { apply Ha; [|exact (sameKey_sym _ _ Hk)]. rewrite Ea. apply in_app_iff. right. now left. }
    rewrite (lt_not_le _ _ H1) in H2. discriminate.
Qed.

Lemma filter_split {A : Type} (q : A -> bool) (l : list A) : forall b u a,
  filter q l = (b ++ u :: a)%list ->
  exists b' a', l = (b' ++ u :: a')%list /\ filter q b' = b /\ filter q a' = a.
Proof.
  induction l as [|x l IH]; intros b u a H; cbn [filter] in H.
  - destruct b; discriminate.
  - destruct (q x) eqn:Eq.
    + destruct b as [|y b].
      * injection H as -> H. exists [], l. repeat split. exact H.
      * injection H as -> H. destruct (IH _ _ _ H) as (b' & a' & -> & Hb & Ha).
        exists (y :: b'), a'. repeat split; [|exact Ha]. cbn [filter]. now rewrite Eq, Hb.
    + destruct (IH _ _ _ H) as (b' & a' & -> & Hb & Ha).
      exists (x :: b'), a'. repeat split; [|exact Ha]. cbn [filter]. now rewrite Eq.
Qed.

Lemma firstBest_filter (q : Trade -> bool) (u : Trade) (l : list Trade) :
  firstBest u (filter q l) ->
  (forall x, In x l -> q x = false -> sameKey x u -> lt (profit x) (profit u) = true) ->
  firstBest u l.
Proof.
  intros (b & a & E & Hb & Ha) Hout.
  destruct (filter_split q l b u a E) as (b' & a' & -> & <- & <-).
  exists b', a'. split; [reflexivity|]. split.
  - intros x Hx Hk. destruct (q x) eqn:Eq.
    + apply Hb; [|exact Hk]. apply filter_In. now split.
    + apply Hout; [|exact Eq|exact Hk]. apply in_app_iff. now left.
  - intros x Hx Hk. destruct (q x) eqn:Eq.
    + apply Ha; [|exact Hk]. apply filter_In. now split.
    + apply lt_le, Hout; [|exact Eq|exact Hk]. apply in_app_iff. right. now right.
Qed.

Lemma bucket_narrow (tol tol' : number) (i : string) (l : list Trade) :
  (forall t, isWinner tol' t = true -> isWinner tol t = true) ->
  bucket (isWinner tol') i l = filter (isWinner tol') (bucket (isWinner tol) i l).
Proof.
  intros H. unfold bucket. induction l as [|t l IH]; [reflexivity|]. cbn [filter].
  destruct (hasItem i t) eqn:Ei; cbn [andb]; [|exact IH].
  destruct (isWinner tol' t) eqn:E'.
  - rewrite (H t E'). cbn [filter]. rewrite E'. now f_equal.
  - destruct (isWinner tol t); [cbn [filter]; rewrite E'|]; exact IH.
Qed.

End FirstBest.

(** X12.  A tolerance that is not a number (the value the tolerance field
    gives when it is emptied) makes every trade a loser: each group has no
    winner and no breakeven trade, and its losers are all the trades of its
    item, in the order of the sorted array. *)
Theorem NaN_tolerance_all_losers (cfg : Offsets) (now : Z) (tol : number)
    (allTrades : list Trade) :
  ownItems allTrades ->
  isNaN tol = true ->
  Forall (fun e : string * Group =>
            snd e = {| winners := []; breakeven := [];
                       losers := tradesOf (fst e) (sortedTrades cfg now allTrades) |})
         (snd (classifyAndGroupTrades cfg now tol allTrades)).
Proof.
  intros _ Hn. eapply Forall_impl; [|apply classify_entries].
  intros [i g] ->. cbn [fst snd]. unfold groupOf.
  rewrite (bucket_none (isWinner tol)) by (intros t; apply gt_NaN, Hn).
  rewrite (bucket_none (isBreakeven tol))
    by (intros t; unfold isBreakeven; now rewrite band_NaN, andb_false_r).
  rewrite (bucket_all (isLoser tol))
    by (intros t; unfold isLoser; now rewrite gt_NaN, band_NaN).
  reflexivity.
Qed.

Lemma NaN_tolerance_all_losers_witness :
  Forall (fun e : string * Group =>
            snd e = {| winners := []; breakeven := [];
                       losers := tradesOf (fst e)
                                   (sortedTrades constants 0 [tradeLate; tradeEarly]) |})
         (snd (classifyAndGroupTrades constants 0 (parseFloat "") [tradeLate; tradeEarly])).
Proof.
  apply (NaN_tolerance_all_losers constants 0 (parseFloat "") [tradeLate; tradeEarly]).
  - repeat constructor.
  - reflexivity.
Defined.

(** X13.  With a tolerance below zero no trade is breakeven: the band from
    minus the tolerance to the tolerance is empty. *)
Theorem negative_tolerance_no_breakeven (cfg : Offsets) (now : Z) (tol : number)
    (allTrades : list Trade) :
  ownItems allTrades ->
  lt tol zero = true ->
  Forall (fun e : string * Group => breakeven (snd e) = [])
         (snd (classifyAndGroupTrades cfg now tol allTrades)).
Proof.
  intros _ Hn. eapply Forall_impl; [|apply classify_entries].
  intros [i g] ->. cbn [fst snd]. unfold groupOf. cbn [breakeven].
  apply bucket_none. intros t. unfold isBreakeven.
  now rewrite band_negative, andb_false_r.
Qed.

Lemma negative_tolerance_no_breakeven_witness :
  Forall (fun e : string * Group => breakeven (snd e) = [])
         (snd (classifyAndGroupTrades constants 0 (parseFloat "-5") [tradeLate; tradeEarly])).
Proof.
  apply (negative_tolerance_no_breakeven constants 0 (parseFloat "-5") [tradeLate; tradeEarly]).
  - repeat constructor.
  - reflexivity.
Defined.

(** X14.  Raising a tolerance that is not negative moves trades into the
    breakeven lists only: for each item the new winners are among the old
    winners, the new losers among the old losers, and the old breakeven
    trades among the new ones. *)
Theorem tolerance_monotone (cfg : Offsets) (now : Z) (tol tol' : number)
    (allTrades : list Trade) :
  ownItems allTrades ->
  nonNegative tol ->
  le tol tol' = true ->
  Forall (fun e : string * Group =>
            exists g',
              OrderedMap.get (fst e) (snd (classifyAndGroupTrades cfg now tol' allTrades))
              = Some g' /\
              incl (winners g') (winners (snd e)) /\
              incl (breakeven (snd e)) (breakeven g') /\
              incl (losers g') (losers (snd e)))
         (snd (classifyAndGroupTrades cfg now tol allTrades)).
Proof.
  intros _ H0 Hle. apply Forall_forall. intros [i g] He.
  destruct (classify_entry cfg now tol allTrades _ He) as (Hg & Hex).
  cbn [fst snd] in *. subst g.
  exists (groupOf cfg now tol' i allTrades). split.
  { rewrite classify_get. now rewrite (proj2 (sorted_item cfg now i allTrades) Hex). }
  unfold groupOf. cbn [winners breakeven losers].
  set (S := sortedTrades cfg now allTrades).
  split; [|split].
  - intros u Hu.
    pose proof (winners_not_NaN tol i S) as HW.
    pose proof (winners_not_NaN tol' i S) as HW'.
    pose proof (survivor_firstBest cfg now _ HW' u Hu) as Hf.
    pose proof (dedupWinners_incl cfg now _ u Hu) as Hin'.
    rewrite (bucket_narrow tol tol' i S (winner_lower tol tol' Hle)) in Hf, Hin'.
    apply filter_In in Hin'. destruct Hin' as [Hin Hwu].
    apply firstBest_filter in Hf.
    + destruct (key_survives cfg now _ HW u Hin) as (u'' & Hu'' & Hk).
      pose proof (survivor_firstBest cfg now _ HW u'' Hu'') as Hf''.
      now rewrite <- (firstBest_unique _ _ _ Hf'' Hf Hk).
    + intros x Hx Hq _.
      assert (Hnx : isNaN (profit x) = false)
        by exact (proj1 (Forall_forall _ _) HW x Hx).
      unfold isWinner, gt in Hq, Hwu.
      exact (le_lt_trans _ _ _ (not_lt_le _ _ Hnx (le_NaN_r _ _ Hle) Hq) Hwu).
  - intros t Ht. apply bucket_In in Ht. apply bucket_In.
    destruct Ht as (Ht & Hi & Hb). repeat split; try assumption.
    exact (breakeven_higher tol tol' Hle t Hb).
  - intros t Ht. apply bucket_In in Ht. apply bucket_In.
    destruct Ht as (Ht & Hi & Hl). repeat split; try assumption.
    exact (loser_lower tol tol' H0 Hle t Hl).
Qed.

Lemma tolerance_monotone_witness :
  Forall (fun e : string * Group =>
            exists g',
              OrderedMap.get (fst e)
                (snd (classifyAndGroupTrades constants 0 (parseFloat "60")
                        [tradeA; tradeB; tradeC]))
              = Some g' /\
              incl (winners g') (winners (snd e)) /\
              incl (breakeven (snd e)) (breakeven g') /\
              incl (losers g') (losers (snd e)))
         (snd (classifyAndGroupTrades constants 0 zero [tradeA; tradeB; tradeC])).
Proof.
  apply (tolerance_monotone constants 0 zero (parseFloat "60") [tradeA; tradeB; tradeC]).
  - repeat constructor.
  - reflexivity.
  - reflexivity.
Defined.

(** ** The colour of a profit *)

(** X17.  With a tolerance that is not negative the list shows the profit
    of every winner in green and the profit of every loser in red. *)
Theorem profit_colours (cfg : Offsets) (now : Z) (tol : number) (allTrades : list Trade) :
  ownItems allTrades ->
  nonNegative tol ->
  Forall (fun e : string * Group =>
            Forall (fun t => Components.profitColorClass t = "text-green-400")
                   (winners (snd e)) /\
            Forall (fun t => Components.profitColorClass t = "text-red-400")
                   (losers (snd e)))
         (snd (classifyAndGroupTrades cfg now tol allTrades)).
Proof.
  intros _ H0. eapply Forall_impl; [|apply classify_entries].
  intros [i g] ->. cbn [fst snd]. unfold groupOf. cbn [winners losers].
  split; apply Forall_forall; intros t Ht; unfold Components.profitColorClass.
  - apply dedupWinners_incl, bucket_In in Ht. destruct Ht as (_ & _ & Hw).
    unfold isWinner, gt in Hw. pose proof (le_lt_trans _ _ _ H0 Hw) as E.
    unfold gt. unfold lt in E. now rewrite E.
  - apply bucket_In in Ht. destruct Ht as (_ & _ & Hl).
    replace (gt (profit t) zero) with false; [reflexivity|]. symmetry.
    unfold isLoser in Hl. apply andb_prop in Hl. destruct Hl as [Hgt Hband].
    apply negb_true_iff in Hgt. apply negb_true_iff in Hband.
    destruct (gt (profit t) zero) eqn:Hp; [|reflexivity]. exfalso.
    unfold gt in Hp, Hgt.
    assert (Hn : isNaN (profit t) = false) by (apply lt_iff in Hp; tauto).
    pose proof (not_lt_le _ _ Hn (le_NaN_r _ _ H0) Hgt) as Hle.
    rewrite Hle, andb_true_r in Hband.
    assert (Hge : le (neg tol) (profit t) = true).
    { apply (le_trans _ zero); [|now apply lt_le].
      change zero with (neg (neg zero)) at 1. change (neg zero) with (S754_zero true).
      apply le_iff. clear Hband Hle Hgt Hp. number_order.
      destruct (rank tol) as [[a b] c]. cbn [fst snd] in *. repeat split; try assumption. lia. }
    unfold ge in Hband. unfold le in Hge. congruence.
Qed.

Lemma profit_colours_witness :
  Forall (fun e : string * Group =>
            Forall (fun t => Components.profitColorClass t = "text-green-400")
                   (winners (snd e)) /\
            Forall (fun t => Components.profitColorClass t = "text-red-400")
                   (losers (snd e)))
         (snd (classifyAndGroupTrades constants 0 zero [tradeA; tradeNaN])).
Proof.
  apply (profit_colours constants 0 zero [tradeA; tradeNaN]).
  - repeat constructor.
  - reflexivity.
Defined.

(** ** From the report to the groups *)

(** X18.  The groups of a parsed report are named by symbols in lower case,
    none of them empty. *)
Theorem report_groups_named (cfg : Offsets) (now : Z) (tol : number) (rows : list Row) :
  ownItems (parseMT4Report rows) ->
  Forall (fun e : string * Group => fst e <> "" /\ toLowerCase (fst e) = fst e)
         (snd (classifyAndGroupTrades cfg now tol (parseMT4Report rows))).
Proof.
  intros _. apply Forall_forall. intros e He.
  destruct (classify_entry cfg now tol _ _ He) as (_ & t & Hin & <-).
  destruct (parsed_from_row rows t Hin) as (cells & _ & _ & Ht).
  destruct (rowToTrade_cells cells t Ht) as (_ & _ & _ & H4 & _ & Hne).
  split; [exact Hne|]. rewrite H4. apply toLowerCase_idem.
Qed.

Lemma report_groups_named_witness :
  Forall (fun e : string * Group => fst e <> "" /\ toLowerCase (fst e) = fst e)
         (snd (classifyAndGroupTrades constants 0 zero
                 (parseMT4Report [["Closed Transactions:"]; sampleRow "100001" "50.00"]))).
Proof.
  apply (report_groups_named constants 0 zero
           [["Closed Transactions:"]; sampleRow "100001" "50.00"]).
  repeat constructor.
Defined.

(** ** Text around a timestamp *)

Section Surroundings.

Lemma matchAtoms_nondigit (c : ascii) (s : string) :
  isDigit c = false -> matchAtoms datePattern (String c s) = None.
Proof. intros H. cbn [matchAtoms datePattern atomMatches]. now rewrite H. Qed.

Lemma regexMatch_skip (pre m post : string) :
  allChars (fun c => negb (isDigit c)) pre = true ->
  wellFormedTimestamp m ->
  regexMatch (pre ++ m ++ post) = Some m.
Proof.
  intros Hpre Hw. induction pre as [|c pre IH].
  - change ("" ++ m ++ post) with (m ++ post).
    pose proof (matchAtoms_complete datePattern m post Hw) as E.
    destruct m as [|c m]; [inversion Hw|].
    cbn [append regexMatch] in *. now rewrite E.
  - cbn [allChars] in Hpre. apply andb_prop in Hpre. destruct Hpre as [Hc Hpre].
    apply negb_true_iff in Hc.
    change (String c pre ++ m ++ post) with (String c (pre ++ m ++ post)).
    cbn [regexMatch]. rewrite (matchAtoms_nondigit c _ Hc). exact (IH Hpre).
Qed.

End Surroundings.

(** X19.  A timestamp is read the same with any text after it and with
    any text without digits before it. *)
Theorem timestamp_surroundings_ignored (cfg : Offsets) (now : Z) (pre m post : string) :
  allChars (fun c => negb (isDigit c)) pre = true ->
  wellFormedTimestamp m ->
  parseMT4DateToUTC cfg now (pre ++ m ++ post) = parseMT4DateToUTC cfg now m.
Proof.
  intros Hpre Hw. unfold parseMT4DateToUTC.
  rewrite (regexMatch_skip pre m post Hpre Hw), (regexMatch_wellFormed m Hw). reflexivity.
Qed.

Lemma timestamp_surroundings_ignored_witness :
  parseMT4DateToUTC constants 0 ("Opened: " ++ "2024.01.10 10:00:00" ++ " (server)")
  = parseMT4DateToUTC constants 0 "2024.01.10 10:00:00".
Proof.
  apply (timestamp_surroundings_ignored constants 0 "Opened: " "2024.01.10 10:00:00" " (server)").
  - reflexivity.
  - repeat constructor.
Defined.

(** ** Rows that are not trades *)

Section OtherRows.

Lemma rowToTrade_None (cells : Row) :
  (toLowerCase (trim (cellText cells 2)) <> "buy" /\
   toLowerCase (trim (cellText cells 2)) <> "sell") \/
  toLowerCase (trim (cellText cells 4)) = "" ->
  rowToTrade cells = None.
Proof.
  unfold rowToTrade. rewrite !orElse_empty. intros [[Hb Hs] | Hi].
  - apply String.eqb_neq in Hb, Hs. now rewrite Hb, Hs.
  - destruct (String.eqb _ "buy"); [|destruct (String.eqb _ "sell"); [|reflexivity]];
      cbn [item]; now rewrite Hi.
Qed.

Lemma scanRows_skip (cells : Row) (rest : list Row) (b : bool) (acc : list Trade) :
  ~ closedMarker cells -> ~ endMarker cells -> notTradeRow cells ->
  scanRows b acc (cells :: rest) = scanRows b acc rest.
Proof.
  unfold closedMarker, endMarker. intros Hc He Hn. cbn [scanRows].
  destruct (firstCellIncludes cells "Closed Transactions:"); [now elim Hc|].
  destruct (firstCellIncludes cells "Open Trades:"); [elim He; now left|].
  destruct (firstCellIncludes cells "Working Orders:"); [elim He; now right|].
  cbn [orb]. destruct b; cbn [andb]; [|reflexivity].
  destruct (Z.eqb_spec (Z.of_nat (List.length cells)) 14) as [E | _]; [|reflexivity].
  destruct Hn as [Hl | Hn]; [lia|]. now rewrite (rowToTrade_None cells Hn).
Qed.

Lemma scanRows_without (cells : Row) (pre post : list Row) : forall b acc,
  ~ closedMarker cells -> ~ endMarker cells -> notTradeRow cells ->
  scanRows b acc (pre ++ cells :: post) = scanRows b acc (pre ++ post).
Proof.
  induction pre as [|r pre IH]; intros b acc Hc He Hn.
  - now apply scanRows_skip.
  - rewrite <- !app_comm_cons. cbn [scanRows].
    repeat match goal with
           | |- context [if ?c then _ else _] => destruct c
           | |- context [match ?c with Some _ => _ | None => _ end] => destruct c
           end; auto.
Qed.

End OtherRows.

(** X20.  A row that is no marker and gives no trade can be taken out of
    the document without changing the output. *)
Theorem row_without_trade_ignored (cells : Row) (pre post : list Row) :
  ~ closedMarker cells -> ~ endMarker cells -> notTradeRow cells ->
  parseMT4Report (pre ++ cells :: post) = parseMT4Report (pre ++ post).
Proof.
  intros Hc He Hn. unfold parseMT4Report.
  exact (scanRows_without cells pre post false [] Hc He Hn).
Qed.

Lemma row_without_trade_ignored_witness :
  parseMT4Report ([["Closed Transactions:"]] ++ ["Ticket"; "Open Time"]
                    :: [sampleRow "100001" "50.00"])
  = parseMT4Report ([["Closed Transactions:"]] ++ [sampleRow "100001" "50.00"]).
Proof.
  apply (row_without_trade_ignored ["Ticket"; "Open Time"] [["Closed Transactions:"]]
           [sampleRow "100001" "50.00"]).
  - discriminate.
  - intros [H | H]; discriminate H.
  - left. discriminate.
Defined.

(** ** The groups split the input *)

Section Split.

Lemma list_sum_cons (a : nat) (l : list nat) : list_sum (a :: l) = (a + list_sum l)%nat.
Proof. reflexivity. Qed.

Lemma count_key (i : string) (ks : list string) :
  NoDup ks -> In i ks ->
  list_sum (map (fun k => if String.eqb i k then 1%nat else 0%nat) ks) = 1%nat.
Proof.
  induction ks as [|k ks IH]; intros Hnd Hin; [destruct Hin|].
  inversion Hnd as [|? ? Hk Hnd']; subst. cbn [map]. rewrite !list_sum_cons.
  destruct (String.eqb_spec i k) as [Ek | Hne].
  - subst k.
    assert (E : list_sum (map (fun k0 => if String.eqb i k0 then 1%nat else 0%nat) ks) = 0%nat).
    { clear IH Hnd Hnd' Hin. induction ks as [|x ks IH]; [reflexivity|]. cbn [map]. rewrite !list_sum_cons.
      destruct (String.eqb_spec i x) as [Ex | _]; [elim Hk; now left|].
      rewrite IH; [reflexivity|]. intros H. apply Hk. now right. }
    now rewrite E.
  - destruct Hin as [-> | Hin]; [now elim Hne|]. now rewrite (IH Hnd' Hin).
Qed.

Lemma tradesOf_sum (ks : list string) (l : list Trade) :
  NoDup ks -> (forall t, In t l -> In (item t) ks) ->
  list_sum (map (fun k => List.length (tradesOf k l)) ks) = List.length l.
Proof.
  intros Hnd. induction l as [|t l IH]; intros Hin.
  - cbn. induction ks as [|k ks IHk]; [reflexivity|]. cbn [map]. rewrite !list_sum_cons.
    inversion Hnd; subst. now rewrite IHk.
  - specialize (IH (fun x Hx => Hin x (or_intror Hx))).
    pose proof (count_key (item t) ks Hnd (Hin t (or_introl eq_refl))) as H1.
    change (List.length (t :: l)) with (1 + List.length l)%nat. rewrite <- IH, <- H1. clear.
    induction ks as [|k ks IHk]; [reflexivity|]. cbn [map]. rewrite !list_sum_cons.
    unfold tradesOf at 1. cbn [filter]. unfold hasItem at 1.
    fold (tradesOf k l). destruct (String.eqb (item t) k); cbn [List.length]; lia.
Qed.

Lemma list_sum_le {A : Type} (f g : A -> nat) (m : list A) :
  Forall (fun e => (f e <= g e)%nat) m -> (list_sum (map f m) <= list_sum (map g m))%nat.
Proof.
  induction 1 as [|e m He _ IH]; [reflexivity|]. cbn [map]. rewrite !list_sum_cons. lia.
Qed.

End Split.

(** X21.  The groups split the input by item: the numbers of input trades
    of the groups' items add up to the number of input trades, and the
    counts the groups' headers show add up to no more. *)
Theorem groups_split_input (cfg : Offsets) (now : Z) (tol : number) (allTrades : list Trade) :
  ownItems allTrades ->
  list_sum (map (fun e : string * Group => List.length (tradesOf (fst e) allTrades))
                (snd (classifyAndGroupTrades cfg now tol allTrades)))
  = List.length allTrades /\
  (list_sum (map (fun e : string * Group => Components.totalTrades (snd e))
                 (snd (classifyAndGroupTrades cfg now tol allTrades)))
   <= List.length allTrades)%nat.
Proof.
  intros _.
  assert (Hsum : list_sum (map (fun e : string * Group =>
                                  List.length (tradesOf (fst e) allTrades))
                               (snd (classifyAndGroupTrades cfg now tol allTrades)))
                 = List.length allTrades).
  { rewrite <- (tradesOf_sum (OrderedMap.keys (snd (classifyAndGroupTrades cfg now tol allTrades)))
                  allTrades).
    - unfold OrderedMap.keys. now rewrite map_map.
    - apply keys_NoDup_classify.
    - intros t Ht. apply classify_key_iff. now exists t. }
  split; [exact Hsum|]. rewrite <- Hsum.
  apply list_sum_le. eapply Forall_impl; [|apply classify_entries].
  intros [i g] ->. cbn [fst snd].
  unfold Components.totalTrades, groupOf. cbn [winners breakeven losers].
  pose proof (group_lengths tol i allTrades) as Hl.
  pose proof (Permutation_length (bucket_sorted_perm cfg now (isWinner tol) i allTrades)) as H1.
  pose proof (Permutation_length (bucket_sorted_perm cfg now (isBreakeven tol) i allTrades))
    as H2.
  pose proof (Permutation_length (bucket_sorted_perm cfg now (isLoser tol) i allTrades)) as H3.
  assert (Hd : (List.length (dedupWinners cfg now
                               (bucket (isWinner tol) i (sortedTrades cfg now allTrades)))
                <= List.length (bucket (isWinner tol) i (sortedTrades cfg now allTrades)))%nat).
  { rewrite dedupWinners_length. unfold distinctKeys.
    rewrite <- (length_map winnerKey (bucket _ _ _)).
    apply NoDup_incl_length; [apply NoDup_nodup|]. intros k Hk. now apply nodup_In in Hk. }
  lia.
Qed.

Lemma groups_split_input_witness :
  list_sum (map (fun e : string * Group =>
                   List.length (tradesOf (fst e) [tradeA; tradeB; tradeC]))
                (snd (classifyAndGroupTrades constants 0 zero [tradeA; tradeB; tradeC])))
  = List.length [tradeA; tradeB; tradeC] /\
  (list_sum (map (fun e : string * Group => Components.totalTrades (snd e))
                 (snd (classifyAndGroupTrades constants 0 zero [tradeA; tradeB; tradeC])))
   <= List.length [tradeA; tradeB; tradeC])%nat.
Proof.
  apply (groups_split_input constants 0 zero [tradeA; tradeB; tradeC]).
  repeat constructor.
Defined.

(** * The dictionary, the clock and the order of the winners *)

Import ObjectSemantics.

(** ** Items that are inherited names *)

Section ObjectFacts.
Variable tol : number.

Lemma keys_set_incl {V : Type} (k x : string) (v : V) (m : OrderedMap.t V) :
  In x (OrderedMap.keys (OrderedMap.set k v m)) -> x = k \/ In x (OrderedMap.keys m).
Proof.
  rewrite keys_set. destruct (OrderedMap.get k m); [now right|].
  intros H. apply in_app_iff in H. destruct H as [H | [<- | []]]; [now right | now left].
Qed.

Lemma keys_bucketTrade (m : GroupedTrades) (t : Trade) (x : string) :
  In x (OrderedMap.keys (bucketTrade tol m t)) -> x = item t \/ In x (OrderedMap.keys m).
Proof.
  unfold bucketTrade.
  set (m' := match OrderedMap.get (item t) m with
             | Some _ => m
             | None => OrderedMap.set (item t) emptyGroup m
             end).
  assert (Hm' : In x (OrderedMap.keys m') -> x = item t \/ In x (OrderedMap.keys m)).
  { unfold m'. destruct (OrderedMap.get (item t) m); [now right | apply keys_set_incl]. }
  intros H.
  repeat match type of H with
         | context [if ?b then _ else _] => destruct b
         end;
    apply keys_set_incl in H; destruct H as [H | H]; auto.
Qed.

(** The loop on the object runs through exactly when no item is an
    inherited name, and then it is the loop on the entries. *)
Lemma bucketTradesOrThrow_spec (l : list Trade) : forall m : GroupedTrades,
  Forall (fun k => existsb (String.eqb k) inheritedNames = false) (OrderedMap.keys m) ->
  bucketTradesOrThrow tol m l
  = if forallb ownItem l then Some (fold_left (bucketTrade tol) l m) else None.
Proof.
  induction l as [|t l IH]; intros m Hm; [reflexivity|].
  cbn [bucketTradesOrThrow forallb fold_left]. unfold bucketTradeOrThrow, getProperty.
  assert (Hnext : ownItem t = true ->
                  Forall (fun k => existsb (String.eqb k) inheritedNames = false)
                         (OrderedMap.keys (bucketTrade tol m t))).
  { intros Ht. apply Forall_forall. intros x Hx.
    destruct (keys_bucketTrade m t x Hx) as [-> | Hin].
    - unfold ownItem in Ht. now apply negb_true_iff in Ht.
    - exact (proj1 (Forall_forall _ _) Hm x Hin). }
  destruct (OrderedMap.get (item t) m) as [g|] eqn:Eg.
  - assert (Ht : ownItem t = true).
    { unfold ownItem. apply negb_true_iff.
      exact (proj1 (Forall_forall _ _) Hm _ (get_Some_keys _ _ _ Eg)). }
    rewrite Ht. cbn [andb]. exact (IH _ (Hnext Ht)).
  - unfold ownItem at 1. destruct (existsb (String.eqb (item t)) inheritedNames) eqn:Ei.
    + reflexivity.
    + cbn [negb andb]. apply IH, Hnext. unfold ownItem. now rewrite Ei.
Qed.

Lemma forallb_perm {A : Type} (f : A -> bool) (l l' : list A) :
  Permutation l l' -> forallb f l = forallb f l'.
Proof.
  intros H. destruct (forallb f l) eqn:E, (forallb f l') eqn:E'; try reflexivity.
  - rewrite forallb_forall in E. rewrite <- E'. symmetry. apply forallb_forall.
    intros x Hx. apply E. exact (Permutation_in _ (Permutation_sym H) Hx).
  - rewrite forallb_forall in E'. rewrite <- E. apply forallb_forall.
    intros x Hx. apply E'. exact (Permutation_in _ H Hx).
Qed.

Lemma ownItems_forallb (l : list Trade) : ownItems l <-> forallb ownItem l = true.
Proof. unfold ownItems. rewrite forallb_forall, Forall_forall. reflexivity. Qed.

(** The call throws exactly when an item is an inherited name; when it
    does not, it returns the mapping of the loop on the entries. *)
Lemma classify_or_throw (cfg : Offsets) (now : Z) (l : list Trade) :
  classifyAndGroupTradesOrThrow cfg now tol l
  = (sortedTrades cfg now l,
     if forallb ownItem l then Some (snd (classifyAndGroupTrades cfg now tol l)) else None).
Proof.
  unfold classifyAndGroupTradesOrThrow, classifyAndGroupTrades, sortedTrades, bucketTrades.
  cbn [snd]. f_equal.
  rewrite bucketTradesOrThrow_spec by constructor.
  rewrite (forallb_perm ownItem _ l (sort_perm _ l)).
  now destruct (forallb ownItem l).
Qed.

End ObjectFacts.

(** ** The clock *)

Section ClockFacts.
Variable cfg : Offsets.

Lemma parse_clock_free (now now' : Z) (s : string) :
  containsTimestamp s -> parseMT4DateToUTC cfg now s = parseMT4DateToUTC cfg now' s.
Proof.
  intros Hc. unfold parseMT4DateToUTC.
  destruct (regexMatch s) eqn:E; [reflexivity|].
  apply regexMatch_None_iff in E. contradiction.
Qed.

(** On open times that hold a timestamp the comparator gives one value
    whatever the clock shows at its two readings. *)
Lemma comparator_clock_free (now nowA nowB : Z) (a b : Trade) :
  containsTimestamp (openTimeRaw a) -> containsTimestamp (openTimeRaw b) ->
  byOpenTimeAt cfg nowA nowB a b = byOpenTime cfg now a b.
Proof.
  intros Ha Hb. unfold byOpenTimeAt, byOpenTime.
  now rewrite (parse_clock_free nowA now _ Ha), (parse_clock_free nowB now _ Hb).
Qed.

Lemma insert_ext_in {A : Type} (c c' : A -> A -> option Z) (x : A) (l : list A) :
  (forall y, In y l -> c x y = c' x y) -> JSArray.insert c x l = JSArray.insert c' x l.
Proof.
  induction l as [|y l IH]; intros H; [reflexivity|].
  cbn [JSArray.insert]. unfold JSArray.sortsAfter. rewrite (H y (or_introl eq_refl)).
  rewrite IH by (intros z Hz; apply H; now right). reflexivity.
Qed.

Lemma sort_ext_in {A : Type} (c c' : A -> A -> option Z) (l : list A) :
  (forall x y, In x l -> In y l -> c x y = c' x y) -> JSArray.sort c l = JSArray.sort c' l.
Proof.
  induction l as [|x l IH]; intros H; [reflexivity|].
  cbn [JSArray.sort]. rewrite IH by (intros a b Ha Hb; apply H; now right).
  apply insert_ext_in. intros y Hy. apply H; [now left|]. right.
  exact (Permutation_in _ (sort_perm c' l) Hy).
Qed.

Lemma byOpenTime_clock_free (now now' : Z) (l : list Trade) :
  timestamped l ->
  forall x y, In x l -> In y l -> byOpenTime cfg now x y = byOpenTime cfg now' x y.
Proof.
  intros Hl x y Hx Hy. unfold timestamped in Hl. rewrite Forall_forall in Hl.
  rewrite <- (comparator_clock_free now now' now' x y (Hl x Hx) (Hl y Hy)).
  unfold byOpenTimeAt, byOpenTime.
  now rewrite (parse_clock_free now' now _ (Hl x Hx)).
Qed.

Lemma sortedTrades_clock_free (now now' : Z) (l : list Trade) :
  timestamped l -> sortedTrades cfg now l = sortedTrades cfg now' l.
Proof. intros Hl. apply sort_ext_in, byOpenTime_clock_free, Hl. Qed.

Lemma dedupWinners_clock_free (now now' : Z) (W : list Trade) :
  timestamped W -> dedupWinners cfg now W = dedupWinners cfg now' W.
Proof.
  intros HW. unfold dedupWinners. apply sort_ext_in, byOpenTime_clock_free.
  apply Forall_forall. intros u Hu.
  destruct (dedup_keyedBy W) as (Hnd & _ & Hget).
  unfold OrderedMap.values in Hu. apply in_map_iff in Hu. destruct Hu as ([k v] & <- & Hin).
  apply (In_get _ _ _ Hnd) in Hin.
  exact (proj1 (Forall_forall _ _) HW _ (proj2 (Hget k v Hin))).
Qed.

Lemma timestamped_perm (l l' : list Trade) :
  Permutation l l' -> timestamped l -> timestamped l'.
Proof. intros H. unfold timestamped. now apply Permutation_Forall. Qed.

Lemma timestamped_filter (p : Trade -> bool) (l : list Trade) :
  timestamped l -> timestamped (filter p l).
Proof.
  unfold timestamped. rewrite !Forall_forall. intros H x Hx.
  apply filter_In in Hx. now apply H.
Qed.

(** On open times that hold a timestamp the call does not depend on the
    clock. *)
Lemma classify_clock_free (now now' : Z) (tol : number) (l : list Trade) :
  timestamped l ->
  classifyAndGroupTrades cfg now tol l = classifyAndGroupTrades cfg now' tol l.
Proof.
  intros Hl. unfold classifyAndGroupTrades.
  pose proof (sortedTrades_clock_free now now' l Hl) as ES. unfold sortedTrades in ES.
  rewrite <- ES. f_equal.
  unfold dedupGroups. apply map_ext_in. intros [i g] Hin.
  pose proof (proj1 (Forall_forall _ _) (bucketTrades_entries tol _) _ Hin) as Eg.
  cbn [fst snd] in *. f_equal. f_equal. subst g. cbn [bucketsOf winners].
  apply dedupWinners_clock_free, timestamped_filter.
  exact (timestamped_perm _ _ (Permutation_sym (sort_perm _ l)) Hl).
Qed.

End ClockFacts.

(** ** The order of the deduplication map *)

Section FirstOccurrences.

Lemma firstOccurrences_incl (l : list Trade) (x : Trade) :
  In x (firstOccurrences l) -> In x l.
Proof.
  induction l as [|t l IH]; [intros []|]. cbn [firstOccurrences].
  intros [<- | H]; [now left|]. right. apply IH. now apply filter_In in H.
Qed.

Lemma firstOccurrences_snoc (l : list Trade) (t : Trade) :
  firstOccurrences (l ++ [t])
  = (firstOccurrences l
     ++ if existsb (String.eqb (winnerKey t)) (map winnerKey l) then [] else [t])%list.
Proof.
  induction l as [|x l IH]; [reflexivity|].
  rewrite <- app_comm_cons. cbn [firstOccurrences map existsb]. rewrite IH, filter_app.
  rewrite <- app_comm_cons. f_equal. f_equal.
  destruct (String.eqb (winnerKey t) (winnerKey x)) eqn:E; cbn [orb].
  - destruct (existsb _ _); [reflexivity|]. cbn [filter]. now rewrite E.
  - destruct (existsb _ _); [reflexivity|]. cbn [filter]. now rewrite E.
Qed.

Lemma existsb_key (k : string) (ks : list string) :
  existsb (String.eqb k) ks = true <-> In k ks.
Proof.
  rewrite existsb_exists. split.
  - intros (x & Hx & E). apply String.eqb_eq in E. now subst.
  - intros H. exists k. split; [exact H | apply String.eqb_refl].
Qed.

Lemma keepBest_order (m : OrderedMap.t Trade) (done : list Trade) (w : Trade) :
  keyedBy m done ->
  OrderedMap.keys m = map winnerKey (firstOccurrences done) ->
  OrderedMap.keys (keepBest m w) = map winnerKey (firstOccurrences (done ++ [w])).
Proof.
  intros (Hnd & Hall & Hget) Hk. rewrite firstOccurrences_snoc, map_app, <- Hk.
  unfold keepBest. destruct (OrderedMap.get (winnerKey w) m) as [existing|] eqn:E.
  - assert (Hin : existsb (String.eqb (winnerKey w)) (map winnerKey done) = true).
    { apply existsb_key. destruct (Hget _ _ E) as [<- Hu]. now apply in_map. }
    rewrite Hin. cbn [map]. rewrite app_nil_r.
    destruct (gt (profit w) (profit existing)); [|reflexivity].
    now rewrite keys_set, E.
  - assert (Hout : existsb (String.eqb (winnerKey w)) (map winnerKey done) = false).
    { destruct (existsb _ _) eqn:Ex; [|reflexivity]. exfalso.
      apply existsb_key, in_map_iff in Ex. destruct Ex as (x & Ex & Hx).
      apply get_None_keys in E. apply E. rewrite <- Ex. now apply Hall. }
    rewrite Hout. cbn [map]. now rewrite keys_set, E.
Qed.

Lemma fold_keepBest_order (l : list Trade) : forall m done,
  keyedBy m done ->
  OrderedMap.keys m = map winnerKey (firstOccurrences done) ->
  OrderedMap.keys (fold_left keepBest l m) = map winnerKey (firstOccurrences (done ++ l)).
Proof.
  induction l as [|w l IH]; intros m done Hk Ho; cbn [fold_left].
  - now rewrite app_nil_r.
  - replace (done ++ w :: l)%list with ((done ++ [w]) ++ l)%list
      by (rewrite <- app_assoc; reflexivity).
    apply IH; [now apply keepBest_keyedBy | now apply keepBest_order].
Qed.

(** The map holds its keys in the order in which the list first shows
    them. *)
Lemma dedup_order (W : list Trade) :
  OrderedMap.keys (fold_left keepBest W []) = map winnerKey (firstOccurrences W).
Proof.
  apply (fold_keepBest_order W [] []); [|reflexivity].
  split; [constructor|]. split; [intros x [] | intros k u Hg; discriminate Hg].
Qed.

Lemma filter_firstOccurrences (p : Trade -> bool) (l : list Trade) :
  (forall x y, winnerKey x = winnerKey y -> p x = p y) ->
  filter p (firstOccurrences l) = firstOccurrences (filter p l).
Proof.
  intros Hp. induction l as [|t l IH]; [reflexivity|].
  cbn [firstOccurrences filter]. destruct (p t) eqn:Et.
  - cbn [firstOccurrences]. f_equal. rewrite <- IH. apply filter_swap.
  - rewrite <- IH.
    generalize (firstOccurrences l). intros X.
    induction X as [|x X IHX]; [reflexivity|]. cbn [filter].
    destruct (String.eqb (winnerKey x) (winnerKey t)) eqn:E; cbn [negb].
    + apply String.eqb_eq in E. rewrite (Hp x t E), Et. exact IHX.
    + cbn [filter]. destruct (p x); [now f_equal | exact IHX].
Qed.

Lemma Forall2_map_eq {A B C : Type} (f : A -> C) (g : B -> C) (l : list A) : forall l' : list B,
  map f l = map g l' -> Forall2 (fun a b => f a = g b) l l'.
Proof.
  induction l as [|a l IH]; intros [|b l'] E; try discriminate; [constructor|].
  injection E as E1 E2. constructor; [exact E1 | now apply IH].
Qed.

Lemma Forall2_filter {A B : Type} (R : A -> B -> Prop) (p : A -> bool) (q : B -> bool)
    (l : list A) (l' : list B) :
  (forall a b, R a b -> p a = q b) ->
  Forall2 R l l' -> Forall2 R (filter p l) (filter q l').
Proof.
  intros Hpq H. induction H as [|a b l l' Hab _ IH]; [constructor|].
  cbn [filter]. rewrite <- (Hpq a b Hab). destruct (p a); [now constructor | exact IH].
Qed.

Lemma atInstant_key (cfg : Offsets) (now T : Z) (x y : Trade) :
  winnerKey x = winnerKey y -> atInstant cfg now T x = atInstant cfg now T y.
Proof.
  intros E. apply winnerKey_sameKey in E. destruct E as [E _].
  unfold atInstant, openInstant. now rewrite E.
Qed.

(** At each instant the deduplicated winners stand in the order in which
    the list first shows their keys. *)
Lemma dedupWinners_order (now T : Z) (W : list Trade) :
  Forall2 sameKey (filter (atInstant constants now T) (firstOccurrences W))
                  (filter (atInstant constants now T) (dedupWinners constants now W)).
Proof.
  destruct (dedup_keyedBy W) as (Hnd & _ & Hget).
  assert (Hv : map winnerKey (firstOccurrences W)
               = map winnerKey (OrderedMap.values (fold_left keepBest W []))).
  { rewrite (values_keys _ (fun k u Hg => proj1 (Hget k u Hg)) Hnd). symmetry.
    apply dedup_order. }
  apply Forall2_map_eq in Hv.
  unfold dedupWinners.
  change (filter (atInstant constants now T)
            (JSArray.sort (byOpenTime constants now)
               (OrderedMap.values (fold_left keepBest W []))))
    with (filter (fun a => openInstant constants now a =? T)
            (JSArray.sort (byOpenTime constants now)
               (OrderedMap.values (fold_left keepBest W [])))).
  rewrite (sort_stable _ _ (byOpenTime_key now)).
  apply (Forall2_impl (R1 := fun a b => winnerKey a = winnerKey b)).
  - intros a b E. now apply winnerKey_sameKey.
  - apply Forall2_filter; [|exact Hv]. intros a b E. now apply atInstant_key.
Qed.

End FirstOccurrences.

(** * The parser keeps the rows it accepts *)

Section AcceptedRows.

Lemma rowToTrade_accepted (cells : Row) :
  (toLowerCase (trim (cellText cells 2)) = "buy" \/
   toLowerCase (trim (cellText cells 2)) = "sell") ->
  toLowerCase (trim (cellText cells 4)) <> "" ->
  exists trade, rowToTrade cells = Some trade.
Proof.
  intros Hside Hsym. unfold rowToTrade. rewrite !orElse_empty.
  destruct (toLowerCase (trim (cellText cells 4))) as [|c sym] eqn:Ei; [now elim Hsym|].
  destruct Hside as [-> | ->]; cbn; eexists; reflexivity.
Qed.

End AcceptedRows.

(** C5, as amended.  A row of the closed-transactions section with 14
    cells, no marker, a side that reads buy or sell and a symbol is kept,
    whatever its numeric cells hold: it gives a trade, which follows those
    of the rows before it in the output.  A numeric field (size, openPrice,
    closePrice, profit) of the trade is 0 when its cell is empty after
    trimming, and [parseFloat] of the trimmed text otherwise. *)
Theorem numeric_cells_lenient (pre rest : list Row) (cells : Row) :
  insideClosedSection pre ->
  acceptedRow cells ->
  exists trade,
    rowToTrade cells = Some trade /\
    (size trade = numericCell cells 3 /\
     openPrice trade = numericCell cells 5 /\
     closePrice trade = numericCell cells 9 /\
     profit trade = numericCell cells 13) /\
    (forall i, trim (cellText cells i) = "" -> numericCell cells i = zero) /\
    (forall i, trim (cellText cells i) <> "" ->
               numericCell cells i = parseFloat (trim (cellText cells i))) /\
    parseMT4Report (pre ++ cells :: rest)
    = (parseMT4Report pre ++ trade :: scanRows true [] rest)%list /\
    In trade (parseMT4Report (pre ++ cells :: rest)).
Proof.
  intros [Hpre Hin] (Hcand & Hside & Hsym).
  destruct (rowToTrade_accepted cells Hside Hsym) as [trade Ht].
  assert (Hout : parseMT4Report (pre ++ cells :: rest)
                 = (parseMT4Report pre ++ trade :: scanRows true [] rest)%list).
  { unfold parseMT4Report. rewrite scanRows_continues by assumption.
    assert (E : existsb (fun r => firstCellIncludes r "Closed Transactions:") pre = true).
    { apply existsb_exists. apply Exists_exists in Hin. exact Hin. }
    rewrite E. simpl (false || true). now apply scanRows_candidate. }
  exists trade. split; [exact Ht|]. split; [now apply rowToTrade_fields|]. split.
  { intros i Hi. unfold numericCell. now rewrite Hi. }
  split.
  { intros i Hi. unfold numericCell. destruct (trim (cellText cells i)); [now elim Hi|].
    reflexivity. }
  split; [exact Hout|]. rewrite Hout. apply in_elt.
Qed.

(** The amended C5 on a row whose profit cell is blank. *)
Lemma numeric_cells_lenient_witness :
  exists trade,
    rowToTrade (sampleRow "1" "  ") = Some trade /\
    (size trade = numericCell (sampleRow "1" "  ") 3 /\
     openPrice trade = numericCell (sampleRow "1" "  ") 5 /\
     closePrice trade = numericCell (sampleRow "1" "  ") 9 /\
     profit trade = numericCell (sampleRow "1" "  ") 13) /\
    (forall i, trim (cellText (sampleRow "1" "  ") i) = "" ->
               numericCell (sampleRow "1" "  ") i = zero) /\
    (forall i, trim (cellText (sampleRow "1" "  ") i) <> "" ->
               numericCell (sampleRow "1" "  ") i
               = parseFloat (trim (cellText (sampleRow "1" "  ") i))) /\
    parseMT4Report ([["Closed Transactions:"]] ++ sampleRow "1" "  " :: [])
    = (parseMT4Report [["Closed Transactions:"]] ++ trade :: scanRows true [] [])%list /\
    In trade (parseMT4Report ([["Closed Transactions:"]] ++ sampleRow "1" "  " :: [])).
Proof.
  apply (numeric_cells_lenient [["Closed Transactions:"]] [] (sampleRow "1" "  ")).
  - split.
    + constructor; [left; reflexivity | constructor].
    + constructor. reflexivity.
  - split; [|split].
    + split; [reflexivity|]. split.
      * unfold closedMarker. vm_compute. discriminate.
      * unfold endMarker. vm_compute. intros [H | H]; discriminate.
    + left. reflexivity.
    + vm_compute. discriminate.
Defined.

(** * The groups of the returned mapping *)

Section ReturnedGroups.

Lemma Trade_eq_dec (a b : Trade) : {a = b} + {a <> b}.
Proof.
  assert (Hn : forall x y : number, {x = y} + {x <> y}).
  { decide equality; try apply Bool.bool_dec; try apply Pos.eq_dec; apply Z.eq_dec. }
  decide equality; try apply string_dec; try apply Hn. decide equality.
Qed.

Lemma firstBest_best (u : Trade) (W : list Trade) :
  Forall (fun x => isNaN (profit x) = false) W ->
  firstBest u W ->
  forall x, In x W -> sameKey x u -> le (profit x) (profit u) = true.
Proof.
  intros Hnan (before & after & E & Hb & Ha) x Hx Hs.
  rewrite E in Hx. apply in_app_or in Hx as [Hx | [<- | Hx]].
  - now apply lt_le, Hb.
  - apply le_refl. rewrite Forall_forall in Hnan. apply Hnan. rewrite E. apply in_elt.
  - now apply Ha.
Qed.

Variable cfg : Offsets.
Variable now : Z.
Variable tol : number.

Lemma classify_get_In (allTrades : list Trade) (trade : Trade) :
  In trade allTrades ->
  OrderedMap.get (item trade) (snd (classifyAndGroupTrades cfg now tol allTrades))
  = Some (groupOf cfg now tol (item trade) allTrades).
Proof.
  intros Hin. rewrite classify_get.
  now rewrite (proj2 (sorted_item cfg now (item trade) allTrades)) by now exists trade.
Qed.

Lemma sorted_In (allTrades : list Trade) (t : Trade) :
  In t (sortedTrades cfg now allTrades) <-> In t allTrades.
Proof.
  split; apply Permutation_in; [|symmetry]; apply sortedTrades_perm.
Qed.

Lemma classify_returns (allTrades : list Trade) :
  ownItems allTrades ->
  snd (classifyAndGroupTradesOrThrow cfg now tol allTrades)
  = Some (snd (classifyAndGroupTrades cfg now tol allTrades)).
Proof.
  intros Hown. rewrite classify_or_throw. cbn [snd].
  now rewrite (proj1 (ownItems_forallb allTrades) Hown).
Qed.

Lemma tests_exclusive (t : Trade) :
  isBreakeven tol t = negb (isWinner tol t) && isBreakeven tol t /\
  isLoser tol t = negb (isWinner tol t) && negb (isBreakeven tol t).
Proof.
  unfold isLoser, isBreakeven, isWinner. destruct (gt (profit t) tol); [now split|].
  now destruct (ge (profit t) (neg tol) && le (profit t) tol).
Qed.

End ReturnedGroups.

(** C2, as amended.  For a tolerance that is not negative and items that
    are no inherited names the call returns, and every trade of the input
    has the group of its item.  By its profit alone the trade is: above the
    tolerance, in neither the breakeven nor the losers list, and in the
    winners list itself or replaced there by a winner with its key that
    earns no less (itself when no other winner of the item has its key);
    within the band, both ends included, in the breakeven list only; below
    the band, in the losers list only.  So it is in exactly one list, or it
    is a winner that the deduplication dropped and is in none. *)
Theorem buckets_by_profit (cfg : Offsets) (now : Z) (tol : number)
    (allTrades : list Trade) (trade : Trade) :
  nonNegative tol ->
  ownItems allTrades ->
  In trade allTrades ->
  exists g,
    classifyAndGroupTradesOrThrow cfg now tol allTrades
    = (sortedTrades cfg now allTrades,
       Some (snd (classifyAndGroupTrades cfg now tol allTrades))) /\
    OrderedMap.get (item trade) (snd (classifyAndGroupTrades cfg now tol allTrades)) = Some g /\
    (gt (profit trade) tol = true ->
     ~ In trade (breakeven g) /\ ~ In trade (losers g) /\ keptOrReplaced trade g /\
     ((forall x, In x allTrades -> item x = item trade -> gt (profit x) tol = true ->
                 sameKey x trade -> x = trade) ->
      In trade (winners g))) /\
    (ge (profit trade) (neg tol) = true -> le (profit trade) tol = true ->
     ~ In trade (winners g) /\ In trade (breakeven g) /\ ~ In trade (losers g)) /\
    (lt (profit trade) (neg tol) = true ->
     ~ In trade (winners g) /\ ~ In trade (breakeven g) /\ In trade (losers g)) /\
    (numEq (profit trade) tol = true -> In trade (breakeven g) /\ ~ In trade (winners g)) /\
    (inOneBucket trade g \/
     (gt (profit trade) tol = true /\ inNoBucket trade g /\ keptOrReplaced trade g)).
Proof.
  intros Htol Hown Hin.
  exists (groupOf cfg now tol (item trade) allTrades).
  split.
  { rewrite classify_or_throw. now rewrite (proj1 (ownItems_forallb allTrades) Hown). }
  split; [now apply classify_get_In|].
  set (S := sortedTrades cfg now allTrades).
  set (W := bucket (isWinner tol) (item trade) S).
  unfold groupOf. cbn [winners breakeven losers]. fold S. fold W.
  assert (Hmem : forall test, In trade (bucket test (item trade) S) <-> test trade = true).
  { intros test. rewrite bucket_In. unfold S. rewrite sorted_In. tauto. }
  assert (HW : Forall (fun x => isNaN (profit x) = false) W) by apply winners_not_NaN.
  assert (Hwin : In trade (dedupWinners cfg now W) -> isWinner tol trade = true).
  { intros H. apply dedupWinners_incl in H. now apply Hmem. }
  assert (Hkept : isWinner tol trade = true -> keptOrReplaced trade
            {| winners := dedupWinners cfg now W;
               breakeven := bucket (isBreakeven tol) (item trade) S;
               losers := bucket (isLoser tol) (item trade) S |}).
  { intros Hw. apply Hmem in Hw.
    destruct (key_survives cfg now W HW trade Hw) as (u & Hu & Hk).
    exists u. cbn [winners]. split; [exact Hu|]. split; [exact Hk|].
    apply (firstBest_best u W HW (survivor_firstBest cfg now W HW u Hu) trade Hw).
    now apply sameKey_sym. }
  destruct (tests_exclusive tol trade) as [Hexb Hexl].
  assert (Hnotwin : isWinner tol trade = false ->
                    ~ In trade (dedupWinners cfg now W)).
  { intros E H. apply Hwin in H. congruence. }
  split.
  { intros Hgt. change (isWinner tol trade = true) in Hgt.
    rewrite Hgt in Hexb, Hexl. cbn [negb andb] in Hexb, Hexl.
    split; [rewrite Hmem; congruence|]. split; [rewrite Hmem; congruence|].
    split; [now apply Hkept|].
    intros Huniq. destruct (Hkept Hgt) as (u & Hu & Hk & _). cbn [winners] in Hu.
    assert (HuW : In u W) by now apply dedupWinners_incl in Hu.
    apply bucket_In in HuW. destruct HuW as (HuS & Hui & Huw).
    rewrite <- (Huniq u (proj1 (sorted_In cfg now allTrades u) HuS) Hui Huw Hk). exact Hu. }
  split.
  { intros Hge Hle. assert (Hg : isWinner tol trade = false) by now apply band_excludes_gt.
    assert (He : isBreakeven tol trade = true).
    { unfold isBreakeven. fold (isWinner tol trade). now rewrite Hg, Hge, Hle. }
    rewrite Hg, He in Hexl. cbn [negb andb] in Hexl.
    split; [now apply Hnotwin|]. split; [now apply Hmem|]. rewrite Hmem. congruence. }
  split.
  { intros Hlt. destruct (below_band tol _ Htol Hlt) as [Hg Hge].
    change (isWinner tol trade = false) in Hg.
    assert (He : isBreakeven tol trade = false).
    { unfold isBreakeven. now rewrite Hge, andb_false_r. }
    rewrite Hg, He in Hexl. cbn [negb andb] in Hexl.
    split; [now apply Hnotwin|]. split; [rewrite Hmem; congruence | now apply Hmem]. }
  split.
  { intros Heq. destruct (equal_in_band tol _ Htol Heq) as [Hge Hle].
    assert (Hg : isWinner tol trade = false) by now apply band_excludes_gt.
    assert (He : isBreakeven tol trade = true).
    { unfold isBreakeven. fold (isWinner tol trade). now rewrite Hg, Hge, Hle. }
    split; [now apply Hmem | now apply Hnotwin]. }
  unfold inOneBucket, inNoBucket. cbn [winners breakeven losers].
  destruct (isWinner tol trade) eqn:Ew.
  - cbn [negb andb] in Hexb, Hexl.
    assert (Hb : ~ In trade (bucket (isBreakeven tol) (item trade) S))
      by (rewrite Hmem; congruence).
    assert (Hl : ~ In trade (bucket (isLoser tol) (item trade) S))
      by (rewrite Hmem; congruence).
    destruct (in_dec Trade_eq_dec trade (dedupWinners cfg now W)) as [Hi | Hni].
    + left. left. now repeat split.
    + right. split; [exact Ew|]. split; [now repeat split | now apply Hkept].
  - left. right. cbn [negb andb] in Hexl.
    destruct (isBreakeven tol trade) eqn:Eb; cbn [negb] in Hexl.
    + left. split; [now apply Hnotwin|]. split; [now apply Hmem|]. rewrite Hmem. congruence.
    + right. split; [now apply Hnotwin|]. split; [rewrite Hmem; congruence | now apply Hmem].
Qed.

(** The amended C2 on two winners and tolerance 0. *)
Lemma buckets_by_profit_witness :
  exists g,
    classifyAndGroupTradesOrThrow constants 0 zero [tradeLate; tradeEarly]
    = (sortedTrades constants 0 [tradeLate; tradeEarly],
       Some (snd (classifyAndGroupTrades constants 0 zero [tradeLate; tradeEarly]))) /\
    OrderedMap.get (item tradeLate)
      (snd (classifyAndGroupTrades constants 0 zero [tradeLate; tradeEarly])) = Some g /\
    (gt (profit tradeLate) zero = true ->
     ~ In tradeLate (breakeven g) /\ ~ In tradeLate (losers g) /\ keptOrReplaced tradeLate g /\
     ((forall x, In x [tradeLate; tradeEarly] -> item x = item tradeLate ->
                 gt (profit x) zero = true -> sameKey x tradeLate -> x = tradeLate) ->
      In tradeLate (winners g))) /\
    (ge (profit tradeLate) (neg zero) = true -> le (profit tradeLate) zero = true ->
     ~ In tradeLate (winners g) /\ In tradeLate (breakeven g) /\ ~ In tradeLate (losers g)) /\
    (lt (profit tradeLate) (neg zero) = true ->
     ~ In tradeLate (winners g) /\ ~ In tradeLate (breakeven g) /\ In tradeLate (losers g)) /\
    (numEq (profit tradeLate) zero = true ->
     In tradeLate (breakeven g) /\ ~ In tradeLate (winners g)) /\
    (inOneBucket tradeLate g \/
     (gt (profit tradeLate) zero = true /\ inNoBucket tradeLate g /\
      keptOrReplaced tradeLate g)).
Proof.
  apply (buckets_by_profit constants 0 zero [tradeLate; tradeEarly] tradeLate).
  - reflexivity.
  - repeat constructor.
  - left. reflexivity.
Defined.

(** C2, as stated, fails.  Of three winners the first shares the key of the
    third, which earns more: the first is an input trade with a profit above
    the tolerance and is in no list of the returned group.  And on a trade
    whose item is the inherited name "constructor" the call throws. *)
Lemma duplicate_winner_in_no_bucket :
  OrderedMap.get (item tradeA)
    (snd (classifyAndGroupTrades constants 0 zero [tradeA; tradeB; tradeC]))
  = Some {| winners := [tradeC; tradeB]; breakeven := []; losers := [] |} /\
  snd (classifyAndGroupTradesOrThrow constants 0 zero [tradeA; tradeB; tradeC])
  = Some (snd (classifyAndGroupTrades constants 0 zero [tradeA; tradeB; tradeC])) /\
  In tradeA [tradeA; tradeB; tradeC] /\
  gt (profit tradeA) zero = true /\
  inNoBucket tradeA {| winners := [tradeC; tradeB]; breakeven := []; losers := [] |} /\
  snd (classifyAndGroupTradesOrThrow constants 0 zero [tradeInherited]) = None.
Proof.
  split; [vm_compute; reflexivity|]. split; [vm_compute; reflexivity|].
  split; [now left|]. split; [reflexivity|]. split; [|vm_compute; reflexivity].
  unfold inNoBucket. cbn [winners breakeven losers].
  split; [|split; intros []].
  intros [H | [H | []]]; [assert (E := f_equal ticket H) | assert (E := f_equal ticket H)];
    discriminate E.
Qed.

(** C3.  For items that are no inherited names the call returns, and every
    trade of the input has the group of its item in the returned mapping.  In every group the
    winners list has, for each key (open-time string, open price) of a
    bucketed winner of the item, exactly one trade: a bucketed winner with
    that key whose profit is the highest among the bucketed winners that
    share the key.  The breakeven and losers lists are the bucketed ones,
    whole. *)
Theorem winners_deduplicated (cfg : Offsets) (now : Z) (tol : number) (allTrades : list Trade) :
  ownItems allTrades ->
  snd (classifyAndGroupTradesOrThrow cfg now tol allTrades)
  = Some (snd (classifyAndGroupTrades cfg now tol allTrades)) /\
  (forall trade, In trade allTrades ->
     exists g,
       OrderedMap.get (item trade) (snd (classifyAndGroupTrades cfg now tol allTrades))
       = Some g /\
       In (item trade, g) (snd (classifyAndGroupTrades cfg now tol allTrades))) /\
  Forall (fun e : string * Group =>
            let W := bucket (isWinner tol) (fst e) (sortedTrades cfg now allTrades) in
            (forall w, In w W -> exists u, In u (winners (snd e)) /\ sameKey u w) /\
            ForallOrdPairs (fun u u' => ~ sameKey u u') (winners (snd e)) /\
            (forall u, In u (winners (snd e)) ->
                       In u W /\
                       forall x, In x W -> sameKey x u -> le (profit x) (profit u) = true) /\
            breakeven (snd e) = bucket (isBreakeven tol) (fst e) (sortedTrades cfg now allTrades) /\
            losers (snd e) = bucket (isLoser tol) (fst e) (sortedTrades cfg now allTrades))
         (snd (classifyAndGroupTrades cfg now tol allTrades)).
Proof.
  intros Hown. split; [now apply classify_returns|].
  split; [|apply entries_deduplicated].
  intros trade Hin. exists (groupOf cfg now tol (item trade) allTrades).
  pose proof (classify_get_In cfg now tol allTrades trade Hin) as Hg.
  split; [exact Hg | now apply get_In].
Qed.

(** C3 on three winners, two of one key. *)
Lemma winners_deduplicated_witness :
  snd (classifyAndGroupTradesOrThrow constants 0 zero [tradeA; tradeB; tradeC])
  = Some (snd (classifyAndGroupTrades constants 0 zero [tradeA; tradeB; tradeC])) /\
  (forall trade, In trade [tradeA; tradeB; tradeC] ->
     exists g,
       OrderedMap.get (item trade)
         (snd (classifyAndGroupTrades constants 0 zero [tradeA; tradeB; tradeC])) = Some g /\
       In (item trade, g)
          (snd (classifyAndGroupTrades constants 0 zero [tradeA; tradeB; tradeC]))) /\
  Forall (fun e : string * Group =>
            let W := bucket (isWinner zero) (fst e)
                       (sortedTrades constants 0 [tradeA; tradeB; tradeC]) in
            (forall w, In w W -> exists u, In u (winners (snd e)) /\ sameKey u w) /\
            ForallOrdPairs (fun u u' => ~ sameKey u u') (winners (snd e)) /\
            (forall u, In u (winners (snd e)) ->
                       In u W /\
                       forall x, In x W -> sameKey x u -> le (profit x) (profit u) = true) /\
            breakeven (snd e)
            = bucket (isBreakeven zero) (fst e)
                (sortedTrades constants 0 [tradeA; tradeB; tradeC]) /\
            losers (snd e)
            = bucket (isLoser zero) (fst e)
                (sortedTrades constants 0 [tradeA; tradeB; tradeC]))
         (snd (classifyAndGroupTrades constants 0 zero [tradeA; tradeB; tradeC])).
Proof.
  apply (winners_deduplicated constants 0 zero [tradeA; tradeB; tradeC]).
  repeat constructor.
Defined.

(** C10.  For items that are no inherited names the call returns, and every
    winning trade of the input has, in the winners list of the group of its item, exactly one
    trade with its key: the first best of the bucketed winners of the key
    in the sorted order, the one before which every winner of the key earns
    less and after which every winner of the key earns no more.  Of the
    winners of the key tied for the highest profit the earliest is kept and
    the later ones are not in the list. *)
Theorem ties_keep_earliest (cfg : Offsets) (now : Z) (tol : number) (allTrades : list Trade) :
  ownItems allTrades ->
  snd (classifyAndGroupTradesOrThrow cfg now tol allTrades)
  = Some (snd (classifyAndGroupTrades cfg now tol allTrades)) /\
  (forall w, In w allTrades -> gt (profit w) tol = true ->
     exists g u,
       OrderedMap.get (item w) (snd (classifyAndGroupTrades cfg now tol allTrades)) = Some g /\
       In u (winners g) /\ sameKey u w /\
       firstBest u (bucket (isWinner tol) (item w) (sortedTrades cfg now allTrades)) /\
       (forall x, In x (winners g) -> sameKey x w -> x = u)) /\
  Forall (fun e : string * Group =>
            forall u, In u (winners (snd e)) ->
                      firstBest u (bucket (isWinner tol) (fst e) (sortedTrades cfg now allTrades)))
         (snd (classifyAndGroupTrades cfg now tol allTrades)).
Proof.
  intros Hown. split; [now apply classify_returns|].
  split; [|apply entries_firstBest].
  intros w Hin Hgt.
  set (W := bucket (isWinner tol) (item w) (sortedTrades cfg now allTrades)).
  assert (HW : Forall (fun x => isNaN (profit x) = false) W) by apply winners_not_NaN.
  assert (Hw : In w W).
  { apply bucket_In. split; [now apply sorted_In|]. now split. }
  destruct (key_survives cfg now W HW w Hw) as (u & Hu & Hk).
  exists (groupOf cfg now tol (item w) allTrades), u.
  split; [now apply classify_get_In|].
  unfold groupOf. cbn [winners]. fold W.
  split; [exact Hu|]. split; [exact Hk|].
  pose proof (survivor_firstBest cfg now W HW u Hu) as Hf.
  split; [exact Hf|].
  intros x Hx Hxw. apply (firstBest_unique x u W).
  - now apply (survivor_firstBest cfg now W HW).
  - exact Hf.
  - destruct Hxw as [E1 E2], Hk as [E3 E4]. split; congruence.
Qed.

(** C10 on two winners of one key tied at the highest profit. *)
Lemma ties_keep_earliest_witness :
  snd (classifyAndGroupTradesOrThrow constants 0 zero
         [tradeEarly; sampleTrade "3" "2024.01.10 09:00:00" "1.1000" "50.00"])
  = Some (snd (classifyAndGroupTrades constants 0 zero
                 [tradeEarly; sampleTrade "3" "2024.01.10 09:00:00" "1.1000" "50.00"])) /\
  (forall w, In w [tradeEarly; sampleTrade "3" "2024.01.10 09:00:00" "1.1000" "50.00"] ->
     gt (profit w) zero = true ->
     exists g u,
       OrderedMap.get (item w)
         (snd (classifyAndGroupTrades constants 0 zero
                 [tradeEarly; sampleTrade "3" "2024.01.10 09:00:00" "1.1000" "50.00"]))
       = Some g /\
       In u (winners g) /\ sameKey u w /\
       firstBest u (bucket (isWinner zero) (item w)
                      (sortedTrades constants 0
                         [tradeEarly; sampleTrade "3" "2024.01.10 09:00:00" "1.1000" "50.00"])) /\
       (forall x, In x (winners g) -> sameKey x w -> x = u)) /\
  Forall (fun e : string * Group =>
            forall u, In u (winners (snd e)) ->
                      firstBest u (bucket (isWinner zero) (fst e)
                                     (sortedTrades constants 0
                                        [tradeEarly;
                                         sampleTrade "3" "2024.01.10 09:00:00" "1.1000" "50.00"])))
         (snd (classifyAndGroupTrades constants 0 zero
                 [tradeEarly; sampleTrade "3" "2024.01.10 09:00:00" "1.1000" "50.00"])).
Proof.
  apply (ties_keep_earliest constants 0 zero
           [tradeEarly; sampleTrade "3" "2024.01.10 09:00:00" "1.1000" "50.00"]).
  repeat constructor.
Defined.

(** * The order of the lists *)

Section ListOrder.
Variable now : Z.
Variable tol : number.

Lemma firstOccurrences_sorted (i : string) (T : Z) (allTrades : list Trade) :
  filter (atInstant constants now T)
    (firstOccurrences (bucket (isWinner tol) i (sortedTrades constants now allTrades)))
  = filter (atInstant constants now T) (firstOccurrences (bucket (isWinner tol) i allTrades)).
Proof.
  rewrite !filter_firstOccurrences by (intros x y E; now apply atInstant_key).
  f_equal. apply (proj2 (bucket_order now (isWinner tol) i allTrades)).
Qed.

End ListOrder.

(** C7, as amended.  For items that are no inherited names and open times
    that hold a timestamp the call returns, its result does not depend on
    the clock, and in every group of the returned mapping the three lists
    are in ascending order of the open instant.  The breakeven and losers
    lists keep trades with equal open instants in their input order.  The
    winners with one open instant stand in the input order of the first
    winners of their keys: a surviving winner stands where the first winner
    with its key stood.  So the winners keep their input order too when no
    two bucketed winners of the item share a key. *)
Theorem groups_ascending (now : Z) (tol : number) (allTrades : list Trade) :
  ownItems allTrades ->
  timestamped allTrades ->
  snd (classifyAndGroupTradesOrThrow constants now tol allTrades)
  = Some (snd (classifyAndGroupTrades constants now tol allTrades)) /\
  (forall now', classifyAndGroupTrades constants now' tol allTrades
                = classifyAndGroupTrades constants now tol allTrades) /\
  Forall (fun e : string * Group =>
            ascending constants now (winners (snd e)) /\
            ascending constants now (breakeven (snd e)) /\
            ascending constants now (losers (snd e)) /\
            keepsInputOrder constants now
              (bucket (isBreakeven tol) (fst e) allTrades) (breakeven (snd e)) /\
            keepsInputOrder constants now
              (bucket (isLoser tol) (fst e) allTrades) (losers (snd e)) /\
            (forall T,
                Forall2 sameKey
                  (filter (atInstant constants now T)
                     (firstOccurrences (bucket (isWinner tol) (fst e) allTrades)))
                  (filter (atInstant constants now T) (winners (snd e)))) /\
            (NoDup (map winnerKey (bucket (isWinner tol) (fst e) allTrades)) ->
             keepsInputOrder constants now
               (bucket (isWinner tol) (fst e) allTrades) (winners (snd e))))
         (snd (classifyAndGroupTrades constants now tol allTrades)).
Proof.
  intros Hown Hts. split; [now apply classify_returns|].
  split; [intros now'; now apply classify_clock_free|].
  pose proof (entries_ascending now tol allTrades) as Hasc.
  pose proof (classify_entries constants now tol allTrades) as Hent.
  rewrite Forall_forall in *. intros [i g] He.
  specialize (Hasc _ He). specialize (Hent _ He). cbn [fst snd] in *.
  destruct Hasc as (H1 & H2 & H3 & H4 & H5 & H6).
  repeat (split; [assumption|]). split; [|exact H6].
  intros T. subst g. cbn [groupOf winners].
  rewrite <- (firstOccurrences_sorted now tol i T allTrades).
  apply dedupWinners_order.
Qed.

(** The amended C7 on three winners opened at one instant, the third with
    the key of the first. *)
Lemma groups_ascending_witness :
  snd (classifyAndGroupTradesOrThrow constants 0 zero [tradeA; tradeB; tradeC])
  = Some (snd (classifyAndGroupTrades constants 0 zero [tradeA; tradeB; tradeC])) /\
  (forall now', classifyAndGroupTrades constants now' zero [tradeA; tradeB; tradeC]
                = classifyAndGroupTrades constants 0 zero [tradeA; tradeB; tradeC]) /\
  Forall (fun e : string * Group =>
            ascending constants 0 (winners (snd e)) /\
            ascending constants 0 (breakeven (snd e)) /\
            ascending constants 0 (losers (snd e)) /\
            keepsInputOrder constants 0
              (bucket (isBreakeven zero) (fst e) [tradeA; tradeB; tradeC]) (breakeven (snd e)) /\
            keepsInputOrder constants 0
              (bucket (isLoser zero) (fst e) [tradeA; tradeB; tradeC]) (losers (snd e)) /\
            (forall T,
                Forall2 sameKey
                  (filter (atInstant constants 0 T)
                     (firstOccurrences (bucket (isWinner zero) (fst e) [tradeA; tradeB; tradeC])))
                  (filter (atInstant constants 0 T) (winners (snd e)))) /\
            (NoDup (map winnerKey (bucket (isWinner zero) (fst e) [tradeA; tradeB; tradeC])) ->
             keepsInputOrder constants 0
               (bucket (isWinner zero) (fst e) [tradeA; tradeB; tradeC]) (winners (snd e))))
         (snd (classifyAndGroupTrades constants 0 zero [tradeA; tradeB; tradeC])).
Proof.
  apply (groups_ascending 0 zero [tradeA; tradeB; tradeC]).
  - repeat constructor.
  - repeat constructor;
      (exists "", "2024.01.10 10:00:00", ""; split; [reflexivity|];
       apply wellFormed_iff; reflexivity).
Defined.

(** C7, as stated, fails.  Three winners open at the same instant, the
    third shares the key of the first and earns more, so it takes the first
    one's place in the map and ends before the second, which the input has
    before it.  And for two trades without a timestamp the comparator, which
    reads the clock for each of them, tells each to come before the other
    when the clock moves on between its two readings, so that their order
    after the sort is not that of the input. *)
Lemma dedup_reorders_equal_instants :
  OrderedMap.get "eurusd" (snd (classifyAndGroupTrades constants 0 zero [tradeA; tradeB; tradeC]))
  = Some {| winners := [tradeC; tradeB]; breakeven := []; losers := [] |} /\
  openInstant constants 0 tradeB = openInstant constants 0 tradeC /\
  precedes tradeB tradeC [tradeA; tradeB; tradeC] /\
  precedes tradeC tradeB [tradeC; tradeB] /\
  regexMatch (openTimeRaw tradeP) = None /\
  regexMatch (openTimeRaw tradeQ) = None /\
  byOpenTimeAt constants 0 1 tradeP tradeQ = Some (-1) /\
  byOpenTimeAt constants 0 1 tradeQ tradeP = Some (-1).
Proof.
  split; [vm_compute; reflexivity|]. split; [vm_compute; reflexivity|]. split.
  - exists [tradeA], [], []. reflexivity.
  - split; [exists [], [], []; reflexivity|].
    repeat split; vm_compute; reflexivity.
Qed.

(** * The generated script *)

Section ScriptLines.




















Variable cfg : Offsets.
Variable now : Z.







End ScriptLines.



(** The upper-case title: of an item in plain letters, and of the three
    letters of the range whose upper-case forms are not one code unit of
    the range (the micro sign, y with diaeresis and sharp s). *)
Example upper_case_samples :
  toUpperCase "eurusd" = codeUnits "EURUSD" /\
  toUpperCase (String (ascii_of_nat 181) (String (ascii_of_nat 255) (String (ascii_of_nat 223) "")))
  = [924; 376; 83; 83] /\
  firstn 50 (header "eurusd")
  = codeUnits ("//@version=5" ++ nl ++ "indicator(" ++ quote ++ "EURUSD Trades from Report" ++ quote).
Proof. repeat split; vm_compute; reflexivity. Qed.

(** * The array after the call *)

(** X9.  On winners whose open time holds a timestamp the deduplication
    does not depend on the clock, and deduplicating a deduplicated list
    changes nothing. *)
Theorem dedup_idempotent (now : Z) (W : list Trade) :
  timestamped W ->
  (forall now', dedupWinners constants now' W = dedupWinners constants now W) /\
  dedupWinners constants now (dedupWinners constants now W) = dedupWinners constants now W.
Proof.
  intros HW. split; [intros now'; now apply dedupWinners_clock_free|].
  apply dedupWinners_distinct; [apply dedupWinners_NoDup|].
  apply (sort_sorted _ _ (byOpenTime_key now)).
Qed.

Lemma dedup_idempotent_witness :
  (forall now', dedupWinners constants now' [tradeA; tradeB; tradeC]
                = dedupWinners constants 0 [tradeA; tradeB; tradeC]) /\
  dedupWinners constants 0 (dedupWinners constants 0 [tradeA; tradeB; tradeC])
  = dedupWinners constants 0 [tradeA; tradeB; tradeC].
Proof.
  apply (dedup_idempotent 0 [tradeA; tradeB; tradeC]).
  repeat constructor;
    (exists "", "2024.01.10 10:00:00", ""; split; [reflexivity|];
     apply wellFormed_iff; reflexivity).
Defined.

(** X15.  When every open time holds a timestamp, the array after the call
    does not depend on the clock or on the tolerance: it holds the trades
    it held before, by ascending open instant, trades of one instant in the
    order they had. *)
Theorem array_after_call (now : Z) (tol : number) (allTrades : list Trade) :
  timestamped allTrades ->
  (forall now' tol', fst (classifyAndGroupTrades constants now' tol' allTrades)
                     = fst (classifyAndGroupTrades constants now tol allTrades)) /\
  ascending constants now (fst (classifyAndGroupTrades constants now tol allTrades)) /\
  Permutation (fst (classifyAndGroupTrades constants now tol allTrades)) allTrades /\
  keepsInputOrder constants now allTrades
    (fst (classifyAndGroupTrades constants now tol allTrades)).
Proof.
  intros Hts. split.
  { intros now' tol'.
    rewrite (proj1 (classify_argument constants now' tol' allTrades)),
      (proj1 (classify_argument constants now tol allTrades)).
    now apply sortedTrades_clock_free. }
  destruct (classify_argument constants now tol allTrades) as [-> Hp].
  split; [apply sortedTrades_ascending|]. split; [apply sortedTrades_perm|].
  intros T. apply (sort_stable _ _ (byOpenTime_key now)).
Qed.

Lemma array_after_call_witness :
  (forall now' tol', fst (classifyAndGroupTrades constants now' tol' [tradeLate; tradeEarly])
                     = fst (classifyAndGroupTrades constants 0 zero [tradeLate; tradeEarly])) /\
  ascending constants 0 (fst (classifyAndGroupTrades constants 0 zero [tradeLate; tradeEarly])) /\
  Permutation (fst (classifyAndGroupTrades constants 0 zero [tradeLate; tradeEarly]))
              [tradeLate; tradeEarly] /\
  keepsInputOrder constants 0 [tradeLate; tradeEarly]
    (fst (classifyAndGroupTrades constants 0 zero [tradeLate; tradeEarly])).
Proof.
  apply (array_after_call 0 zero [tradeLate; tradeEarly]).
  constructor; [|constructor; [|constructor]].
  - exists "", "2024.01.10 10:00:00", "". split; [reflexivity|].
    apply wellFormed_iff. reflexivity.
  - exists "", "2024.01.10 09:00:00", "". split; [reflexivity|].
    apply wellFormed_iff. reflexivity.
Defined.

(** X16.  When no item is an inherited name and every open time holds a
    timestamp, a second classification of the array the first call has
    sorted, at any later time and with any tolerance, returns, gives what
    it gives on the array as it was, and leaves the array as the first call
    left it. *)
Theorem reclassify_sorted (now now' : Z) (tol tol' : number) (allTrades : list Trade) :
  ownItems allTrades ->
  timestamped allTrades ->
  snd (classifyAndGroupTradesOrThrow constants now' tol'
         (fst (classifyAndGroupTrades constants now tol allTrades)))
  = Some (snd (classifyAndGroupTrades constants now' tol' allTrades)) /\
  classifyAndGroupTrades constants now' tol'
    (fst (classifyAndGroupTrades constants now tol allTrades))
  = classifyAndGroupTrades constants now' tol' allTrades /\
  fst (classifyAndGroupTrades constants now' tol' allTrades)
  = fst (classifyAndGroupTrades constants now tol allTrades).
Proof.
  intros Hown Hts.
  assert (Hfst : fst (classifyAndGroupTrades constants now' tol' allTrades)
                 = fst (classifyAndGroupTrades constants now tol allTrades)).
  { rewrite (proj1 (classify_argument constants now' tol' allTrades)),
      (proj1 (classify_argument constants now tol allTrades)).
    now apply sortedTrades_clock_free. }
  assert (Hagain : classifyAndGroupTrades constants now' tol'
                     (fst (classifyAndGroupTrades constants now tol allTrades))
                   = classifyAndGroupTrades constants now' tol' allTrades).
  { rewrite <- Hfst.
    pose proof (sort_ascending _ _ (byOpenTime_key now') _
                  (sortedTrades_ascending now' allTrades)) as E.
    unfold sortedTrades in E. unfold classifyAndGroupTrades. cbn [fst]. now rewrite E. }
  split; [|split; [exact Hagain | exact Hfst]].
  rewrite classify_returns; [now rewrite Hagain|].
  rewrite (proj1 (classify_argument constants now tol allTrades)).
  unfold ownItems in *. eapply Permutation_Forall; [|exact Hown].
  symmetry. apply sortedTrades_perm.
Qed.

Lemma reclassify_sorted_witness :
  snd (classifyAndGroupTradesOrThrow constants 5 (parseFloat "60")
         (fst (classifyAndGroupTrades constants 0 zero [tradeLate; tradeEarly])))
  = Some (snd (classifyAndGroupTrades constants 5 (parseFloat "60") [tradeLate; tradeEarly])) /\
  classifyAndGroupTrades constants 5 (parseFloat "60")
    (fst (classifyAndGroupTrades constants 0 zero [tradeLate; tradeEarly]))
  = classifyAndGroupTrades constants 5 (parseFloat "60") [tradeLate; tradeEarly] /\
  fst (classifyAndGroupTrades constants 5 (parseFloat "60") [tradeLate; tradeEarly])
  = fst (classifyAndGroupTrades constants 0 zero [tradeLate; tradeEarly]).
Proof.
  apply (reclassify_sorted 0 5 zero (parseFloat "60") [tradeLate; tradeEarly]).
  - repeat constructor.
  - constructor; [|constructor; [|constructor]].
    + exists "", "2024.01.10 10:00:00", "". split; [reflexivity|].
      apply wellFormed_iff. reflexivity.
    + exists "", "2024.01.10 09:00:00", "". split; [reflexivity|].
      apply wellFormed_iff. reflexivity.
Defined.
